(** * EasyFigAssembler: the export and TIFF-fallback handlers of [app/routes.py]

    A shallow embedding of [export_figure] and [convert_tiff_to_png]: the
    Python values the handlers inspect, the exceptions they catch, the calls
    they make into Pillow, numpy and tifffile, and the responses they build. *)

From Stdlib Require Import ZArith List String Ascii Strings.Byte Bool Lia.
From Stdlib Require Import SpecFloat DecimalString.
Import ListNotations.

Local Open Scope string_scope.
Local Open Scope Z_scope.

(** ** Python exceptions and results *)

Module Py.

(** The exception classes the handlers can meet.  All of them derive from
    [Exception]; [BinasciiError] also derives from [ValueError]. *)
Inductive exn_class : Type :=
| UnidentifiedImageError
| ValueError
| TypeError
| OverflowError
| AttributeError
| IndexError
| KeyError
| ZeroDivisionError
| ImportError
| BinasciiError
| BadRequest
| OSError
| MemoryError.

Record exn : Type := mkExn { exn_cls : exn_class; exn_msg : string }.

Definition exn_class_eqb (a b : exn_class) : bool :=
  match a, b with
  | UnidentifiedImageError, UnidentifiedImageError
  | ValueError, ValueError
  | TypeError, TypeError
  | OverflowError, OverflowError
  | AttributeError, AttributeError
  | IndexError, IndexError
  | KeyError, KeyError
  | ZeroDivisionError, ZeroDivisionError
  | ImportError, ImportError
  | BinasciiError, BinasciiError
  | BadRequest, BadRequest
  | OSError, OSError
  | MemoryError, MemoryError => true
  | _, _ => false
  end.

(** [isinstance e c] for the classes above ([except c:] catches [e]). *)
Definition isinstance (e : exn) (c : exn_class) : bool :=
  exn_class_eqb (exn_cls e) c
  || (exn_class_eqb (exn_cls e) BinasciiError && exn_class_eqb c ValueError).

Inductive result (A : Type) : Type :=
| Ok (a : A)
| Raise (e : exn).
Arguments Ok {A} a.
Arguments Raise {A} e.

(** Sequencing of computations that may raise. *)
Definition and_then {A B : Type} (r : result A) (k : A -> result B) : result B :=
  match r with
  | Ok a => k a
  | Raise e => Raise e
  end.

Declare Scope res_scope.
Delimit Scope res_scope with res.
Notation "x <- r ;;; k" := (and_then r (fun x => k))
  (at level 100, r at next level, right associativity) : res_scope.

(** ** Strings *)

(** A [str] is kept as the bytes of its UTF-8 encoding, so that a
    character of ASCII is one byte below 128 and every other character a
    run of bytes from 128 on.  What Python does with the characters
    outside ASCII comes from the Unicode tables of the interpreter, which
    are taken as they are. *)
Class Unicode : Type := {
  (** [s.lower()] for an [s] with a character outside ASCII *)
  lower_unicode : string -> string;
  (** The ASCII text that [int] reads in place of an [s] with a character
      outside ASCII: white space becomes a space, a decimal digit its ASCII
      digit, and the text ends with a question mark in place of the first
      character that is neither. *)
  decimal_ascii : string -> string;
  (** [repr(s)], cut after 200 characters *)
  repr200 : string -> string
}.

Definition is_ascii_char (c : ascii) : bool := Nat.ltb (nat_of_ascii c) 128.

Fixpoint is_ascii (s : string) : bool :=
  match s with
  | EmptyString => true
  | String c s' => is_ascii_char c && is_ascii s'
  end.

Definition is_upper (c : ascii) : bool :=
  let n := nat_of_ascii c in (Nat.leb 65 n && Nat.leb n 90)%bool.

Definition lower_char (c : ascii) : ascii :=
  if is_upper c then ascii_of_nat (nat_of_ascii c + 32) else c.

(** [s.lower()] for an [s] of ASCII characters: the letters A to Z become
    a to z. *)
Fixpoint lower_ascii (s : string) : string :=
  match s with
  | EmptyString => EmptyString
  | String c s' => String (lower_char c) (lower_ascii s')
  end.

(** [s.lower()] *)
Definition lower {U : Unicode} (s : string) : string :=
  if is_ascii s then lower_ascii s else lower_unicode s.

(** [s.startswith(p)] *)
Fixpoint startswith (p s : string) : bool :=
  match p, s with
  | EmptyString, _ => true
  | String a p', String b s' => Ascii.eqb a b && startswith p' s'
  | String _ _, EmptyString => false
  end.

(** [s.replace(old, new)] for a non-empty [old]: occurrences are replaced
    left to right without overlap.  [skip] counts the characters of a
    matched occurrence still to be dropped. *)
Fixpoint replace_from (old new : string) (skip : nat) (s : string) : string :=
  match s with
  | EmptyString => EmptyString
  | String c s' =>
      match skip with
      | S k => replace_from old new k s'
      | O =>
          if startswith old s
          then new ++ replace_from old new (String.length old - 1) s'
          else String c (replace_from old new O s')
      end
  end.

Definition replace (old new s : string) : string := replace_from old new O s.

(** [sub in s] on strings. *)
Fixpoint contains (sub s : string) : bool :=
  startswith sub s ||
  match s with
  | EmptyString => false
  | String _ s' => contains sub s'
  end.

(** [s.split(',', 1)] once it is known that [s] has a comma: the text
    before the first comma and the text after it. *)
Fixpoint split_comma (s : string) : string * string :=
  match s with
  | EmptyString => (EmptyString, EmptyString)
  | String c s' =>
      if Ascii.eqb c "," then (EmptyString, s')
      else let '(h, t) := split_comma s' in (String c h, t)
  end.

(** ** [int(str)] *)

(** The white space that [int] skips around the number: TAB, LF, VT, FF,
    CR and the space. *)
Definition is_space (c : ascii) : bool :=
  let n := nat_of_ascii c in
  ((Nat.leb 9 n && Nat.leb n 13) || Nat.eqb n 32)%bool.

Definition is_digit (c : ascii) : bool :=
  let n := nat_of_ascii c in (Nat.leb 48 n && Nat.leb n 57)%bool.

Definition digit_val (c : ascii) : Z := Z.of_nat (nat_of_ascii c) - 48.

Fixpoint lstrip (s : string) : string :=
  match s with
  | String c s' => if is_space c then lstrip s' else s
  | EmptyString => EmptyString
  end.

(** Nothing but white space. *)
Definition all_space (s : string) : bool :=
  match lstrip s with
  | EmptyString => true
  | String _ _ => false
  end.

(** The optional sign in front of the digits. *)
Definition split_sign (s : string) : bool * string :=
  match s with
  | String "-" d => (true, d)
  | String "+" d => (false, d)
  | d => (false, d)
  end.

(** The run of digits and underscores at the head of [s]: the number read
    so far, the count of its digits, and what follows the run.  There is
    no result when two underscores meet or when the run ends with one. *)
Fixpoint scan_digits (s : string) (after_underscore : bool) (acc : Z) (count : nat)
  : option (Z * nat * string) :=
  match s with
  | String c s' =>
      if is_digit c then scan_digits s' false (10 * acc + digit_val c) (S count)
      else if Ascii.eqb c "_" then
        if after_underscore then None else scan_digits s' true acc count
      else if after_underscore then None else Some (acc, count, s)
  | EmptyString => if after_underscore then None else Some (acc, count, s)
  end.

(** What stops the run of digits and underscores: the end of the text, or
    a character that is neither. *)
Definition ends_run (rest : string) : Prop :=
  match rest with
  | EmptyString => True
  | String c _ => is_digit c = false /\ Ascii.eqb c "_" = false
  end.

(** CPython refuses decimal strings of more than 4300 digits. *)
Definition max_str_digits : nat := 4300.

Definition decimal_of_nat (n : nat) : string := NilEmpty.string_of_uint (Nat.to_uint n).

Definition invalid_literal {U : Unicode} (s : string) : exn :=
  mkExn ValueError ("invalid literal for int() with base 10: " ++ repr200 s).

Definition too_many_digits (count : nat) : exn :=
  mkExn ValueError
    ("Exceeds the limit (4300 digits) for integer string conversion: value has "
     ++ decimal_of_nat count
     ++ " digits; use sys.set_int_max_str_digits() to increase the limit").

(** The text [int] reads: [s] itself when it is all ASCII. *)
Definition ascii_form {U : Unicode} (s : string) : string :=
  if is_ascii s then s else decimal_ascii s.

(** [int(s)] for a [str]: white space, an optional sign, the digits,
    white space; the checks come in the order CPython makes them. *)
Definition int_of_str {U : Unicode} (s : string) : result Z :=
  let '(neg, body) := split_sign (lstrip (ascii_form s)) in
  if startswith "_" body then Raise (invalid_literal s)
  else
    match scan_digits body false 0 O with
    | None => Raise (invalid_literal s)
    | Some (n, count, rest) =>
        if Nat.ltb max_str_digits count then Raise (too_many_digits count)
        else if Nat.eqb count 0 then Raise (invalid_literal s)
        else if all_space rest then Ok (if neg then - n else n)
        else Raise (invalid_literal s)
    end.

(** ** Python floats and JSON values *)

(** A Python [float] is an IEEE binary64 number, kept as a [spec_float]. *)
Definition float64 : Type := spec_float.

(** [int(x)] on a float truncates toward zero; it refuses infinities and
    NaN. *)
Definition int_of_float (f : float64) : result Z :=
  match f with
  | S754_zero _ => Ok 0
  | S754_finite s m e =>
      let a := if e <? 0 then Z.pos m / 2 ^ (- e) else Z.pos m * 2 ^ e in
      Ok (if s then - a else a)
  | S754_infinity _ =>
      Raise (mkExn OverflowError "cannot convert float infinity to integer")
  | S754_nan => Raise (mkExn ValueError "cannot convert float NaN to integer")
  end.

(** What [json.loads] builds; [JNull] is [None] and [JObj] a [dict] given by
    its items (keys distinct). *)
#[local] Unset Elimination Schemes.
Inductive json : Type :=
| JNull
| JBool (b : bool)
| JInt (z : Z)
| JFloat (f : float64)
| JStr (s : string)
| JArr (items : list json)
| JObj (items : list (string * json)).
#[local] Set Elimination Schemes.

(** [bool(v)] *)
Definition truthy (v : json) : bool :=
  match v with
  | JNull => false
  | JBool b => b
  | JInt z => negb (z =? 0)
  | JFloat (S754_zero _) => false
  | JFloat _ => true
  | JStr EmptyString => false
  | JStr _ => true
  | JArr [] => false
  | JArr _ => true
  | JObj [] => false
  | JObj _ => true
  end.

Definition type_name (v : json) : string :=
  match v with
  | JNull => "NoneType"
  | JBool _ => "bool"
  | JInt _ => "int"
  | JFloat _ => "float"
  | JStr _ => "str"
  | JArr _ => "list"
  | JObj _ => "dict"
  end.

Fixpoint assoc {A : Type} (k : string) (l : list (string * A)) : option A :=
  match l with
  | [] => None
  | (k', v) :: l' => if String.eqb k k' then Some v else assoc k l'
  end.

Definition no_attribute (v : json) (attr : string) : exn :=
  mkExn AttributeError
    ("'" ++ type_name v ++ "' object has no attribute '" ++ attr ++ "'").

(** [v.get(key, default)]: only a [dict] has the method. *)
Definition py_get (v : json) (key : string) (default : json) : result json :=
  match v with
  | JObj items =>
      Ok match assoc key items with Some x => x | None => default end
  | _ => Raise (no_attribute v "get")
  end.

(** [int(v)] *)
Definition py_int {U : Unicode} (v : json) : result Z :=
  match v with
  | JBool b => Ok (if b then 1 else 0)
  | JInt z => Ok z
  | JFloat f => int_of_float f
  | JStr s => int_of_str s
  | _ =>
      Raise (mkExn TypeError
               ("int() argument must be a string, a bytes-like object or a real number, not '"
                ++ type_name v ++ "'"))
  end.

Definition is_str (s : string) (v : json) : bool :=
  match v with
  | JStr t => String.eqb s t
  | _ => false
  end.

(** [s in v] for a string [s]: a substring of a [str], an item of a [list],
    a key of a [dict]; the other values are not iterable. *)
Definition py_in (s : string) (v : json) : result bool :=
  match v with
  | JStr t => Ok (contains s t)
  | JArr items => Ok (existsb (is_str s) items)
  | JObj items => Ok (match assoc s items with Some _ => true | None => false end)
  | _ =>
      Raise (mkExn TypeError
               ("argument of type '" ++ type_name v ++ "' is not iterable"))
  end.

(** [v.split(',', 1)] unpacked into two names, for a [v] that has [','] in
    it: only a [str] has the method. *)
Definition py_split_comma (v : json) : result (string * string) :=
  match v with
  | JStr t => Ok (split_comma t)
  | _ => Raise (no_attribute v "split")
  end.

End Py.

(** ** numpy arrays *)

Module Np.

Inductive dtype : Type :=
| uint8 | int8 | uint16 | int16 | uint32 | int32 | uint64 | int64
| float16 | float32 | float64 | bool_.

Definition dtype_eqb (a b : dtype) : bool :=
  match a, b with
  | uint8, uint8 | int8, int8 | uint16, uint16 | int16, int16
  | uint32, uint32 | int32, int32 | uint64, uint64 | int64, int64
  | float16, float16 | float32, float32 | float64, float64
  | bool_, bool_ => true
  | _, _ => false
  end.

(** One sample: an integer for the integer types, an IEEE number for the
    floating ones. *)
Inductive scalar : Type :=
| SInt (z : Z)
| SFloat (f : spec_float).

(** An array: element type, shape and the samples in row-major order. *)
Record ndarray : Type := mkArray {
  dtype_of : dtype;
  shape : list nat;
  data : list scalar
}.

Definition ndim (a : ndarray) : nat := List.length (shape a).

Definition size_of (sh : list nat) : nat := fold_right Nat.mul 1%nat sh.

(** *** binary32 and binary64 arithmetic *)

Definition prec32 : Z := 24.
Definition emax32 : Z := 128.
Definition prec64 : Z := 53.
Definition emax64 : Z := 1024.

(** Rounding of an IEEE number to the format [prec], [emax]. *)
Definition round_to (prec emax : Z) (f : spec_float) : spec_float :=
  match f with
  | S754_finite s m e => binary_normalize prec emax (cond_Zopp s (Z.pos m)) e s
  | _ => f
  end.

Definition float32_of_Z (z : Z) : spec_float := binary_normalize prec32 emax32 z 0 false.
Definition float64_of_Z (z : Z) : spec_float := binary_normalize prec64 emax64 z 0 false.

(** The value of a sample as a binary32 number. *)
Definition to_float32 (x : scalar) : spec_float :=
  match x with
  | SInt z => float32_of_Z z
  | SFloat f => round_to prec32 emax32 f
  end.

(** [a.astype(np.float32, copy=False)] *)
Definition astype_float32 (a : ndarray) : ndarray :=
  if dtype_eqb (dtype_of a) float32 then a
  else mkArray float32 (shape a) (map (fun x => SFloat (to_float32 x)) (data a)).

Definition is_nan (f : spec_float) : bool :=
  match f with S754_nan => true | _ => false end.

(** Minimum and maximum of two numbers; a NaN wins, as in [np.minimum]. *)
Definition fmin (x y : spec_float) : spec_float :=
  if is_nan x then x else if is_nan y then y
  else if SFltb y x then y else x.

Definition fmax (x y : spec_float) : spec_float :=
  if is_nan x then x else if is_nan y then y
  else if SFltb x y then y else x.

Definition float_of (x : scalar) : spec_float :=
  match x with
  | SFloat f => f
  | SInt z => float32_of_Z z
  end.

Definition empty_reduction (name : string) : Py.exn :=
  Py.mkExn Py.ValueError
    ("zero-size array to reduction operation " ++ name ++ " which has no identity").

(** [float(a.min())] and [float(a.max())] of a floating array: the
    reduction runs over all samples, and the result becomes a Python float. *)
Definition amin (a : ndarray) : Py.result Py.float64 :=
  match data a with
  | [] => Py.Raise (empty_reduction "minimum")
  | x :: l =>
      Py.Ok (round_to prec64 emax64 (fold_left fmin (map float_of l) (float_of x)))
  end.

Definition amax (a : ndarray) : Py.result Py.float64 :=
  match data a with
  | [] => Py.Raise (empty_reduction "maximum")
  | x :: l =>
      Py.Ok (round_to prec64 emax64 (fold_left fmax (map float_of l) (float_of x)))
  end.

(** Python float arithmetic. *)
Definition float_gt (x y : Py.float64) : bool := SFltb y x.

Definition float_sub (x y : Py.float64) : Py.float64 := SFsub prec64 emax64 x y.

Definition float_div (x y : Py.float64) : Py.result Py.float64 :=
  match y with
  | S754_zero _ => Py.Raise (Py.mkExn Py.ZeroDivisionError "float division by zero")
  | _ => Py.Ok (SFdiv prec64 emax64 x y)
  end.

(** [a - s] and [a * s] for a float32 array and a Python float: the scalar
    takes the array's type and the result stays float32. *)
Definition sub_scalar (a : ndarray) (s : Py.float64) : ndarray :=
  mkArray float32 (shape a)
    (map (fun x => SFloat (SFsub prec32 emax32 (float_of x) (round_to prec32 emax32 s)))
       (data a)).

Definition mul_scalar (a : ndarray) (s : Py.float64) : ndarray :=
  mkArray float32 (shape a)
    (map (fun x => SFloat (SFmul prec32 emax32 (float_of x) (round_to prec32 emax32 s)))
       (data a)).

(** [np.clip(a, 0, 255)] on one sample: a NaN stays a NaN. *)
Definition clip_0_255 (f : spec_float) : spec_float :=
  if is_nan f then f
  else if SFltb f (float32_of_Z 0) then float32_of_Z 0
  else if SFltb (float32_of_Z 255) f then float32_of_Z 255
  else f.

Definition clip (a : ndarray) : ndarray :=
  mkArray (dtype_of a) (shape a)
    (map (fun x => SFloat (clip_0_255 (float_of x))) (data a)).

(** Conversion of one float sample to [uint8]: the fraction is dropped
    (toward zero) and the integer kept modulo 256; NaN and the infinities
    give 0. *)
Definition uint8_of_float (f : spec_float) : Z :=
  match f with
  | S754_finite s m e =>
      let a := if e <? 0 then Z.pos m / 2 ^ (- e) else Z.pos m * 2 ^ e in
      (if s then - a else a) mod 256
  | _ => 0
  end.

(** [a.astype(np.uint8)] for a floating array. *)
Definition astype_uint8 (a : ndarray) : ndarray :=
  mkArray uint8 (shape a) (map (fun x => SInt (uint8_of_float (float_of x))) (data a)).

(** [np.zeros_like(a, dtype=np.uint8)] *)
Definition zeros_like_uint8 (a : ndarray) : ndarray :=
  mkArray uint8 (shape a) (repeat (SInt 0) (size_of (shape a))).

(** *** Axes *)

Definition sample (a : ndarray) (i : nat) : scalar := nth i (data a) (SInt 0).

(** [np.moveaxis(a, 0, -1)]: the first axis becomes the last one. *)
Definition moveaxis_first_last (a : ndarray) : ndarray :=
  match shape a with
  | [] => a
  | c :: rest =>
      let n := size_of rest in
      mkArray (dtype_of a) (rest ++ [c])
        (flat_map (fun j => map (fun k => sample a (k * n + j)) (seq 0 c)) (seq 0 n))
  end.

(** [a.squeeze()]: the axes of length one are dropped. *)
Definition squeeze (a : ndarray) : ndarray :=
  mkArray (dtype_of a) (filter (fun d => negb (Nat.eqb d 1)) (shape a)) (data a).

(** [a[..., 0]]: index 0 on the last axis. *)
Definition first_of_last_axis (a : ndarray) : Py.result ndarray :=
  match rev (shape a) with
  | [] =>
      Py.Raise (Py.mkExn Py.IndexError
        "too many indices for array: array is 0-dimensional, but 1 were indexed")
  | O :: rest_rev =>
      Py.Raise (Py.mkExn Py.IndexError
        ("index 0 is out of bounds for axis "
         ++ Py.decimal_of_nat (List.length rest_rev) ++ " with size 0"))
  | S c :: rest_rev =>
      let sh := rev rest_rev in
      Py.Ok (mkArray (dtype_of a) sh
               (map (fun j => sample a (j * S c)) (seq 0 (size_of sh))))
  end.

End Np.

(** ** Pillow images and the libraries the handlers call *)

Module Lib.

(** A decoded image: its colour mode, its size, and its samples. *)
Record image : Type := mkImage {
  mode : string;
  width : nat;
  height : nat;
  pixels : list Z
}.

(** The keyword arguments of [img.save(buffer, format=..., ...)]. *)
Record save_args : Type := mkSave {
  sv_format : string;
  sv_dpi : option (Z * Z);
  sv_resolution : option Z;
  sv_compression : option string;
  sv_quality : option Z
}.

(** A library call that reads the request's stream: it is given the
    position of the stream and leaves a new one. *)
Definition io (A : Type) : Type := nat -> Py.result A * nat.

(** The behaviour of the libraries, which the handlers do not control:
    Pillow, base64, tifffile, and whether tifffile and numpy are installed. *)
Class Libs : Type := {
  (** The Unicode tables of the interpreter *)
  text_tables :: Py.Unicode;
  (** [Image.open(stream)] *)
  image_open : list byte -> io image;
  (** [img.load()] *)
  image_load : image -> io unit;
  (** [getattr(img, 'n_frames', 1)] *)
  image_n_frames : image -> io Z;
  (** [img.seek(frame)] *)
  image_seek : image -> Z -> io image;
  (** [img.convert(mode)] *)
  image_convert : image -> string -> io image;
  (** [img.save(buffer, ...)], giving the bytes written to the buffer *)
  image_save : image -> save_args -> io (list byte);
  (** [Image.fromarray(arr, mode=mode)] *)
  image_fromarray : Np.ndarray -> string -> Py.result image;
  (** [base64.b64decode(text)] *)
  b64decode : string -> Py.result (list byte);
  (** [base64.b64encode(data).decode('ascii')] *)
  b64encode : list byte -> string;
  (** [import numpy], [import tifffile] *)
  import_tifffile : Py.result unit;
  (** [tiff.TiffFile(stream).asarray()], on the bytes from the stream's
      position on *)
  tiff_asarray : list byte -> Py.result Np.ndarray
}.

(** What Pillow promises about [convert]: the result has the mode asked
    for. *)
Definition convert_gives_mode (L : Libs) : Prop :=
  forall img m pos img' pos',
    image_convert img m pos = (Py.Ok img', pos') -> mode img' = m.

End Lib.

(** ** Requests and responses *)

Module Http.

(** An uploaded file: [bool(upload)] is [bool(upload.filename)]. *)
Record upload : Type := mkUpload {
  filename : string;
  stream_data : list byte
}.

Record request : Type := mkRequest {
  content_type : option string;
  (** [request.files]: the parsing of the body may raise *)
  files : Py.result (list (string * upload));
  form : list (string * string);
  args : list (string * string);
  (** the outcome of [request.get_json(force=True, silent=False)] *)
  json_body : Py.result Py.json
}.

Inductive body : Type :=
| Json (fields : list (string * Py.json))
| File (content : list byte) (mimetype : string) (download_name : string).

Record response : Type := mkResponse {
  status : Z;
  payload : body;
  headers : list (string * string)
}.

(** [jsonify(fields), status] *)
Definition jsonify (fields : list (string * Py.json)) (status : Z) : response :=
  mkResponse status (Json fields) [].

End Http.

(** ** The handlers' effects *)

Module Eff.

Import Py Np Lib Http.

(** What a handler does that can be seen from outside its return value:
    the library calls with their answers, the moves of the stream, and the
    log. *)
Inductive event : Type :=
| EvGetJson
| EvOpen (stream : list byte) (pos : nat) (r : result image)
| EvLoad (img : image) (r : result unit)
| EvConvert (img : image) (to_mode : string) (r : result image)
| EvSave (img : image) (args : save_args) (r : result (list byte))
| EvStreamSeek (offset : nat)
| EvImport (r : result unit)
| EvTiffRead (visible : list byte) (r : result ndarray)
| EvLogException (msg : string) (e : exn)
| EvLogInfo (msg : string).

(** The state a handler runs in: the position of the stream it reads the
    image from, and the events so far (oldest first). *)
Record world : Type := mkWorld {
  pos : nat;
  events : list event
}.

Definition world0 : world := mkWorld 0 [].

(** How a block of statements ends: it falls through with a value, it
    executes [return], or it raises. *)
Inductive outcome (A : Type) : Type :=
| Val (a : A)
| Return (r : response)
| Raised (e : exn).
Arguments Val {A} a.
Arguments Return {A} r.
Arguments Raised {A} e.

Definition M (A : Type) : Type := world -> outcome A * world.

Definition ret {A : Type} (a : A) : M A := fun w => (Val a, w).

Definition bind {A B : Type} (m : M A) (k : A -> M B) : M B :=
  fun w =>
    match m w with
    | (Val a, w') => k a w'
    | (Return r, w') => (Return r, w')
    | (Raised e, w') => (Raised e, w')
    end.

(** [return r] *)
Definition return_ {A : Type} (r : response) : M A := fun w => (Return r, w).

(** [raise e] *)
Definition raise {A : Type} (e : exn) : M A := fun w => (Raised e, w).

Declare Scope eff_scope.
Delimit Scope eff_scope with eff.
Notation "x <- m ;; k" := (bind m (fun x => k))
  (at level 100, m at next level, right associativity) : eff_scope.
Notation "m ;; k" := (bind m (fun _ => k))
  (at level 100, right associativity) : eff_scope.
Local Open Scope eff_scope.

(** An [except] clause: the handler for the exceptions it catches. *)
Definition clause (A : Type) : Type := exn -> option (M A).

(** [except cls as e: h e] *)
Definition except {A : Type} (cls : exn_class) (h : exn -> M A) : clause A :=
  fun e => if isinstance e cls then Some (h e) else None.

(** [except Exception as e: h e]: every class of [exn_class] is one. *)
Definition except_Exception {A : Type} (h : exn -> M A) : clause A :=
  fun e => Some (h e).

(** Two clauses of one [try], the first one first. *)
Definition orelse {A : Type} (c1 c2 : clause A) : clause A :=
  fun e => match c1 e with Some h => Some h | None => c2 e end.

(** [try: m  except ...: ...] *)
Definition try_ {A : Type} (m : M A) (c : clause A) : M A :=
  fun w =>
    match m w with
    | (Raised e, w') =>
        match c e with
        | Some h => h w'
        | None => (Raised e, w')
        end
    | r => r
    end.

Definition emit (ev : event) : M unit :=
  fun w => (Val tt, mkWorld (pos w) (events w ++ [ev])).

(** A pure computation that may raise. *)
Definition lift {A : Type} (r : result A) : M A :=
  match r with
  | Ok a => ret a
  | Raise e => raise e
  end.

(** A library call on the stream. *)
Definition call {A : Type} (c : io A) : M A :=
  fun w =>
    let '(r, p) := c (pos w) in
    (match r with Ok a => Val a | Raise e => Raised e end, mkWorld p (events w)).

(** A library call on the stream, entered in the events with its answer. *)
Definition call_logged {A : Type} (ev : result A -> event) (c : io A) : M A :=
  fun w =>
    let '(r, p) := c (pos w) in
    (match r with Ok a => Val a | Raise e => Raised e end,
     mkWorld p (events w ++ [ev r])).

Definition set_pos (p : nat) : M unit :=
  fun w => (Val tt, mkWorld p (events w)).

Definition get_pos : M nat := fun w => (Val (pos w), w).

(** [current_app.logger.exception(msg)] inside the clause that caught [e],
    and [current_app.logger.info(msg)]. *)
Definition log_exception (msg : string) (e : exn) : M unit := emit (EvLogException msg e).
Definition log_info (msg : string) : M unit := emit (EvLogInfo msg).

(** What the caller of a view function sees: the response returned, or the
    exception that left the function. *)
Definition run_view (m : M response) (w : world) : result response * world :=
  match m w with
  | (Val r, w') => (Ok r, w')
  | (Return r, w') => (Ok r, w')
  | (Raised e, w') => (Raise e, w')
  end.

End Eff.

(** ** The handlers of [app/routes.py] *)

Module Routes.

Import Py Np Lib Http Eff.
Local Open Scope eff_scope.

Section Handlers.

Context {L : Libs}.

(** *** Calls into the libraries, with the events they leave *)

Definition open_image (stream : list byte) : M image :=
  p <- get_pos ;;
  call_logged (EvOpen stream p) (image_open stream).

Definition load_image (img : image) : M unit :=
  call_logged (EvLoad img) (image_load img).

Definition convert_image (img : image) (m : string) : M image :=
  call_logged (EvConvert img m) (image_convert img m).

Definition save_image (img : image) (a : save_args) : M (list byte) :=
  call_logged (EvSave img a) (image_save img a).

(** [upload.stream.seek(offset)] *)
Definition stream_seek (offset : nat) : M unit :=
  emit (EvStreamSeek offset) ;;
  set_pos offset.

(** [with tiff.TiffFile(stream) as tf: arr = tf.asarray()]: the reader
    starts at the stream's position. *)
Definition tiff_read (stream : list byte) : M ndarray :=
  p <- get_pos ;;
  let r := tiff_asarray (skipn p stream) in
  emit (EvTiffRead (skipn p stream) r) ;;
  lift r.

(** [import numpy as np], [import tifffile as tiff] *)
Definition import_libs : M unit :=
  emit (EvImport import_tifffile) ;;
  lift import_tifffile.

(** *** Small helpers of the handlers *)

Definition allowed : list string := ["png"; "jpeg"; "tiff"; "pdf"].

Definition mem (s : string) (l : list string) : bool := existsb (String.eqb s) l.

Definition mime_map : list (string * string) :=
  [("png", "image/png"); ("jpeg", "image/jpeg"); ("tiff", "image/tiff");
   ("pdf", "application/pdf")].

(** [d[key]] *)
Definition subscript (d : list (string * string)) (key : string) : result string :=
  match assoc key d with
  | Some v => Ok v
  | None => Raise (mkExn KeyError ("'" ++ key ++ "'"))
  end.

(** [d.get(key, default)] on form fields and query arguments. *)
Definition get_or (d : list (string * string)) (key default : string) : string :=
  match assoc key d with
  | Some v => v
  | None => default
  end.

(** [request.files.get('image')] together with [if not upload]: the
    upload, unless it is missing or falsy. *)
Definition get_upload (req : request) : result (option upload) :=
  and_then (files req) (fun fs =>
    Ok match assoc "image" fs with
       | Some u => if String.eqb (filename u) "" then None else Some u
       | None => None
       end).

Definition export_failed (details : string) (status : Z) : response :=
  jsonify [("error", JStr "Export failed"); ("details", JStr details)] status.

(** [jsonify({'ok': True, 'format': fmt, 'base64': b64})] *)
Definition ok_base64 (fmt : string) (out : list byte) : response :=
  jsonify [("ok", JBool true); ("format", JStr fmt); ("base64", JStr (b64encode out))] 200.

(** [send_file(...)] with the [Cache-Control] header set after it. *)
Definition attachment (fmt mimetype : string) (out : list byte) : response :=
  mkResponse 200 (File out mimetype ("figure." ++ fmt)) [("Cache-Control", "no-transform")].

Definition clamp_dpi (dpi : Z) : Z := Z.max 50 (Z.min 2400 dpi).

Definition clamp_quality (quality : Z) : Z := Z.max 40 (Z.min 95 quality).

(** The [if fmt == 'tiff': ... elif ...] ladder around [img.save]. *)
Definition save_as (fmt : string) (img : image) (dpi quality : Z) : M (list byte) :=
  if String.eqb fmt "tiff" then
    save_image img (mkSave "TIFF" (Some (dpi, dpi)) None (Some "tiff_lzw") None)
  else if String.eqb fmt "pdf" then
    save_image img (mkSave "PDF" None (Some dpi) None None)
  else if String.eqb fmt "jpeg" then
    save_image img (mkSave "JPEG" (Some (dpi, dpi)) None None (Some quality))
  else
    save_image img (mkSave "PNG" (Some (dpi, dpi)) None None None).

(** [if img.mode == 'RGBA' and fmt in {'jpeg', 'tiff', 'pdf'}:
       img = img.convert('RGB')] *)
Definition drop_alpha (fmt : string) (img : image) : M image :=
  if (String.eqb (mode img) "RGBA" && mem fmt ["jpeg"; "tiff"; "pdf"])%bool
  then convert_image img "RGB"
  else ret img.

(** The end of both export paths: JSON with base64, or a download. *)
Definition respond (req : request) (fmt : string) (out : list byte) : M response :=
  if String.eqb (get_or (args req) "mode" "") "json"
  then return_ (ok_base64 fmt out)
  else
    mimetype <- lift (subscript mime_map fmt) ;;
    return_ (attachment fmt mimetype out).

(** *** [export_figure], the multipart pathway *)

Definition export_multipart (fmt : string) (req : request) : M response :=
  try_
    (upload <- lift (get_upload req) ;;
     match upload with
     | None => return_ (export_failed "missing_file" 400)
     | Some upload =>
         img <- try_
                  (img <- open_image (stream_data upload) ;;
                   load_image img ;;
                   ret img)
                  (orelse
                     (except UnidentifiedImageError
                        (fun _ => return_ (export_failed "unidentified_image" 400)))
                     (except_Exception
                        (fun e => return_ (export_failed ("image_open:" ++ exn_msg e) 400)))) ;;
         dpi <- try_ (lift (int_of_str (get_or (form req) "dpi" "600")))
                  (except ValueError (fun _ => ret 600)) ;;
         let dpi := clamp_dpi dpi in
         quality <- (if String.eqb fmt "jpeg" then
                       q <- try_ (lift (int_of_str (get_or (form req) "quality" "90")))
                              (except ValueError (fun _ => ret 90)) ;;
                       ret (clamp_quality q)
                     else ret 90) ;;
         img <- drop_alpha fmt img ;;
         out <- try_ (save_as fmt img dpi quality)
                  (except_Exception
                     (fun e =>
                        log_exception "Pillow save failed (multipart)" e ;;
                        return_ (export_failed ("save_failed:" ++ exn_msg e) 500))) ;;
         respond req fmt out
     end)
    (except_Exception
       (fun e =>
          log_exception "Unhandled multipart export error" e ;;
          return_ (export_failed "multipart_unhandled" 500))).

(** *** [export_figure], the legacy JSON pathway *)

Definition export_legacy (fmt : string) (req : request) : M response :=
  data <- try_
            (emit EvGetJson ;;
             v <- lift (json_body req) ;;
             ret (if truthy v then v else JObj []))
            (except_Exception
               (fun e => return_ (export_failed ("bad_json:" ++ exn_msg e) 400))) ;;
  canvas_data_url <- lift (py_get data "canvasDataUrl" JNull) ;;
  invalid <- (if negb (truthy canvas_data_url) then ret true
              else has <- lift (py_in "," canvas_data_url) ;; ret (negb has)) ;;
  if invalid : bool then return_ (export_failed "missing_or_invalid_canvasDataUrl" 400)
  else
    image_data <- try_
                    (parts <- lift (py_split_comma canvas_data_url) ;;
                     lift (b64decode (snd parts)))
                    (except_Exception
                       (fun e => return_ (export_failed ("base64_decode:" ++ exn_msg e) 400))) ;;
    set_pos 0 ;;
    img <- try_
             (img <- open_image image_data ;;
              load_image img ;;
              ret img)
             (orelse
                (except UnidentifiedImageError
                   (fun _ => return_ (export_failed "unidentified_image" 400)))
                (except_Exception
                   (fun e => return_ (export_failed ("image_open:" ++ exn_msg e) 400)))) ;;
    dpi <- try_
             (v <- lift (py_get data "dpi" (JInt 600)) ;;
              lift (py_int v))
             (orelse (except ValueError (fun _ => ret 600))
                     (except TypeError (fun _ => ret 600))) ;;
    let dpi := clamp_dpi dpi in
    img <- drop_alpha fmt img ;;
    out <- try_ (save_as fmt img dpi 95)
             (except_Exception
                (fun e =>
                   log_exception "Pillow save failed (legacy)" e ;;
                   return_ (export_failed ("save_failed:" ++ exn_msg e) 500))) ;;
    respond req fmt out.

(** *** [export_figure] *)

Definition normalize_format (format : string) : string :=
  replace "jpg" "jpeg" (lower format).

Definition export_figure (format : string) (req : request) : M response :=
  let fmt := normalize_format format in
  if negb (mem fmt allowed) then
    return_ (export_failed ("unsupported format: " ++ fmt) 400)
  else
    let content_type :=
      lower (match content_type req with Some s => s | None => "" end) in
    if startswith "multipart/form-data" content_type
    then export_multipart fmt req
    else export_legacy fmt req.

(** *** [convert_tiff_to_png] *)

Local Open Scope res_scope.

(** The local function [to_uint8]. *)
Definition to_uint8 (a : ndarray) : result ndarray :=
  if dtype_eqb (dtype_of a) uint8 then Ok a
  else
    let a := astype_float32 a in
    mn <- amin a ;;;
    mx <- amax a ;;;
    if negb (float_gt mx mn) then Ok (zeros_like_uint8 a)
    else
      factor <- float_div (float64_of_Z 255) (float_sub mx mn) ;;;
      let scaled := mul_scalar (sub_scalar a mn) factor in
      Ok (astype_uint8 (clip scaled)).

Definition shape_at (a : ndarray) (i : nat) : nat := nth i (shape a) O.

Definition three_or_four (n : nat) : bool := (Nat.eqb n 3 || Nat.eqb n 4)%bool.

Definition rgb_or_rgba (channels : nat) : string :=
  if Nat.eqb channels 3 then "RGB" else "RGBA".

(** The choice of the Pillow mode from the array's shape, with the array
    rearranged where the code does so. *)
Definition layout (arr : ndarray) : result (ndarray * string) :=
  if Nat.eqb (ndim arr) 2 then Ok (arr, "L")
  else if (Nat.eqb (ndim arr) 3 && three_or_four (shape_at arr 2))%bool then
    Ok (arr, rgb_or_rgba (shape_at arr 2))
  else if (Nat.eqb (ndim arr) 3 && three_or_four (shape_at arr 0))%bool then
    let arr := moveaxis_first_last arr in
    Ok (arr, rgb_or_rgba (shape_at arr 2))
  else
    let arr := squeeze arr in
    arr <- (if negb (Nat.eqb (ndim arr) 2) then first_of_last_axis arr else Ok arr) ;;;
    Ok (arr, "L").

Definition rgb_modes : list string := ["RGB"; "RGBA"].

(** [if img.mode not in {'RGB', 'RGBA'}: img = img.convert('RGB')] *)
Definition force_rgb (img : image) : M image :=
  if negb (mem (mode img) rgb_modes) then convert_image img "RGB" else ret img.

Definition png_args : save_args := mkSave "PNG" None None None None.

(** The first attempt: Pillow. *)
Definition decode_with_pillow (upload : upload) : M unit :=
  try_
    (img <- open_image (stream_data upload) ;;
     img <- try_
              (n <- call (image_n_frames img) ;;
               if 1 <? n then call (image_seek img 0) else ret img)
              (except_Exception (fun _ => ret img)) ;;
     img <- force_rgb img ;;
     out <- save_image img png_args ;;
     return_ (ok_base64 "png" out))
    (orelse
       (except UnidentifiedImageError (fun _ => ret tt))
       (except_Exception
          (fun e => log_info ("Pillow TIFF open failed, trying tifffile: " ++ exn_msg e)))).

(** The second attempt: tifffile, once it is imported. *)
Definition decode_with_tifffile (upload : upload) : M response :=
  try_
    (stream_seek 0 ;;
     arr <- tiff_read (stream_data upload) ;;
     arr <- lift (to_uint8 arr) ;;
     laid <- lift (layout arr) ;;
     pil_img <- lift (image_fromarray (fst laid) (snd laid)) ;;
     pil_img <- force_rgb pil_img ;;
     out <- save_image pil_img png_args ;;
     return_ (ok_base64 "png" out))
    (except_Exception
       (fun e =>
          log_exception "TIFF conversion failed (tifffile fallback)" e ;;
          return_ (jsonify [("error", JStr "tiff_decode_failed")] 500))).

Definition convert_tiff_to_png (req : request) : M response :=
  try_
    (upload <- lift (get_upload req) ;;
     match upload with
     | None => return_ (jsonify [("error", JStr "missing_file")] 400)
     | Some upload =>
         decode_with_pillow upload ;;
         try_ import_libs
           (except_Exception
              (fun e =>
                 log_exception
                   "tifffile or numpy not available for TIFF conversion fallback" e ;;
                 return_ (jsonify [("error", JStr "tiff_decode_failed");
                                      ("details", JStr "server_missing_tifffile")] 500))) ;;
         decode_with_tifffile upload
     end)
    (except_Exception
       (fun e =>
          log_exception "Unhandled convert-tiff error" e ;;
          return_ (jsonify [("error", JStr "unhandled")] 500))).

End Handlers.

End Routes.

(** ** Scripted libraries, for running the handlers on concrete requests *)

Module Demo.

Import Py Np Lib Http Eff.

(** What the libraries answer in one run. *)
Record script : Type := mkScript {
  opened : result image;
  consumed : nat;
  converted : string -> result unit;
  saved : result (list byte);
  imported : result unit;
  tiff_array : list byte -> result ndarray
}.

(** The samples of an RGBA image without the alpha ones. *)
Fixpoint rgb_of_rgba (l : list Z) : list Z :=
  match l with
  | r :: g :: b :: _ :: l' => r :: g :: b :: rgb_of_rgba l'
  | _ => []
  end.

Definition converted_pixels (img : image) (m : string) : list Z :=
  if (String.eqb (mode img) "RGBA" && String.eqb m "RGB")%bool
  then rgb_of_rgba (pixels img)
  else pixels img.

(** Tables that leave a text outside ASCII as it is, and read no number
    in it. *)
Definition plain_text : Unicode := {|
  lower_unicode := fun s => s;
  decimal_ascii := fun _ => "?";
  repr200 := fun s => "'" ++ s ++ "'"
|}.

Definition scripted (s : script) : Libs := {|
  text_tables := plain_text;
  image_open := fun stream p => (opened s, Nat.min (List.length stream) (p + consumed s));
  image_load := fun _ p => (Ok tt, p);
  image_n_frames := fun _ p => (Ok 1, p);
  image_seek := fun img _ p => (Ok img, p);
  image_convert := fun img m p =>
    (match converted s m with
     | Ok _ => Ok (mkImage m (width img) (height img) (converted_pixels img m))
     | Raise e => Raise e
     end, p);
  image_save := fun _ _ p => (saved s, p);
  image_fromarray := fun a m => Ok (mkImage m 1 1 []);
  b64decode := fun t => Ok (list_byte_of_string t);
  b64encode := string_of_list_byte;
  import_tifffile := imported s;
  tiff_asarray := tiff_array s
|}.

Definition rgba_image : image := mkImage "RGBA" 1 1 [255; 0; 0; 128].
Definition rgb_image : image := mkImage "RGB" 1 1 [255; 0; 0].

Definition encoded : list byte := [x89; x50; x4e; x47].

Definition no_array : list byte -> result ndarray :=
  fun _ => Raise (mkExn ValueError "not a TIFF file").

(** Everything works, and the upload decodes to an RGBA image. *)
Definition fine : script :=
  mkScript (Ok rgba_image) 16 (fun _ => Ok tt) (Ok encoded) (Ok tt) no_array.

(** The encoder fails with the message [msg]. *)
Definition save_fails (msg : string) : script :=
  mkScript (Ok rgb_image) 16 (fun _ => Ok tt) (Raise (mkExn OSError msg)) (Ok tt) no_array.

Definition tiff_bytes : list byte := [x49; x49; x2a; x00; x08; x00; x00; x00].

Definition not_identified : result image :=
  Raise (mkExn UnidentifiedImageError "cannot identify image file").

(** Pillow reads four bytes and gives up; tifffile and numpy are missing. *)
Definition no_tifffile : script :=
  mkScript not_identified 4 (fun _ => Ok tt) (Ok encoded)
    (Raise (mkExn ImportError "No module named 'tifffile'")) no_array.

Definition gray16 : ndarray :=
  mkArray uint16 [1; 3]%nat [SInt 0; SInt 1; SInt 256].

(** Pillow reads four bytes and gives up; tifffile reads the file if it is
    given all of it. *)
Definition exotic_tiff : script :=
  mkScript not_identified 4 (fun _ => Ok tt) (Ok encoded) (Ok tt)
    (fun visible =>
       if Nat.eqb (List.length visible) (List.length tiff_bytes) then Ok gray16
       else Raise (mkExn ValueError "not a TIFF file")).

Definition upload_of (stream : list byte) : upload := mkUpload "figure.tif" stream.

(** A multipart request with an upload and form fields. *)
Definition multipart (stream : list byte) (fields : list (string * string)) : request :=
  mkRequest (Some "multipart/form-data; boundary=x") (Ok [("image", upload_of stream)])
    fields [] (Raise (mkExn BadRequest "400 Bad Request")).

(** A JSON request with the given body. *)
Definition json_request (v : json) : request :=
  mkRequest (Some "application/json") (Ok []) [] [] (Ok v).

Definition canvas (fields : list (string * json)) : json :=
  JObj (("canvasDataUrl", JStr "data:image/png;base64,iVBORw0KGgo=") :: fields).

End Demo.

(** ** The runs of the handlers

    The events a handler can leave and the way it can end, as relations;
    the theorems below show that the handlers have these runs and no
    others. *)

Module Runs.

Import Py Np Lib Http Eff Routes.

Section Runs.

Context {L : Libs}.

(** The test in front of [img.convert('RGB')] in both export paths. *)
Definition needs_rgb (fmt : string) (img : image) : bool :=
  (String.eqb (mode img) "RGBA" && mem fmt ["jpeg"; "tiff"; "pdf"])%bool.

(** The arguments [img.save] gets for each format. *)
Definition export_args (fmt : string) (dpi quality : Z) : save_args :=
  if String.eqb fmt "tiff" then mkSave "TIFF" (Some (dpi, dpi)) None (Some "tiff_lzw") None
  else if String.eqb fmt "pdf" then mkSave "PDF" None (Some dpi) None None
  else if String.eqb fmt "jpeg" then mkSave "JPEG" (Some (dpi, dpi)) None None (Some quality)
  else mkSave "PNG" (Some (dpi, dpi)) None None None.

(** The response of a successful export. *)
Definition exported (req : request) (fmt : string) (out : list byte) : response :=
  if String.eqb (get_or (args req) "mode" "") "json" then ok_base64 fmt out
  else attachment fmt (get_or mime_map fmt "") out.

(** The image that reaches the encoder and the events of the conversion. *)
Inductive alpha_dropped (fmt : string) (img : image) : image -> list event -> Prop :=
| Alpha_converted (img' : image) (p p' : nat) :
    needs_rgb fmt img = true ->
    image_convert img "RGB" p = (Ok img', p') ->
    alpha_dropped fmt img img' [EvConvert img "RGB" (Ok img')]
| Alpha_kept :
    needs_rgb fmt img = false ->
    alpha_dropped fmt img img [].

(** The statements of an export path from the alpha test on: the events
    they add and how they end. *)
Inductive encoded (msg fmt : string) (req : request) (img : image) (dpi quality : Z)
  : list event -> outcome response -> Prop :=
| Enc_convert_raises (e : exn) :
    needs_rgb fmt img = true ->
    encoded msg fmt req img dpi quality [EvConvert img "RGB" (Raise e)] (Raised e)
| Enc_save_raises (img' : image) (conv : list event) (e : exn) :
    alpha_dropped fmt img img' conv ->
    encoded msg fmt req img dpi quality
      (conv ++ [EvSave img' (export_args fmt dpi quality) (Raise e); EvLogException msg e])
      (Return (export_failed ("save_failed:" ++ exn_msg e) 500))
| Enc_saved (img' : image) (conv : list event) (out : list byte) :
    alpha_dropped fmt img img' conv ->
    encoded msg fmt req img dpi quality
      (conv ++ [EvSave img' (export_args fmt dpi quality) (Ok out)])
      (Return (exported req fmt out)).

(** The response when the image cannot be opened or loaded. *)
Definition open_failed (e : exn) : response :=
  if isinstance e UnidentifiedImageError
  then export_failed "unidentified_image" 400
  else export_failed ("image_open:" ++ exn_msg e) 400.

(** [Image.open] and [img.load()] with their two [except] clauses. *)
Inductive decoded (stream : list byte) (p : nat) : list event -> outcome image -> Prop :=
| Dec_open_raises (e : exn) (p1 : nat) :
    image_open stream p = (Raise e, p1) ->
    decoded stream p [EvOpen stream p (Raise e)] (Return (open_failed e))
| Dec_load_raises (img : image) (e : exn) (p1 p2 : nat) :
    image_open stream p = (Ok img, p1) ->
    image_load img p1 = (Raise e, p2) ->
    decoded stream p [EvOpen stream p (Ok img); EvLoad img (Raise e)] (Return (open_failed e))
| Dec_loaded (img : image) (p1 p2 : nat) :
    image_open stream p = (Ok img, p1) ->
    image_load img p1 = (Ok tt, p2) ->
    decoded stream p [EvOpen stream p (Ok img); EvLoad img (Ok tt)] (Val img).

(** The value of [int(...)], or [default] where it raises. *)
Definition int_or (r : result Z) (default : Z) : Z :=
  match r with
  | Ok n => n
  | Raise _ => default
  end.

(** The resolution and the quality of the multipart path. *)
Definition multipart_dpi (req : request) : Z :=
  clamp_dpi (int_or (int_of_str (get_or (form req) "dpi" "600")) 600).

Definition multipart_quality (fmt : string) (req : request) : Z :=
  if String.eqb fmt "jpeg"
  then clamp_quality (int_or (int_of_str (get_or (form req) "quality" "90")) 90)
  else 90.

Definition multipart_msg : string := "Pillow save failed (multipart)".
Definition legacy_msg : string := "Pillow save failed (legacy)".

(** The runs of the multipart path: the events, and the response. *)
Inductive multipart_run (fmt : string) (req : request) : list event -> response -> Prop :=
| Mp_files_raise (e : exn) :
    get_upload req = Raise e ->
    multipart_run fmt req [EvLogException "Unhandled multipart export error" e]
      (export_failed "multipart_unhandled" 500)
| Mp_missing :
    get_upload req = Ok None ->
    multipart_run fmt req [] (export_failed "missing_file" 400)
| Mp_not_decoded (u : upload) (tr : list event) (r : response) :
    get_upload req = Ok (Some u) ->
    decoded (stream_data u) 0 tr (Return r) ->
    multipart_run fmt req tr r
| Mp_encoded (u : upload) (img : image) (dec enc : list event) (r : response) :
    get_upload req = Ok (Some u) ->
    decoded (stream_data u) 0 dec (Val img) ->
    encoded multipart_msg fmt req img (multipart_dpi req) (multipart_quality fmt req)
      enc (Return r) ->
    multipart_run fmt req (dec ++ enc) r
| Mp_unhandled (u : upload) (img : image) (dec enc : list event) (e : exn) :
    get_upload req = Ok (Some u) ->
    decoded (stream_data u) 0 dec (Val img) ->
    encoded multipart_msg fmt req img (multipart_dpi req) (multipart_quality fmt req)
      enc (Raised e) ->
    multipart_run fmt req
      (dec ++ enc ++ [EvLogException "Unhandled multipart export error" e])
      (export_failed "multipart_unhandled" 500).

(** The legacy path up to the decoded bytes of [canvasDataUrl]: it returns
    a 400, it raises, or it goes on with the JSON body and the bytes. *)
Definition legacy_input (req : request) : outcome (json * list byte) :=
  match json_body req with
  | Raise e => Return (export_failed ("bad_json:" ++ exn_msg e) 400)
  | Ok v =>
      let data := if truthy v then v else JObj [] in
      match py_get data "canvasDataUrl" JNull with
      | Raise e => Raised e
      | Ok url =>
          if negb (truthy url)
          then Return (export_failed "missing_or_invalid_canvasDataUrl" 400)
          else
            match py_in "," url with
            | Raise e => Raised e
            | Ok false => Return (export_failed "missing_or_invalid_canvasDataUrl" 400)
            | Ok true =>
                match and_then (py_split_comma url) (fun parts => b64decode (snd parts)) with
                | Raise e => Return (export_failed ("base64_decode:" ++ exn_msg e) 400)
                | Ok image_data => Val (data, image_data)
                end
            end
      end
  end.

(** The resolution of the legacy path: [int(data.get('dpi', 600))] with
    [ValueError] and [TypeError] caught, then the clamp. *)
Definition legacy_dpi (data : json) : result Z :=
  match and_then (py_get data "dpi" (JInt 600)) py_int with
  | Ok n => Ok (clamp_dpi n)
  | Raise e =>
      if (isinstance e ValueError || isinstance e TypeError)%bool
      then Ok (clamp_dpi 600)
      else Raise e
  end.

(** The runs of the legacy path: the events, and the response or the
    exception that leaves the handler. *)
Inductive legacy_run (fmt : string) (req : request) : list event -> result response -> Prop :=
| Lg_input_returns (r : response) :
    legacy_input req = Return r ->
    legacy_run fmt req [EvGetJson] (Ok r)
| Lg_input_raises (e : exn) :
    legacy_input req = Raised e ->
    legacy_run fmt req [EvGetJson] (Raise e)
| Lg_not_decoded (data : json) (image_data : list byte) (tr : list event) (r : response) :
    legacy_input req = Val (data, image_data) ->
    decoded image_data 0 tr (Return r) ->
    legacy_run fmt req (EvGetJson :: tr) (Ok r)
| Lg_dpi_raises (data : json) (image_data : list byte) (img : image) (dec : list event)
    (e : exn) :
    legacy_input req = Val (data, image_data) ->
    decoded image_data 0 dec (Val img) ->
    legacy_dpi data = Raise e ->
    legacy_run fmt req (EvGetJson :: dec) (Raise e)
| Lg_encoded (data : json) (image_data : list byte) (img : image) (dec enc : list event)
    (dpi : Z) (r : response) :
    legacy_input req = Val (data, image_data) ->
    decoded image_data 0 dec (Val img) ->
    legacy_dpi data = Ok dpi ->
    encoded legacy_msg fmt req img dpi 95 enc (Return r) ->
    legacy_run fmt req (EvGetJson :: dec ++ enc) (Ok r)
| Lg_convert_raises (data : json) (image_data : list byte) (img : image)
    (dec enc : list event) (dpi : Z) (e : exn) :
    legacy_input req = Val (data, image_data) ->
    decoded image_data 0 dec (Val img) ->
    legacy_dpi data = Ok dpi ->
    encoded legacy_msg fmt req img dpi 95 enc (Raised e) ->
    legacy_run fmt req (EvGetJson :: dec ++ enc) (Raise e).

(** The test that sends a request down the multipart path. *)
Definition is_multipart (req : request) : bool :=
  startswith "multipart/form-data"
    (lower (match content_type req with Some s => s | None => "" end)).

(** The bytes of the image a request carries: the stream of the upload on
    the multipart path; on the legacy path what base64 decodes from the
    text after the first comma of [canvasDataUrl]. *)
Definition carries (req : request) (stream : list byte) : Prop :=
  if is_multipart req
  then exists u, get_upload req = Ok (Some u) /\ stream = stream_data u
  else exists items header encoded,
         json_body req = Ok (JObj items)
         /\ assoc "canvasDataUrl" items = Some (JStr (header ++ "," ++ encoded))
         /\ contains "," header = false
         /\ b64decode encoded = Ok stream.

(** Pillow decodes the bytes to [img]: [Image.open] on the stream at its
    start and [img.load()] after it both succeed. *)
Definition decodes (stream : list byte) (img : image) : Prop :=
  exists p1 p2,
    image_open stream 0%nat = (Ok img, p1) /\ image_load img p1 = (Ok tt, p2).

(** The exception of [int] on an infinite number. *)
Definition infinite_dpi : exn :=
  mkExn OverflowError "cannot convert float infinity to integer".

(** The runs of [export_figure]. *)
Inductive export_run (format : string) (req : request) : list event -> result response -> Prop :=
| Ex_unsupported :
    mem (normalize_format format) allowed = false ->
    export_run format req []
      (Ok (export_failed ("unsupported format: " ++ normalize_format format) 400))
| Ex_multipart (tr : list event) (r : response) :
    mem (normalize_format format) allowed = true ->
    is_multipart req = true ->
    multipart_run (normalize_format format) req tr r ->
    export_run format req tr (Ok r)
| Ex_legacy (tr : list event) (r : result response) :
    mem (normalize_format format) allowed = true ->
    is_multipart req = false ->
    legacy_run (normalize_format format) req tr r ->
    export_run format req tr r.

(** The resolution, the quality and the log message of the path a request
    takes. *)
Definition path_dpi (req : request) (dpi : Z) : Prop :=
  if is_multipart req then dpi = multipart_dpi req
  else exists data image_data,
         legacy_input req = Val (data, image_data) /\ legacy_dpi data = Ok dpi.

Definition path_quality (fmt : string) (req : request) : Z :=
  if is_multipart req then multipart_quality fmt req else 95.

Definition path_msg (req : request) : string :=
  if is_multipart req then multipart_msg else legacy_msg.

(** How a run ends once [img.save] has answered [res]. *)
Definition ending (req : request) (fmt : string) (res : result (list byte))
  : list event * response :=
  match res with
  | Ok out => ([], exported req fmt out)
  | Raise e => ([EvLogException (path_msg req) e],
                export_failed ("save_failed:" ++ exn_msg e) 500)
  end.

(** The resolution an [img.save] call asks for. *)
Definition resolution_of (a : save_args) : option Z :=
  match sv_dpi a, sv_resolution a with
  | Some (x, y), None => if x =? y then Some x else None
  | None, Some d => Some d
  | _, _ => None
  end.

(** *** [convert_tiff_to_png] *)

(** The frame the first attempt works on after its inner [try]: frame 0 of
    a multi-frame image, the image itself otherwise or when Pillow raises;
    and the position the stream is left at. *)
Definition select_frame (img : image) (p : nat) : image * nat :=
  match image_n_frames img p with
  | (Ok n, p1) =>
      if 1 <? n then
        match image_seek img 0 p1 with
        | (Ok img', p2) => (img', p2)
        | (Raise _, p2) => (img, p2)
        end
      else (img, p1)
  | (Raise _, p1) => (img, p1)
  end.

(** The conversion to RGB where the mode asks for it, and the PNG save:
    the events, and the encoded bytes or the exception. *)
Inductive png_saved (img : image) : list event -> result (list byte) -> Prop :=
| Png_convert_raises (e : exn) :
    mem (mode img) rgb_modes = false ->
    png_saved img [EvConvert img "RGB" (Raise e)] (Raise e)
| Png_converted (img' : image) (res : result (list byte)) (p p' : nat) :
    mem (mode img) rgb_modes = false ->
    image_convert img "RGB" p = (Ok img', p') ->
    png_saved img [EvConvert img "RGB" (Ok img'); EvSave img' png_args res] res
| Png_direct (res : result (list byte)) :
    mem (mode img) rgb_modes = true ->
    png_saved img [EvSave img png_args res] res.

(** The first attempt, on a stream at position 0. *)
Inductive pillow_attempt (stream : list byte) : list event -> result (list byte) -> Prop :=
| Pil_open_raises (e : exn) :
    pillow_attempt stream [EvOpen stream 0 (Raise e)] (Raise e)
| Pil_opened (img : image) (p : nat) (tr : list event) (res : result (list byte)) :
    image_open stream 0%nat = (Ok img, p) ->
    png_saved (fst (select_frame img p)) tr res ->
    pillow_attempt stream (EvOpen stream 0 (Ok img) :: tr) res.

(** What is logged when the first attempt gives up with [e]. *)
Definition fallthrough_log (e : exn) : list event :=
  if isinstance e UnidentifiedImageError then []
  else [EvLogInfo ("Pillow TIFF open failed, trying tifffile: " ++ exn_msg e)].

(** The image the second attempt builds from what tifffile reads. *)
Definition array_image (visible : list byte) : result image :=
  (arr <- tiff_asarray visible ;;;
   arr <- to_uint8 arr ;;;
   laid <- layout arr ;;;
   image_fromarray (fst laid) (snd laid))%res.

(** The second attempt: the stream is rewound and read whole. *)
Inductive tifffile_attempt (stream : list byte) : list event -> result (list byte) -> Prop :=
| Tf_array_raises (e : exn) :
    array_image stream = Raise e ->
    tifffile_attempt stream
      [EvStreamSeek 0; EvTiffRead stream (tiff_asarray stream)] (Raise e)
| Tf_array (img : image) (tr : list event) (res : result (list byte)) :
    array_image stream = Ok img ->
    png_saved img tr res ->
    tifffile_attempt stream
      ([EvStreamSeek 0; EvTiffRead stream (tiff_asarray stream)] ++ tr) res.

Definition missing_tifffile_msg : string :=
  "tifffile or numpy not available for TIFF conversion fallback".

Definition tifffile_failed_msg : string := "TIFF conversion failed (tifffile fallback)".

(** The runs of [convert_tiff_to_png]. *)
Inductive tiff_run (req : request) : list event -> response -> Prop :=
| Tr_files_raise (e : exn) :
    get_upload req = Raise e ->
    tiff_run req [EvLogException "Unhandled convert-tiff error" e]
      (jsonify [("error", JStr "unhandled")] 500)
| Tr_missing :
    get_upload req = Ok None ->
    tiff_run req [] (jsonify [("error", JStr "missing_file")] 400)
| Tr_pillow (u : upload) (t1 : list event) (out : list byte) :
    get_upload req = Ok (Some u) ->
    pillow_attempt (stream_data u) t1 (Ok out) ->
    tiff_run req t1 (ok_base64 "png" out)
| Tr_no_tifffile (u : upload) (t1 : list event) (e1 e : exn) :
    get_upload req = Ok (Some u) ->
    pillow_attempt (stream_data u) t1 (Raise e1) ->
    import_tifffile = Raise e ->
    tiff_run req
      (t1 ++ fallthrough_log e1
          ++ [EvImport (Raise e); EvLogException missing_tifffile_msg e])
      (jsonify [("error", JStr "tiff_decode_failed");
                   ("details", JStr "server_missing_tifffile")] 500)
| Tr_tifffile_raises (u : upload) (t1 t2 : list event) (e1 e : exn) :
    get_upload req = Ok (Some u) ->
    pillow_attempt (stream_data u) t1 (Raise e1) ->
    import_tifffile = Ok tt ->
    tifffile_attempt (stream_data u) t2 (Raise e) ->
    tiff_run req
      (t1 ++ fallthrough_log e1 ++ [EvImport (Ok tt)] ++ t2
          ++ [EvLogException tifffile_failed_msg e])
      (jsonify [("error", JStr "tiff_decode_failed")] 500)
| Tr_tifffile (u : upload) (t1 t2 : list event) (e1 : exn) (out : list byte) :
    get_upload req = Ok (Some u) ->
    pillow_attempt (stream_data u) t1 (Raise e1) ->
    import_tifffile = Ok tt ->
    tifffile_attempt (stream_data u) t2 (Ok out) ->
    tiff_run req (t1 ++ fallthrough_log e1 ++ [EvImport (Ok tt)] ++ t2)
      (ok_base64 "png" out).

(** The events of Pillow's calls, and those of the second attempt. *)
Definition pillow_event (ev : event) : Prop :=
  match ev with
  | EvOpen _ _ _ | EvConvert _ _ _ | EvSave _ _ _ => True
  | _ => False
  end.

Definition tifffile_event (ev : event) : Prop :=
  match ev with
  | EvStreamSeek _ | EvTiffRead _ _ | EvConvert _ _ _ | EvSave _ _ _ => True
  | _ => False
  end.

End Runs.

End Runs.

(** ** The vocabulary of the specification *)

Module Spec.

Import Py Lib Http Routes Runs.

(** [x] clamped into [[lo, hi]]. *)
Definition clamp (lo hi x : Z) : Z :=
  if x <? lo then lo else if hi <? x then hi else x.

(** *** Integers as they are written *)

(** The place of a character in a row of characters, counted from [k]. *)
Fixpoint place (c : ascii) (row : list ascii) (k : Z) : option Z :=
  match row with
  | [] => None
  | x :: row' => if Ascii.eqb c x then Some k else place c row' (k + 1)
  end.

(** The value of a decimal digit: its place among the ten digits. *)
Definition digit_of (c : ascii) : option Z :=
  place c (list_ascii_of_string "0123456789") 0.

(** The number that a row of digits writes, the first digit weighing most. *)
Definition written (ds : list Z) : Z := fold_left (fun n d => 10 * n + d) ds 0.

(** The characters that may surround a number: the space, TAB, LF, VT, FF
    and CR. *)
Definition blanks : list ascii := [" "; "009"; "010"; "011"; "012"; "013"]%char.

Inductive blank : string -> Prop :=
| Blank_end : blank ""
| Blank_more (c : ascii) (s : string) : In c blanks -> blank s -> blank (String c s).

(** A numeral and its digits: decimal digits, where two neighbours may
    have one underscore between them. *)
Inductive numeral : string -> list Z -> Prop :=
| Numeral_last (c : ascii) (d : Z) :
    digit_of c = Some d -> numeral (String c "") [d]
| Numeral_next (c : ascii) (d : Z) (s : string) (ds : list Z) :
    digit_of c = Some d -> numeral s ds -> numeral (String c s) (d :: ds)
| Numeral_underscore (c : ascii) (d : Z) (s : string) (ds : list Z) :
    digit_of c = Some d -> numeral s ds -> numeral (String c (String "_" s)) (d :: ds).

(** A text that writes the integer [n]: blanks, an optional sign, a
    numeral of at most 4300 digits, blanks. *)
Inductive integer_text : string -> Z -> Prop :=
| Integer_text (lead sign body trail : string) (ds : list Z) :
    blank lead -> In sign [""; "+"; "-"] -> numeral body ds ->
    (List.length ds <= 4300)%nat -> blank trail ->
    integer_text (lead ++ sign ++ body ++ trail)
      (if String.eqb sign "-" then - written ds else written ds).

(** The integer part of a floating-point number: what is left of
    [m * 2 ^ e] when the fraction is dropped.  The infinities and NaN have
    none. *)
Definition truncated (f : spec_float) : option Z :=
  match f with
  | S754_zero _ => Some 0
  | S754_finite s m e =>
      Some (Z.quot (cond_Zopp s (Z.pos m) * 2 ^ Z.max 0 e) (2 ^ Z.max 0 (- e)))
  | S754_infinity _ | S754_nan => None
  end.

Section Parsing.

Context {U : Unicode}.

(** The integer a supplied value is parsed as: an integer is itself, a
    truth value 1 or 0, a floating-point number its integer part, and a
    text the integer it writes, read with the decimal digits and the
    white space of every script taken for their ASCII counterparts.
    Nothing else parses. *)
Inductive integer_of : json -> Z -> Prop :=
| Of_int (z : Z) : integer_of (JInt z) z
| Of_bool (b : bool) : integer_of (JBool b) (if b then 1 else 0)
| Of_float (f : spec_float) (n : Z) : truncated f = Some n -> integer_of (JFloat f) n
| Of_text (s : string) (n : Z) :
    integer_text (if is_ascii s then s else decimal_ascii s) n -> integer_of (JStr s) n.

(** The effective value of a setting: the supplied value parsed as an
    integer, [default] when nothing is supplied or when it does not parse,
    and the result clamped into [[lo, hi]]. *)
Inductive effective (default lo hi : Z) (supplied : option json) : Z -> Prop :=
| Effective_parsed (v : json) (n : Z) :
    supplied = Some v -> integer_of v n -> effective default lo hi supplied (clamp lo hi n)
| Effective_default (v : json) :
    supplied = Some v -> (forall n, ~ integer_of v n) ->
    effective default lo hi supplied (clamp lo hi default)
| Effective_absent :
    supplied = None -> effective default lo hi supplied (clamp lo hi default).

Definition effective_dpi : option json -> Z -> Prop := effective 600 50 2400.

Definition effective_quality : option json -> Z -> Prop := effective 90 40 95.

End Parsing.

Section Supplied.

Context {L : Libs}.

(** The value a request supplies under [key]: a form field on the
    multipart path, an entry of the JSON body on the legacy path. *)
Definition supplied (key : string) (req : request) : option json :=
  if is_multipart req then option_map JStr (assoc key (form req))
  else match json_body req with
       | Ok (JObj items) => assoc key items
       | _ => None
       end.

End Supplied.

(** *** The 8-bit normalization, sample by sample *)

(** A sample of [a] as the binary32 number that [astype(np.float32)] makes
    of it. *)
Definition sample32 (a : Np.ndarray) (x : Np.scalar) : spec_float :=
  if Np.dtype_eqb (Np.dtype_of a) Np.float32 then Np.float_of x else Np.to_float32 x.

(** The rescaling of one binary32 sample: the minimum goes to 0, the
    maximum to 255, and the result is kept inside [[0, 255]]. *)
Definition rescaled (mn factor : float64) (f : spec_float) : spec_float :=
  Np.clip_0_255
    (SFmul Np.prec32 Np.emax32
       (SFsub Np.prec32 Np.emax32 f (Np.round_to Np.prec32 Np.emax32 mn))
       (Np.round_to Np.prec32 Np.emax32 factor)).

(** The normalization in the specification's words, with [to_int] for the
    step from the rescaled number to the 8-bit integer: an 8-bit array is
    passed through; otherwise the minimum and the maximum are taken over
    all samples as floating-point numbers, and if the minimum is less than
    the maximum every sample is rescaled, else the result is all zero. *)
Definition normalize (to_int : spec_float -> Z) (a : Np.ndarray) : result Np.ndarray :=
  if Np.dtype_eqb (Np.dtype_of a) Np.uint8 then Ok a
  else
    match map (sample32 a) (Np.data a) with
    | [] => Raise (Np.empty_reduction "minimum")
    | x :: l =>
        let mn := Np.round_to Np.prec64 Np.emax64 (fold_left Np.fmin l x) in
        let mx := Np.round_to Np.prec64 Np.emax64 (fold_left Np.fmax l x) in
        if Np.float_gt mx mn then
          and_then (Np.float_div (Np.float64_of_Z 255) (Np.float_sub mx mn))
            (fun factor =>
               Ok (Np.mkArray Np.uint8 (Np.shape a)
                     (map (fun s => Np.SInt (to_int (rescaled mn factor (sample32 a s))))
                        (Np.data a))))
        else
          Ok (Np.mkArray Np.uint8 (Np.shape a)
                (repeat (Np.SInt 0) (Np.size_of (Np.shape a))))
    end.

(** The nearest integer of a number (ties to even), as an 8-bit value. *)
Definition nearest_uint8 (f : spec_float) : Z :=
  match f with
  | S754_finite s m e =>
      let a :=
        if e <? 0 then
          let d := 2 ^ (- e) in
          let q := Z.pos m / d in
          let r := Z.pos m mod d in
          if 2 * r <? d then q
          else if d <? 2 * r then q + 1
          else if Z.even q then q else q + 1
        else Z.pos m * 2 ^ e in
      (if s then - a else a) mod 256
  | _ => 0
  end.

(** The names the URL may give for a format. *)
Definition accepted_names : list string := ["png"; "jpeg"; "tiff"; "pdf"; "jpg"].

(** The formats without alpha support. *)
Definition lacks_alpha (fmt : string) : bool :=
  (String.eqb fmt "jpeg" || String.eqb fmt "tiff" || String.eqb fmt "pdf")%bool.

End Spec.

(** ** [submit_feedback] *)

Module Feedback.

Import Py Http Eff.
Local Open Scope eff_scope.

Section Feedback.

(** [str(rating)] inside the f-string of the log message: the text Python
    gives for a value. *)
Variable py_str : json -> string.

(** [submit_feedback], given the outcome of [request.get_json()]. *)
Definition submit_feedback (body : result json) : M response :=
  try_
    (data <- lift body ;;
     rating <- lift (py_get data "rating" JNull) ;;
     _ <- lift (py_get data "feedback" (JStr "")) ;;
     log_info ("Feedback received rating=" ++ py_str rating) ;;
     return_ (jsonify [("success", JBool true)] 200))
    (except_Exception
       (fun e =>
          return_ (jsonify [("error", JStr "Failed to submit feedback");
                            ("details", JStr (exn_msg e))] 500))).

End Feedback.

End Feedback.

(** ** Kinds of events, and requests that differ in one part *)

Module Trace.

Import Py Lib Http Eff.

(** A call of [img.save]. *)
Definition is_save (ev : event) : bool :=
  match ev with
  | EvSave _ _ _ => true
  | _ => false
  end.

(** A call of [img.save] that gave the encoded bytes. *)
Definition is_saved (ev : event) : bool :=
  match ev with
  | EvSave _ _ (Ok _) => true
  | _ => false
  end.

(** A call of [img.convert]. *)
Definition is_convert (ev : event) : bool :=
  match ev with
  | EvConvert _ _ _ => true
  | _ => false
  end.

(** A call of [img.convert] or [img.save]: work on a decoded image. *)
Definition is_processing (ev : event) : bool :=
  match ev with
  | EvConvert _ _ _ | EvSave _ _ _ => true
  | _ => false
  end.

(** What only [convert_tiff_to_png] does: the import, the rewind and the
    read of tifffile. *)
Definition is_tifffile_use (ev : event) : bool :=
  match ev with
  | EvImport _ | EvStreamSeek _ | EvTiffRead _ _ => true
  | _ => false
  end.

(** An entry of [logger.exception]. *)
Definition is_exception_log (ev : event) : bool :=
  match ev with
  | EvLogException _ _ => true
  | _ => false
  end.

(** A library call that raised [e]. *)
Definition raised_in (e : exn) (ev : event) : Prop :=
  match ev with
  | EvOpen _ _ (Raise e') | EvLoad _ (Raise e') | EvConvert _ _ (Raise e')
  | EvSave _ _ (Raise e') | EvTiffRead _ (Raise e') | EvImport (Raise e') => e' = e
  | _ => False
  end.

(** The first step of the PNG encoding of [img] in [convert_tiff_to_png]:
    the save itself for an RGB or RGBA image, the conversion to RGB for
    every other one. *)
Definition png_starts (img : image) (ev : event) : Prop :=
  match ev with
  | EvSave i a _ => i = img /\ a = Routes.png_args /\ Routes.mem (mode img) Routes.rgb_modes = true
  | EvConvert i m _ => i = img /\ m = "RGB" /\ Routes.mem (mode img) Routes.rgb_modes = false
  | _ => False
  end.

(** The request with other form fields. *)
Definition with_form (req : request) (fields : list (string * string)) : request :=
  mkRequest (content_type req) (files req) fields (args req) (json_body req).

Definition count (p : event -> bool) (evs : list event) : nat :=
  List.length (filter p evs).

(** The request with another JSON body, and with other uploads and form
    fields. *)
Definition with_json (req : request) (body : result json) : request :=
  mkRequest (content_type req) (files req) (form req) (args req) body.

Definition with_upload (req : request) (fs : result (list (string * upload)))
    (fields : list (string * string)) : request :=
  mkRequest (content_type req) fs fields (args req) (json_body req).

End Trace.

(** ** Requests and arrays of the examples *)

Module Cases.

Import Py Np Lib Http Eff.

(** An upload and nothing else. *)
Definition upload_only : request := Demo.multipart Demo.tiff_bytes [].

(** A multipart request that has no upload. *)
Definition no_upload : request :=
  mkRequest (Some "multipart/form-data; boundary=x") (Ok []) [] []
    (Raise (mkExn BadRequest "400 Bad Request")).

(** A JSON request whose body cannot be parsed. *)
Definition broken_json : request :=
  mkRequest (Some "application/json") (Ok []) [] []
    (Raise (mkExn BadRequest "400 Bad Request: Failed to decode JSON object")).

(** A JSON request with a data URL that has no comma. *)
Definition no_comma : request :=
  Demo.json_request (JObj [("canvasDataUrl", JStr "data:image/png;base64")]).

(** A JSON request whose [canvasDataUrl] is a list with a comma in it. *)
Definition url_is_list : request :=
  Demo.json_request (JObj [("canvasDataUrl", JArr [JStr ","])]).

(** Three planes of one row and two columns. *)
Definition planes : ndarray :=
  mkArray uint8 [3; 1; 2]%nat [SInt 1; SInt 2; SInt 3; SInt 4; SInt 5; SInt 6].

(** The same samples, pixel after pixel. *)
Definition pixels_of_planes : ndarray :=
  mkArray uint8 [1; 2; 3]%nat [SInt 1; SInt 3; SInt 5; SInt 2; SInt 4; SInt 6].

(** One sample on three axes. *)
Definition one_sample : ndarray := mkArray uint8 [1; 1; 1]%nat [SInt 9].

(** A row of two floating samples, the first one NaN. *)
Definition with_nan : ndarray :=
  mkArray float32 [1; 2]%nat [SFloat S754_nan; SFloat (float32_of_Z 7)].

(** A PNG of one pixel in mode RGBA, as base64 text, and a JSON request
    that carries it with the given [dpi]. *)
Definition pixel_base64 : string :=
  "iVBORw0KGgoAAAANSUhEUgAAAAEAAAABCAYAAAAfFcSJAAAADUlEQVR42mP4z8DQAAAEgQGA8wvcoAAAAABJRU5ErkJggg==".

Definition pixel_request (dpi : json) : request :=
  Demo.json_request
    (JObj [("canvasDataUrl", JStr ("data:image/png;base64" ++ "," ++ pixel_base64));
           ("dpi", dpi)]).

(** The text of a rating in the log. *)
Definition rating_text (v : json) : string :=
  match v with
  | JInt 5 => "5"
  | JNull => "None"
  | _ => "?"
  end.

End Cases.

(** ** Tactics for the runs *)

Module RunTactics.

Import Py Lib Http Eff Routes Runs.

(** The 256 characters, one by one. *)
Ltac each_char c :=
  destruct c as [[|] [|] [|] [|] [|] [|] [|] [|]].

(** The relations of a run, taken apart down to the events. *)
Ltac invert_runs :=
  repeat match goal with
    | H : export_run _ _ _ _ |- _ => inversion H; clear H; subst
    | H : multipart_run _ _ _ _ |- _ => inversion H; clear H; subst
    | H : legacy_run _ _ _ _ |- _ => inversion H; clear H; subst
    | H : tiff_run _ _ _ |- _ => inversion H; clear H; subst
    | H : decoded _ _ _ _ |- _ => inversion H; clear H; subst
    | H : encoded _ _ _ _ _ _ _ _ |- _ => inversion H; clear H; subst
    | H : alpha_dropped _ _ _ _ |- _ => inversion H; clear H; subst
    | H : pillow_attempt _ _ _ |- _ => inversion H; clear H; subst
    | H : tifffile_attempt _ _ _ |- _ => inversion H; clear H; subst
    | H : png_saved _ _ _ |- _ => inversion H; clear H; subst
    end.

(** Membership in a list of events that is known up to its elements. *)
Ltac in_cases H :=
  cbn [app] in H;
  repeat match type of H with
    | In _ (_ ++ _) => apply in_app_or in H; destruct H as [H|H]; cbn [app] in H
    | In _ (_ :: _) => destruct H as [H|H]
    | In _ [] => destruct H
    end.

(** A list of events that ends with [x], found by its length. *)
Ltac ends_with tac :=
  first [ exists []; tac
        | eexists [_]; tac
        | eexists [_; _]; tac
        | eexists [_; _; _]; tac
        | eexists [_; _; _; _]; tac
        | eexists [_; _; _; _; _]; tac
        | eexists [_; _; _; _; _; _]; tac
        | eexists [_; _; _; _; _; _; _]; tac
        | eexists [_; _; _; _; _; _; _; _]; tac
        | eexists [_; _; _; _; _; _; _; _; _]; tac ].

End RunTactics.

(** * Theorems *)

Import Py Np Lib Http Eff Routes Runs.
Local Open Scope eff_scope.

(** One step of a handler: the monad and the library calls are unfolded
    and the matches on known answers reduced. *)
Ltac run :=
  cbv beta iota zeta delta
    [bind try_ ret return_ raise emit lift call call_logged get_pos set_pos
     open_image load_image convert_image save_image stream_seek tiff_read
     import_libs log_exception log_info orelse except except_Exception
     pos events].

(** ** Running the monad *)

Lemma bind_eq {A B : Type} (m : M A) (k : A -> M B) (w w1 : world) (o : outcome A) :
  m w = (o, w1) ->
  bind m k w = match o with
               | Val a => k a w1
               | Return r => (Return r, w1)
               | Raised e => (Raised e, w1)
               end.
Proof. intros H. unfold bind. rewrite H. reflexivity. Qed.

Lemma try_eq {A : Type} (m : M A) (c : clause A) (w w1 : world) (o : outcome A) :
  m w = (o, w1) ->
  try_ m c w = match o with
               | Raised e => match c e with
                             | Some h => h w1
                             | None => (Raised e, w1)
                             end
               | _ => (o, w1)
               end.
Proof. intros H. unfold try_. rewrite H. destruct o; reflexivity. Qed.

(** ** Strings *)

Lemma replace_from_jpg_length (s : string) : forall k : nat,
  (String.length s <= String.length (replace_from "jpg" "jpeg" k s) + k)%nat.
Proof.
  induction s as [|c s IH]; intros k.
  - simpl. lia.
  - destruct k as [|k].
    + cbn [replace_from].
      destruct (startswith "jpg" (String c s)).
      * cbn [String.length Nat.sub append]. specialize (IH 2%nat). simpl in *. lia.
      * cbn [String.length]. specialize (IH 0%nat). lia.
    + cbn [replace_from String.length]. specialize (IH k). lia.
Qed.

(** ** The statements from the alpha test on *)

Section Encoding.

Context {L : Libs}.

Lemma save_as_args (fmt : string) (img : image) (dpi quality : Z) :
  save_as fmt img dpi quality = save_image img (export_args fmt dpi quality).
Proof.
  unfold save_as, export_args.
  destruct (String.eqb fmt "tiff"); [reflexivity|].
  destruct (String.eqb fmt "pdf"); [reflexivity|].
  destruct (String.eqb fmt "jpeg"); reflexivity.
Qed.

Lemma respond_allowed (req : request) (fmt : string) (out : list byte) (w : world) :
  mem fmt allowed = true ->
  respond req fmt out w = (Return (exported req fmt out), w).
Proof.
  intros Hfmt. unfold respond, exported.
  destruct (String.eqb (get_or (args req) "mode" "") "json"); [reflexivity|].
  apply existsb_exists in Hfmt. destruct Hfmt as [y [Hy He]].
  apply String.eqb_eq in He. subst y.
  cbn [In allowed] in Hy.
  repeat (destruct Hy as [Hy|Hy]; [subst fmt; reflexivity|]).
  contradiction.
Qed.

Lemma encoded_tail (msg fmt : string) (req : request) (img : image) (dpi quality : Z)
    (w : world) :
  mem fmt allowed = true ->
  exists tr o p,
    (img <- drop_alpha fmt img ;;
     out <- try_ (save_as fmt img dpi quality)
              (except_Exception
                 (fun e =>
                    log_exception msg e ;;
                    return_ (export_failed ("save_failed:" ++ exn_msg e) 500))) ;;
     respond req fmt out) w = (o, mkWorld p (events w ++ tr))
    /\ encoded msg fmt req img dpi quality tr o.
Proof.
  intros Hfmt. destruct w as [p0 evs].
  unfold drop_alpha. fold (needs_rgb fmt img).
  destruct (needs_rgb fmt img) eqn:Hrgb.
  - unfold bind at 1. unfold convert_image, call_logged. cbn [pos events].
    destruct (image_convert img "RGB" p0) as [[img'|e] p1] eqn:Hconv.
    + rewrite save_as_args. unfold bind, try_, save_image, call_logged. cbn [pos events].
      destruct (image_save img' (export_args fmt dpi quality) p1) as [[out|e] p2] eqn:Hsave.
      * rewrite respond_allowed by assumption.
        exists ([EvConvert img "RGB" (Ok img')] ++ [EvSave img' (export_args fmt dpi quality) (Ok out)])%list, (Return (exported req fmt out)), p2.
        split.
        -- cbn [events]. rewrite <- app_assoc. reflexivity.
        -- apply Enc_saved. eapply Alpha_converted; eassumption.
      * cbn.
        exists ([EvConvert img "RGB" (Ok img')] ++ [EvSave img' (export_args fmt dpi quality) (Raise e); EvLogException msg e])%list, (Return (export_failed ("save_failed:" ++ exn_msg e) 500)), p2.
        split.
        -- rewrite <- !app_assoc. reflexivity.
        -- apply Enc_save_raises. eapply Alpha_converted; eassumption.
    + exists [EvConvert img "RGB" (Raise e)], (Raised e), p1. split; [reflexivity|].
      apply Enc_convert_raises. assumption.
  - unfold bind at 1. unfold ret.
    rewrite save_as_args. unfold bind, try_, save_image, call_logged. cbn [pos events].
    destruct (image_save img (export_args fmt dpi quality) p0) as [[out|e] p2] eqn:Hsave.
    + rewrite respond_allowed by assumption.
      exists ([] ++ [EvSave img (export_args fmt dpi quality) (Ok out)])%list, (Return (exported req fmt out)), p2.
      split; [reflexivity|]. apply Enc_saved. apply Alpha_kept. assumption.
    + cbn.
      exists ([] ++ [EvSave img (export_args fmt dpi quality) (Raise e); EvLogException msg e])%list, (Return (export_failed ("save_failed:" ++ exn_msg e) 500)), p2.
      split; [rewrite <- !app_assoc; reflexivity|].
      apply Enc_save_raises. apply Alpha_kept. assumption.
Qed.

Lemma decoded_block (stream : list byte) (w : world) :
  exists tr o p,
    try_
      (img <- open_image stream ;;
       load_image img ;;
       ret img)
      (orelse
         (except UnidentifiedImageError
            (fun _ => return_ (export_failed "unidentified_image" 400)))
         (except_Exception
            (fun e => return_ (export_failed ("image_open:" ++ exn_msg e) 400)))) w
    = (o, mkWorld p (events w ++ tr))
    /\ decoded stream (pos w) tr o.
Proof.
  destruct w as [p0 evs]. run.
  destruct (image_open stream p0) as [[img|e] p1] eqn:Hopen; run.
  - destruct (image_load img p1) as [[[]|e] p2] eqn:Hload; run.
    + exists [EvOpen stream p0 (Ok img); EvLoad img (Ok tt)], (Val img), p2.
      split; [rewrite <- app_assoc; reflexivity|]. eapply Dec_loaded; eassumption.
    + exists [EvOpen stream p0 (Ok img); EvLoad img (Raise e)], (Return (open_failed e)), p2.
      split; [|eapply Dec_load_raises; eassumption].
      unfold open_failed. rewrite <- app_assoc.
      destruct (isinstance e UnidentifiedImageError); reflexivity.
  - exists [EvOpen stream p0 (Raise e)], (Return (open_failed e)), p1.
    split; [|eapply Dec_open_raises; eassumption].
    unfold open_failed.
    destruct (isinstance e UnidentifiedImageError); reflexivity.
Qed.

Lemma int_of_str_raises {U : Unicode} (s : string) (e : exn) :
  int_of_str s = Raise e -> isinstance e ValueError = true.
Proof.
  unfold int_of_str.
  destruct (split_sign (lstrip (ascii_form s))) as [neg body].
  destruct (startswith "_" body); [intros H; inversion H; reflexivity|].
  destruct (scan_digits body false 0 0) as [[[n count] rest]|].
  - destruct (Nat.ltb max_str_digits count); [intros H; inversion H; reflexivity|].
    destruct (Nat.eqb count 0); [intros H; inversion H; reflexivity|].
    destruct (all_space rest); intros H; inversion H; reflexivity.
  - intros H; inversion H; reflexivity.
Qed.

Lemma int_block (s : string) (default : Z) (w : world) :
  try_ (lift (int_of_str s)) (except ValueError (fun _ => ret default)) w
  = (Val (int_or (int_of_str s) default), w).
Proof.
  unfold try_, lift, except, int_or.
  destruct (int_of_str s) as [n|e] eqn:Hs; [reflexivity|].
  unfold raise. rewrite (int_of_str_raises s e Hs). reflexivity.
Qed.

Lemma quality_block (fmt : string) (req : request) (w : world) :
  (if String.eqb fmt "jpeg" then
     q <- try_ (lift (int_of_str (get_or (form req) "quality" "90")))
            (except ValueError (fun _ => ret 90)) ;;
     ret (clamp_quality q)
   else ret 90) w = (Val (multipart_quality fmt req), w).
Proof.
  unfold multipart_quality. destruct (String.eqb fmt "jpeg"); [|reflexivity].
  rewrite (bind_eq _ _ _ _ _ (int_block _ _ _)). reflexivity.
Qed.

Lemma export_multipart_runs (fmt : string) (req : request) (w : world) (r : result response) :
  mem fmt allowed = true ->
  run_view (export_multipart fmt req) world0 = (r, w) ->
  exists resp, r = Ok resp /\ multipart_run fmt req (events w) resp.
Proof.
  intros Hfmt. unfold run_view, export_multipart.
  destruct (get_upload req) as [[u|]|e] eqn:Hup.
  3:{ run. intros Hr; inversion Hr; subst r w.
      eexists; split; [reflexivity|]. apply Mp_files_raise. assumption. }
  - destruct (decoded_block (stream_data u) world0) as (dec & o & p & Hrun & Hdec).
    cbn [events pos world0 app] in Hrun, Hdec.
    match goal with
    | |- context [try_ ?m ?c world0] =>
        destruct (m world0) as [ob wb] eqn:Hbody; rewrite (try_eq m c _ _ _ Hbody)
    end.
    rewrite (bind_eq _ _ _ _ _ (eq_refl : lift (Ok (Some u)) _ = (Val (Some u), _))) in Hbody.
    rewrite (bind_eq _ _ _ _ _ Hrun) in Hbody.
    inversion Hdec; subst dec o.
    + inversion Hbody; subst ob wb. intros Hr; inversion Hr; subst r w.
      eexists; split; [reflexivity|]. cbn [events]. eapply Mp_not_decoded; eassumption.
    + inversion Hbody; subst ob wb. intros Hr; inversion Hr; subst r w.
      eexists; split; [reflexivity|]. cbn [events]. eapply Mp_not_decoded; eassumption.
    + rewrite (bind_eq _ _ _ _ _ (int_block _ _ _)) in Hbody.
      rewrite (bind_eq _ _ _ _ _ (quality_block _ _ _)) in Hbody.
      fold (multipart_dpi req) in Hbody.
      destruct (encoded_tail "Pillow save failed (multipart)" fmt req img
                  (multipart_dpi req) (multipart_quality fmt req)
                  (mkWorld p [EvOpen (stream_data u) 0 (Ok img); EvLoad img (Ok tt)]) Hfmt)
        as (enc & oe & pe & Hrun' & Henc).
      rewrite Hrun' in Hbody. inversion Hbody; subst ob wb. cbn [events].
      destruct oe as [resp|resp|e]; [inversion Henc| |].
      * intros Hr; inversion Hr; subst r w.
        eexists; split; [reflexivity|].
        exact (Mp_encoded fmt req u img _ enc resp Hup Hdec Henc).
      * run. intros Hr; inversion Hr; subst r w.
        eexists; split; [reflexivity|].
        exact (Mp_unhandled fmt req u img _ enc e Hup Hdec Henc).
  - run. intros Hr; inversion Hr; subst r w.
    eexists; split; [reflexivity|]. apply Mp_missing. assumption.
Qed.

Lemma legacy_dpi_block (data : json) (w : world) :
  try_
    (v <- lift (py_get data "dpi" (JInt 600)) ;;
     lift (py_int v))
    (orelse (except ValueError (fun _ => ret 600))
            (except TypeError (fun _ => ret 600))) w
  = (match and_then (py_get data "dpi" (JInt 600)) py_int with
     | Ok n => Val n
     | Raise e =>
         if (isinstance e ValueError || isinstance e TypeError)%bool
         then Val 600 else Raised e
     end, w).
Proof.
  run. unfold and_then.
  destruct (py_get data "dpi" (JInt 600)) as [v|e]; run.
  - destruct (py_int v) as [n|e]; run; [reflexivity|].
    destruct (isinstance e ValueError); [reflexivity|].
    destruct (isinstance e TypeError); reflexivity.
  - destruct (isinstance e ValueError); [reflexivity|].
    destruct (isinstance e TypeError); reflexivity.
Qed.

Lemma export_legacy_runs (fmt : string) (req : request) (w : world) (r : result response) :
  mem fmt allowed = true ->
  run_view (export_legacy fmt req) world0 = (r, w) ->
  legacy_run fmt req (events w) r.
Proof.
  intros Hfmt. unfold run_view, export_legacy.
  assert (Hdata : forall w0,
    try_
      (emit EvGetJson ;;
       v <- lift (json_body req) ;;
       ret (if truthy v then v else JObj []))
      (except_Exception
         (fun e => return_ (export_failed ("bad_json:" ++ exn_msg e) 400))) w0
    = (match json_body req with
       | Ok v => Val (if truthy v then v else JObj [])
       | Raise e => Return (export_failed ("bad_json:" ++ exn_msg e) 400)
       end, mkWorld (pos w0) (events w0 ++ [EvGetJson]))).
  { intros w0. run. destruct (json_body req); reflexivity. }
  rewrite (bind_eq _ _ _ _ _ (Hdata world0)). clear Hdata.
  cbn [pos events world0 app].
  pose proof (eq_refl (legacy_input req)) as Hin. unfold legacy_input at 2 in Hin.
  destruct (json_body req) as [v|e] eqn:Hjson.
  2:{ intros Hr; inversion Hr; subst r w. apply Lg_input_returns. assumption. }
  set (data := if truthy v then v else JObj []) in *.
  assert (Hlift : forall (A : Type) (x : result A) (w0 : world),
            lift x w0 = (match x with Ok a => Val a | Raise e => Raised e end, w0)).
  { intros A x w0. destruct x; reflexivity. }
  rewrite (bind_eq _ _ _ _ _ (Hlift _ _ _)).
  destruct (py_get data "canvasDataUrl" JNull) as [url|e] eqn:Hurl.
  2:{ intros Hr; inversion Hr; subst r w. apply Lg_input_raises. assumption. }
  destruct (truthy url) eqn:Htruthy; cbn [negb] in *.
  2:{ rewrite (bind_eq _ _ _ _ _ (eq_refl : ret true _ = (Val true, _))).
      intros Hr; inversion Hr; subst r w. apply Lg_input_returns. assumption. }
  assert (Hhas : forall w0,
    (has <- lift (py_in "," url) ;; ret (negb has)) w0
    = (match py_in "," url with
       | Ok has => Val (negb has)
       | Raise e => Raised e
       end, w0)).
  { intros w0. run. destruct (py_in "," url); reflexivity. }
  rewrite (bind_eq _ _ _ _ _ (Hhas _)). clear Hhas.
  destruct (py_in "," url) as [[|]|e] eqn:Hcomma; cbn [negb].
  2:{ intros Hr; inversion Hr; subst r w. apply Lg_input_returns. assumption. }
  2:{ intros Hr; inversion Hr; subst r w. apply Lg_input_raises. assumption. }
  unfold ret at 1.
  assert (Hb64 : forall w0,
    try_
      (parts <- lift (py_split_comma url) ;;
       lift (b64decode (snd parts)))
      (except_Exception
         (fun e => return_ (export_failed ("base64_decode:" ++ exn_msg e) 400))) w0
    = (match and_then (py_split_comma url) (fun parts => b64decode (snd parts)) with
       | Ok image_data => Val image_data
       | Raise e => Return (export_failed ("base64_decode:" ++ exn_msg e) 400)
       end, w0)).
  { intros w0. run. unfold and_then. destruct (py_split_comma url) as [parts|e]; run.
    - destruct (b64decode (snd parts)); reflexivity.
    - reflexivity. }
  rewrite (bind_eq _ _ _ _ _ (Hb64 _)). clear Hb64.
  destruct (and_then (py_split_comma url) (fun parts => b64decode (snd parts)))
    as [image_data|e] eqn:Hbytes.
  2:{ intros Hr; inversion Hr; subst r w. apply Lg_input_returns. assumption. }
  rewrite (bind_eq _ _ _ _ _ (eq_refl : set_pos 0 _ = (Val tt, _))).
  cbn [events].
  destruct (decoded_block image_data (mkWorld 0 [EvGetJson])) as (dec & o & p & Hrun & Hdec).
  cbn [events pos] in Hrun, Hdec.
  rewrite (bind_eq _ _ _ _ _ Hrun).
  destruct o as [img|resp|e]; [| |inversion Hdec].
  2:{ intros Hr; inversion Hr; subst r w.
      exact (Lg_not_decoded fmt req data image_data dec resp Hin Hdec). }
  rewrite (bind_eq _ _ _ _ _ (legacy_dpi_block _ _)).
  pose proof (eq_refl (legacy_dpi data)) as Hdpi. unfold legacy_dpi at 2 in Hdpi.
  destruct (and_then (py_get data "dpi" (JInt 600)) py_int) as [n|e] eqn:Hint.
  - destruct (encoded_tail "Pillow save failed (legacy)" fmt req img (clamp_dpi n) 95
                (mkWorld p ([EvGetJson] ++ dec)) Hfmt) as (enc & oe & pe & Hrun' & Henc).
    rewrite Hrun'. cbn [events].
    destruct oe as [resp|resp|e]; [inversion Henc| |].
    + intros Hr; inversion Hr; subst r w.
      exact (Lg_encoded fmt req data image_data img dec enc _ resp Hin Hdec Hdpi Henc).
    + intros Hr; inversion Hr; subst r w.
      exact (Lg_convert_raises fmt req data image_data img dec enc _ e Hin Hdec Hdpi Henc).
  - destruct (isinstance e ValueError || isinstance e TypeError)%bool.
    + destruct (encoded_tail "Pillow save failed (legacy)" fmt req img (clamp_dpi 600) 95
                  (mkWorld p ([EvGetJson] ++ dec)) Hfmt) as (enc & oe & pe & Hrun' & Henc).
      rewrite Hrun'. cbn [events].
      destruct oe as [resp|resp|e']; [inversion Henc| |].
      * intros Hr; inversion Hr; subst r w.
        exact (Lg_encoded fmt req data image_data img dec enc _ resp Hin Hdec Hdpi Henc).
      * intros Hr; inversion Hr; subst r w.
        exact (Lg_convert_raises fmt req data image_data img dec enc _ e' Hin Hdec Hdpi Henc).
    + intros Hr; inversion Hr; subst r w.
      exact (Lg_dpi_raises fmt req data image_data img dec e Hin Hdec Hdpi).
Qed.

Lemma export_figure_runs (format : string) (req : request) (w : world) (r : result response) :
  run_view (export_figure format req) world0 = (r, w) ->
  export_run format req (events w) r.
Proof.
  unfold export_figure. fold (is_multipart req).
  destruct (mem (normalize_format format) allowed) eqn:Hfmt; cbn [negb].
  - destruct (is_multipart req) eqn:Hmp; intros Hrun.
    + destruct (export_multipart_runs _ _ _ _ Hfmt Hrun) as (resp & -> & Hmr).
      apply Ex_multipart; assumption.
    + apply Ex_legacy; [assumption..|]. eapply export_legacy_runs; eassumption.
  - intros Hrun. inversion Hrun. apply Ex_unsupported. assumption.
Qed.

(** *** Where [img.save] sits in a run *)

Lemma alpha_dropped_no_save (fmt : string) (img img' : image) (conv : list event)
    (x : image) (a : save_args) (res : result (list byte)) :
  alpha_dropped fmt img img' conv -> ~ In (EvSave x a res) conv.
Proof.
  intros H Hin. inversion H; subst; cbn in Hin.
  - destruct Hin as [Hin|[]]. discriminate Hin.
  - exact Hin.
Qed.

Lemma encoded_saves (msg fmt : string) (req : request) (img : image) (dpi quality : Z)
    (tr : list event) (o : outcome response)
    (img' : image) (a : save_args) (res : result (list byte)) :
  encoded msg fmt req img dpi quality tr o ->
  In (EvSave img' a res) tr ->
  exists conv,
    alpha_dropped fmt img img' conv
    /\ a = export_args fmt dpi quality
    /\ match res with
       | Ok out =>
           tr = (conv ++ [EvSave img' a res])%list
           /\ o = Return (exported req fmt out)
       | Raise e =>
           tr = (conv ++ [EvSave img' a res; EvLogException msg e])%list
           /\ o = Return (export_failed ("save_failed:" ++ exn_msg e) 500)
       end.
Proof.
  intros Henc Hin. inversion Henc as [e Hrgb|img1 conv e Hconv|img1 conv out Hconv]; subst tr o.
  - destruct Hin as [Hin|[]]. discriminate Hin.
  - apply in_app_or in Hin. destruct Hin as [Hin|Hin].
    + exfalso. exact (alpha_dropped_no_save _ _ _ _ _ _ _ Hconv Hin).
    + destruct Hin as [Hin|[Hin|[]]]; [|discriminate Hin].
      inversion Hin; subst img1 a res. exists conv. repeat split; assumption.
  - apply in_app_or in Hin. destruct Hin as [Hin|Hin].
    + exfalso. exact (alpha_dropped_no_save _ _ _ _ _ _ _ Hconv Hin).
    + destruct Hin as [Hin|[]].
      inversion Hin; subst img1 a res. exists conv. repeat split; assumption.
Qed.

Lemma decoded_no_save (stream : list byte) (p : nat) (tr : list event) (o : outcome image)
    (x : image) (a : save_args) (res : result (list byte)) :
  decoded stream p tr o -> ~ In (EvSave x a res) tr.
Proof.
  intros H Hin. inversion H; subst; cbn in Hin;
    repeat (destruct Hin as [Hin|Hin]; [discriminate Hin|]); exact Hin.
Qed.

Lemma export_saves (format : string) (req : request) (tr : list event)
    (r : result response) (img' : image) (a : save_args) (res : result (list byte)) :
  export_run format req tr r ->
  In (EvSave img' a res) tr ->
  exists pre stream img conv dpi,
    tr = (pre ++ [EvOpen stream 0 (Ok img); EvLoad img (Ok tt)] ++ conv
              ++ [EvSave img' a res] ++ fst (ending req (normalize_format format) res))%list
    /\ (pre = [] \/ pre = [EvGetJson])
    /\ alpha_dropped (normalize_format format) img img' conv
    /\ a = export_args (normalize_format format) dpi
             (path_quality (normalize_format format) req)
    /\ path_dpi req dpi
    /\ r = Ok (snd (ending req (normalize_format format) res))
    /\ mem (normalize_format format) allowed = true.
Proof.
  intros Hrun Hin. set (fmt := normalize_format format) in *.
  unfold ending, path_dpi, path_quality, path_msg.
  inversion Hrun as [Hfmt|tr0 r0 Hfmt Hmp Hmr|tr0 r0 Hfmt Hmp Hlr]; subst.
  - destruct Hin.
  - rewrite Hmp.
    inversion Hmr as [e Hup|Hup|u tr1 r1 Hup Hdec|u img dec enc r1 Hup Hdec Henc
                     |u img dec enc e Hup Hdec Henc]; subst.
    + destruct Hin as [Hin|[]]. discriminate Hin.
    + destruct Hin.
    + exfalso. exact (decoded_no_save _ _ _ _ _ _ _ Hdec Hin).
    + apply in_app_or in Hin. destruct Hin as [Hin|Hin].
      { exfalso. exact (decoded_no_save _ _ _ _ _ _ _ Hdec Hin). }
      destruct (encoded_saves _ _ _ _ _ _ _ _ _ _ _ Henc Hin) as (conv & Hconv & Ha & Hres).
      inversion Hdec; subst dec.
      exists [], (stream_data u), img, conv, (multipart_dpi req).
      destruct res as [out|e]; destruct Hres as [-> Hret]; injection Hret as ->;
        cbn [fst snd app]; repeat split; auto.
    + apply in_app_or in Hin. destruct Hin as [Hin|Hin].
      { exfalso. exact (decoded_no_save _ _ _ _ _ _ _ Hdec Hin). }
      apply in_app_or in Hin. destruct Hin as [Hin|Hin].
      * destruct (encoded_saves _ _ _ _ _ _ _ _ _ _ _ Henc Hin) as (conv & _ & _ & Hres).
        destruct res; destruct Hres as [_ Hret]; discriminate Hret.
      * destruct Hin as [Hin|[]]. discriminate Hin.
  - rewrite Hmp.
    inversion Hlr as [r1 Hinp|e Hinp|data bytes tr1 r1 Hinp Hdec
                     |data bytes img dec e Hinp Hdec Hdpi
                     |data bytes img dec enc dpi r1 Hinp Hdec Hdpi Henc
                     |data bytes img dec enc dpi e Hinp Hdec Hdpi Henc]; subst.
    + destruct Hin as [Hin|[]]. discriminate Hin.
    + destruct Hin as [Hin|[]]. discriminate Hin.
    + destruct Hin as [Hin|Hin]; [discriminate Hin|].
      exfalso. exact (decoded_no_save _ _ _ _ _ _ _ Hdec Hin).
    + destruct Hin as [Hin|Hin]; [discriminate Hin|].
      exfalso. exact (decoded_no_save _ _ _ _ _ _ _ Hdec Hin).
    + destruct Hin as [Hin|Hin]; [discriminate Hin|].
      apply in_app_or in Hin. destruct Hin as [Hin|Hin].
      { exfalso. exact (decoded_no_save _ _ _ _ _ _ _ Hdec Hin). }
      destruct (encoded_saves _ _ _ _ _ _ _ _ _ _ _ Henc Hin) as (conv & Hconv & Ha & Hres).
      inversion Hdec; subst dec.
      exists [EvGetJson], bytes, img, conv, dpi.
      destruct res as [out|e]; destruct Hres as [-> Hret]; injection Hret as ->;
        cbn [fst snd app]; repeat split; eauto.
    + destruct Hin as [Hin|Hin]; [discriminate Hin|].
      apply in_app_or in Hin. destruct Hin as [Hin|Hin].
      { exfalso. exact (decoded_no_save _ _ _ _ _ _ _ Hdec Hin). }
      destruct (encoded_saves _ _ _ _ _ _ _ _ _ _ _ Henc Hin) as (conv & _ & _ & Hres).
      destruct res; destruct Hres as [_ Hret]; discriminate Hret.
Qed.

End Encoding.

(** ** What [int] reads, against the integers as they are written *)

Import RunTactics.

Lemma append_empty (s : string) : s ++ "" = s.
Proof. induction s as [|c s IH]; [reflexivity|]. cbn [append]. rewrite IH. reflexivity. Qed.

Lemma append_assoc (a b c : string) : (a ++ b) ++ c = a ++ b ++ c.
Proof. induction a as [|x a IH]; [reflexivity|]. cbn [append]. rewrite IH. reflexivity. Qed.

Lemma digit_of_spec (c : ascii) (d : Z) :
  Spec.digit_of c = Some d <-> is_digit c = true /\ d = digit_val c.
Proof.
  each_char c; cbv;
    (split; [intros H; first [discriminate H|injection H as <-; split; reflexivity]
            |intros [H ->]; first [discriminate H|reflexivity]]).
Qed.

Lemma blanks_spec (c : ascii) : In c Spec.blanks <-> is_space c = true.
Proof.
  assert (H : is_space c = existsb (Ascii.eqb c) Spec.blanks).
  { each_char c; reflexivity. }
  rewrite H, existsb_exists. split.
  - intros Hin. exists c. split; [exact Hin|apply Ascii.eqb_refl].
  - intros (x & Hin & Heq). apply Ascii.eqb_eq in Heq. subst x. exact Hin.
Qed.

Lemma digit_not_space (c : ascii) : is_digit c = true -> is_space c = false.
Proof. each_char c; cbv; intros H; first [discriminate H|reflexivity]. Qed.

Lemma digit_not_underscore (c : ascii) : is_digit c = true -> Ascii.eqb "_" c = false.
Proof. each_char c; cbv; intros H; first [discriminate H|reflexivity]. Qed.

Lemma digit_not_sign (c : ascii) (s : string) :
  is_digit c = true -> split_sign (String c s) = (false, String c s).
Proof. each_char c; cbv; intros H; first [discriminate H|reflexivity]. Qed.

Lemma space_not_digit (c : ascii) :
  is_space c = true -> is_digit c = false /\ Ascii.eqb c "_" = false.
Proof. each_char c; cbv; intros H; first [discriminate H|split; reflexivity]. Qed.

(** *** White space *)

Lemma lstrip_blank (s : string) : exists lead, s = lead ++ lstrip s /\ Spec.blank lead.
Proof.
  induction s as [|c s (lead & Hs & Hlead)].
  - exists "". split; [reflexivity|constructor].
  - cbn [lstrip]. destruct (is_space c) eqn:Hc.
    + exists (String c lead). split.
      * cbn [append]. rewrite <- Hs. reflexivity.
      * constructor; [apply blanks_spec; exact Hc|exact Hlead].
    + exists "". split; [reflexivity|constructor].
Qed.

Lemma blank_lstrip (lead s : string) : Spec.blank lead -> lstrip (lead ++ s) = lstrip s.
Proof.
  induction 1 as [|c lead Hc _ IH]; [reflexivity|].
  cbn [append lstrip]. apply blanks_spec in Hc. rewrite Hc. exact IH.
Qed.

Lemma all_space_blank (s : string) : all_space s = true <-> Spec.blank s.
Proof.
  unfold all_space. split.
  - destruct (lstrip_blank s) as (lead & Hs & Hlead).
    destruct (lstrip s); [|discriminate]. intros _.
    rewrite Hs, append_empty. exact Hlead.
  - intros H. rewrite <- (append_empty s), (blank_lstrip s "" H). reflexivity.
Qed.

(** *** Numerals *)

Lemma numeral_head (body : string) (ds : list Z) :
  Spec.numeral body ds ->
  exists c rest, body = String c rest /\ is_digit c = true /\ ds <> [].
Proof.
  intros H. inversion H as [c d Hd|c d s ds0 Hd _|c d s ds0 Hd _]; subst;
    apply digit_of_spec in Hd; destruct Hd as [Hd _];
    eexists _, _; (split; [reflexivity|]); (split; [exact Hd|discriminate]).
Qed.

Lemma scan_digits_stops (rest : string) (acc : Z) (count : nat) :
  ends_run rest -> scan_digits rest false acc count = Some (acc, count, rest).
Proof.
  destruct rest as [|c rest]; [reflexivity|].
  intros [Hd Hu]. cbn [scan_digits]. rewrite Hd, Hu. reflexivity.
Qed.

Lemma scan_digits_complete (body : string) (ds : list Z) :
  Spec.numeral body ds ->
  forall (rest : string) (after : bool) (acc : Z) (count : nat),
    ends_run rest ->
    scan_digits (body ++ rest) after acc count
    = Some (fold_left (fun n d => 10 * n + d) ds acc, (count + List.length ds)%nat, rest).
Proof.
  induction 1 as [c d Hd|c d s ds Hd _ IH|c d s ds Hd _ IH];
    intros rest after acc count Hrest;
    apply digit_of_spec in Hd; destruct Hd as [Hd ->];
    cbn [append scan_digits fold_left List.length]; rewrite Hd.
  - rewrite (scan_digits_stops _ _ _ Hrest).
    replace (count + 1)%nat with (S count) by lia. reflexivity.
  - rewrite (IH rest false _ _ Hrest).
    replace (count + S (List.length ds))%nat with (S count + List.length ds)%nat by lia.
    reflexivity.
  - change (is_digit "_") with false. cbn [Ascii.eqb Bool.eqb].
    rewrite (IH rest true _ _ Hrest).
    replace (count + S (List.length ds))%nat with (S count + List.length ds)%nat by lia.
    reflexivity.
Qed.

Lemma scan_digits_sound (s : string) :
  forall (after : bool) (acc : Z) (count : nat) (n : Z) (c : nat) (rest : string),
    scan_digits s after acc count = Some (n, c, rest) ->
    (after = false /\ s = rest /\ n = acc /\ c = count)
    \/ exists body ds,
         Spec.numeral body ds
         /\ n = fold_left (fun n d => 10 * n + d) ds acc
         /\ c = (count + List.length ds)%nat
         /\ (s = body ++ rest \/ (after = false /\ s = String "_" (body ++ rest))).
Proof.
  induction s as [|ch s IH]; intros after acc count n c rest; cbn [scan_digits].
  - destruct after; [discriminate|]. intros H. injection H as <- <- <-. left. auto.
  - destruct (is_digit ch) eqn:Hd.
    + intros H. right.
      assert (Hdigit : Spec.digit_of ch = Some (digit_val ch)).
      { apply digit_of_spec. split; [exact Hd|reflexivity]. }
      destruct (IH _ _ _ _ _ _ H) as [(_ & -> & -> & ->)|(body & ds & Hnum & -> & -> & Hs)].
      * exists (String ch ""), [digit_val ch].
        split; [constructor; exact Hdigit|].
        split; [reflexivity|]. split; [cbn; lia|]. left. reflexivity.
      * destruct Hs as [->|[_ ->]].
        -- exists (String ch body), (digit_val ch :: ds).
           split; [apply Spec.Numeral_next; assumption|].
           split; [reflexivity|]. split; [cbn; lia|]. left. reflexivity.
        -- exists (String ch (String "_" body)), (digit_val ch :: ds).
           split; [apply Spec.Numeral_underscore; assumption|].
           split; [reflexivity|]. split; [cbn; lia|]. left. reflexivity.
    + destruct (Ascii.eqb ch "_") eqn:Hu.
      * apply Ascii.eqb_eq in Hu. subst ch.
        destruct after; [discriminate|]. intros H. right.
        destruct (IH _ _ _ _ _ _ H) as [(Hafter & _)|(body & ds & Hnum & -> & -> & Hs)];
          [discriminate Hafter|].
        destruct Hs as [->|[Hafter _]]; [|discriminate Hafter].
        exists body, ds. repeat split; auto.
      * destruct after; [discriminate|]. intros H. injection H as <- <- <-. left. auto.
Qed.

(** *** Texts *)

Section Texts.

Context {U : Unicode}.

(** [int] gives [n] for a text exactly when the text writes [n]. *)
Lemma int_of_str_reads (s : string) (n : Z) :
  int_of_str s = Ok n <-> Spec.integer_text (ascii_form s) n.
Proof.
  unfold int_of_str. set (t := ascii_form s). split.
  - destruct (lstrip_blank t) as (lead & Ht & Hlead).
    destruct (split_sign (lstrip t)) as [neg body] eqn:Hsign.
    destruct (startswith "_" body) eqn:Hunder; [discriminate|].
    destruct (scan_digits body false 0 0) as [[[n0 c] rest]|] eqn:Hscan; [|discriminate].
    destruct (Nat.ltb max_str_digits c) eqn:Hmax; [discriminate|].
    destruct (Nat.eqb c 0) eqn:Hzero; [discriminate|].
    destruct (all_space rest) eqn:Hrest; [|discriminate].
    intros H. injection H as <-.
    apply Nat.ltb_ge in Hmax. apply Nat.eqb_neq in Hzero. apply all_space_blank in Hrest.
    destruct (scan_digits_sound _ _ _ _ _ _ _ Hscan)
      as [(_ & _ & _ & ->)|(digits & ds & Hnum & -> & -> & Hbody)]; [contradiction|].
    destruct Hbody as [->|[_ ->]]; [|discriminate Hunder].
    assert (Hshape : exists sign,
               lstrip t = sign ++ digits ++ rest /\ In sign [""; "+"; "-"]
               /\ neg = String.eqb sign "-").
    { unfold split_sign in Hsign.
      destruct (lstrip t) as [|ch x] eqn:Hx.
      - injection Hsign as <- <-. exists "". cbn; intuition auto.
      - destruct (Ascii.eqb ch "-") eqn:Hminus.
        + apply Ascii.eqb_eq in Hminus. subst ch. injection Hsign as <- <-.
          exists "-". cbn; intuition auto.
        + destruct (Ascii.eqb ch "+") eqn:Hplus.
          * apply Ascii.eqb_eq in Hplus. subst ch. injection Hsign as <- <-.
            exists "+". cbn; intuition auto.
          * exists "". assert (Hs : (neg, digits ++ rest) = (false, String ch x)).
            { rewrite <- Hsign. revert Hminus Hplus. clear.
              each_char ch; cbv; intros Hm Hp; first [discriminate Hm|discriminate Hp|reflexivity]. }
            injection Hs as -> ->. cbn; intuition auto. }
    destruct Hshape as (sign & Hx & Hin & ->).
    rewrite Ht, Hx. apply Spec.Integer_text; auto.
  - intros H. inversion H as [lead sign body trail ds Hlead Hsign Hnum Hlen Htrail Ht Hn].
    rewrite (blank_lstrip _ _ Hlead).
    destruct (numeral_head _ _ Hnum) as (c & body' & -> & Hc & Hds).
    assert (Hends : ends_run trail).
    { inversion Htrail as [|x trail' Hx _]; [exact I|].
      apply blanks_spec in Hx. apply space_not_digit. exact Hx. }
    assert (Hscan : forall after,
               scan_digits (String c body' ++ trail) after 0 0
               = Some (Spec.written ds, List.length ds, trail)).
    { intros after. rewrite (scan_digits_complete _ _ Hnum trail after 0 0%nat Hends).
      reflexivity. }
    assert (Hrun : startswith "_" (String c body' ++ trail) = false
                   /\ (Nat.ltb max_str_digits (List.length ds) = false)
                   /\ Nat.eqb (List.length ds) 0 = false
                   /\ all_space trail = true).
    { split; [cbn [append startswith]; rewrite (digit_not_underscore _ Hc); reflexivity|].
      split; [apply Nat.ltb_ge; exact Hlen|].
      split; [destruct ds; [contradiction|reflexivity]|].
      apply all_space_blank. exact Htrail. }
    destruct Hrun as (Hunder & Hmax & Hzero & Hspace).
    destruct Hsign as [<-|[<-|[<-|[]]]]; cbn [append String.eqb Ascii.eqb Bool.eqb].
    + cbn [lstrip]. rewrite (digit_not_space _ Hc), (digit_not_sign _ _ Hc).
      change (String c (body' ++ trail)) with (String c body' ++ trail).
      rewrite Hunder, Hscan, Hmax, Hzero, Hspace. reflexivity.
    + cbn [lstrip]. change (is_space "+") with false. cbn iota.
      change (split_sign (String "+" (String c (body' ++ trail))))
        with (false, String c body' ++ trail).
      cbv iota beta. rewrite Hunder, Hscan, Hmax, Hzero, Hspace. reflexivity.
    + cbn [lstrip]. change (is_space "-") with false. cbn iota.
      change (split_sign (String "-" (String c (body' ++ trail))))
        with (true, String c body' ++ trail).
      cbv iota beta. rewrite Hunder, Hscan, Hmax, Hzero, Hspace. reflexivity.
Qed.

(** *** Numbers *)

Lemma int_of_float_reads (f : spec_float) (n : Z) :
  int_of_float f = Ok n <-> Spec.truncated f = Some n.
Proof.
  destruct f as [s|s| |s m e]; cbn [int_of_float Spec.truncated];
    try (split; intros H; first [discriminate H|injection H as <-; reflexivity]).
  assert (Heq : (if s then - (if e <? 0 then Z.pos m / 2 ^ (- e) else Z.pos m * 2 ^ e)
                 else if e <? 0 then Z.pos m / 2 ^ (- e) else Z.pos m * 2 ^ e)
                = Z.quot (cond_Zopp s (Z.pos m) * 2 ^ Z.max 0 e) (2 ^ Z.max 0 (- e))).
  { destruct (Z.ltb_spec e 0) as [He|He].
    - rewrite (Z.max_l 0 e) by lia. rewrite (Z.max_r 0 (- e)) by lia.
      rewrite Z.pow_0_r, Z.mul_1_r.
      assert (Hpos : 0 < 2 ^ (- e)) by (apply Z.pow_pos_nonneg; lia).
      destruct s; cbn [cond_Zopp].
      + rewrite Z.quot_opp_l by lia. rewrite Z.quot_div_nonneg by lia. reflexivity.
      + rewrite Z.quot_div_nonneg by lia. reflexivity.
    - rewrite (Z.max_r 0 e) by lia. rewrite (Z.max_l 0 (- e)) by lia.
      rewrite Z.pow_0_r, Z.quot_1_r.
      destruct s; cbn [cond_Zopp]; [rewrite Z.mul_opp_l|]; reflexivity. }
  rewrite Heq. split; intros H; injection H as <-; reflexivity.
Qed.

(** [int] gives [n] for a supplied value exactly when the value parses as
    [n]. *)
Lemma py_int_reads (v : json) (n : Z) : py_int v = Ok n <-> Spec.integer_of v n.
Proof.
  split.
  - destruct v as [| b | z | f | s | l | l]; cbn [py_int]; try discriminate.
    + intros H. injection H as <-. constructor.
    + intros H. injection H as <-. constructor.
    + intros H. constructor. apply int_of_float_reads. exact H.
    + intros H. constructor. apply int_of_str_reads. exact H.
  - intros H. inversion H as [z|b|f n0 Hf|s n0 Hs]; subst; cbn [py_int].
    + reflexivity.
    + reflexivity.
    + apply int_of_float_reads. exact Hf.
    + apply int_of_str_reads. exact Hs.
Qed.

Lemma py_int_fails (v : json) (e : exn) :
  py_int v = Raise e -> forall n, ~ Spec.integer_of v n.
Proof.
  intros He n Hn. apply py_int_reads in Hn. rewrite Hn in He. discriminate He.
Qed.

(** A supplied value parses as one integer at most, and has one
    effective value. *)
Lemma integer_of_unique (v : json) (n m : Z) :
  Spec.integer_of v n -> Spec.integer_of v m -> n = m.
Proof.
  intros Hn Hm. apply py_int_reads in Hn, Hm. rewrite Hn in Hm. injection Hm as ->.
  reflexivity.
Qed.

Lemma effective_unique (default lo hi : Z) (supplied : option json) (x y : Z) :
  Spec.effective default lo hi supplied x -> Spec.effective default lo hi supplied y ->
  x = y.
Proof.
  intros Hx Hy.
  inversion Hx as [v n Hv Hn|v Hv Hn|Hv]; inversion Hy as [v' n' Hv' Hn'|v' Hv' Hn'|Hv'];
    subst; try congruence.
  - assert (v' = v) by congruence. subst v'. rewrite (integer_of_unique _ _ _ Hn Hn').
    reflexivity.
  - assert (v' = v) by congruence. subst v'. exfalso. exact (Hn' _ Hn).
  - assert (v' = v) by congruence. subst v'. exfalso. exact (Hn _ Hn').
Qed.

(** What the handlers do with a value of [int] is the effective value. *)
Lemma int_or_effective (default lo hi : Z) (v : json) :
  Spec.effective default lo hi (Some v)
    (Spec.clamp lo hi (int_or (py_int v) default)).
Proof.
  destruct (py_int v) as [n|e] eqn:Hv; cbn [int_or].
  - eapply Spec.Effective_parsed; [reflexivity|]. apply py_int_reads. exact Hv.
  - eapply Spec.Effective_default; [reflexivity|]. exact (py_int_fails _ _ Hv).
Qed.

End Texts.
(** ** The scripted libraries *)

Lemma scripted_convert_gives_mode (s : Demo.script) : convert_gives_mode (Demo.scripted s).
Proof.
  intros img m p img' p'. cbn [image_convert Demo.scripted].
  destruct (Demo.converted s m); intros H; inversion H. reflexivity.
Qed.

(** ** The formats without alpha *)

Lemma lacks_alpha_mem (fmt : string) :
  mem fmt ["jpeg"; "tiff"; "pdf"] = Spec.lacks_alpha fmt.
Proof.
  unfold mem, Spec.lacks_alpha. cbn [existsb].
  destruct (String.eqb fmt "jpeg"), (String.eqb fmt "tiff"), (String.eqb fmt "pdf");
    reflexivity.
Qed.

Import Trace RunTactics.

Section ExportClaims.

Context {L : Libs}.

(** ** The export paths *)

Lemma clamp_dpi_spec (x : Z) : clamp_dpi x = Spec.clamp 50 2400 x.
Proof.
  unfold clamp_dpi, Spec.clamp.
  destruct (Z.ltb_spec x 50); [lia|]. destruct (Z.ltb_spec 2400 x); lia.
Qed.

Lemma clamp_quality_spec (x : Z) : clamp_quality x = Spec.clamp 40 95 x.
Proof.
  unfold clamp_quality, Spec.clamp.
  destruct (Z.ltb_spec x 40); [lia|]. destruct (Z.ltb_spec 95 x); lia.
Qed.

Lemma clamp_bounds (lo hi x : Z) : lo <= hi -> lo <= Spec.clamp lo hi x <= hi.
Proof.
  intros H. unfold Spec.clamp.
  destruct (Z.ltb_spec x lo); [lia|]. destruct (Z.ltb_spec hi x); lia.
Qed.

Lemma resolution_of_export_args (fmt : string) (dpi quality : Z) :
  resolution_of (export_args fmt dpi quality) = Some dpi.
Proof.
  unfold export_args, resolution_of.
  destruct (String.eqb fmt "tiff"); [cbn; rewrite Z.eqb_refl; reflexivity|].
  destruct (String.eqb fmt "pdf"); [reflexivity|].
  destruct (String.eqb fmt "jpeg"); cbn; rewrite Z.eqb_refl; reflexivity.
Qed.

(** A request that gets through the first statements of the legacy path
    has a non-empty JSON object as its body. *)
Lemma legacy_input_object (req : request) (data : json) (image_data : list byte) :
  legacy_input req = Val (data, image_data) ->
  exists items, json_body req = Ok (JObj items) /\ data = JObj items.
Proof.
  unfold legacy_input. destruct (json_body req) as [v|e]; [|discriminate].
  set (data0 := if truthy v then v else JObj []).
  destruct (py_get data0 "canvasDataUrl" JNull) as [url|e] eqn:Hget; [|discriminate].
  destruct (negb (truthy url)) eqn:Hurl; [discriminate|].
  destruct (py_in "," url) as [[|]|]; try discriminate.
  destruct (and_then _ _); [|discriminate].
  intros H; inversion H; subst data image_data. clear H.
  assert (Hv : truthy v = true).
  { destruct (truthy v) eqn:Hv; [reflexivity|].
    unfold data0 in Hget. cbn in Hget. inversion Hget; subst url. discriminate Hurl. }
  unfold data0 in *. rewrite Hv in *.
  destruct v; try discriminate Hget. eauto.
Qed.

Lemma split_comma_spec (s : string) :
  contains "," s = true ->
  s = fst (split_comma s) ++ "," ++ snd (split_comma s)
  /\ contains "," (fst (split_comma s)) = false.
Proof.
  induction s as [|c s IH]; [discriminate|].
  cbn [contains startswith split_comma].
  rewrite Ascii.eqb_sym. destruct (Ascii.eqb_spec c ",") as [->|Hc].
  - intros _. split; reflexivity.
  - cbn [andb orb]. intros Hs. destruct (IH Hs) as [Heq Hno].
    destruct (split_comma s) as [h t]. cbn [fst snd] in *.
    split.
    + cbn [append]. f_equal. exact Heq.
    + cbn [contains startswith]. rewrite Ascii.eqb_sym.
      destruct (Ascii.eqb_spec c ","); [contradiction|]. exact Hno.
Qed.

Lemma legacy_input_url (req : request) (data : json) (image_data : list byte) :
  legacy_input req = Val (data, image_data) ->
  exists items s,
    json_body req = Ok (JObj items)
    /\ assoc "canvasDataUrl" items = Some (JStr s)
    /\ contains "," s = true
    /\ b64decode (snd (split_comma s)) = Ok image_data.
Proof.
  intros Hin. destruct (legacy_input_object _ _ _ Hin) as (items & Hbody & ->).
  unfold legacy_input in Hin. rewrite Hbody in Hin.
  destruct (truthy (JObj items)) eqn:Hitems.
  2:{ destruct items; [discriminate Hin|discriminate Hitems]. }
  cbn [py_get] in Hin.
  destruct (assoc "canvasDataUrl" items) as [url|] eqn:Hurl; [|discriminate Hin].
  destruct (truthy url); cbn [negb] in Hin; [|discriminate Hin].
  destruct url as [| | | |s|l|l]; cbn [py_in py_split_comma and_then] in Hin;
    try discriminate Hin.
  - destruct (contains "," s) eqn:Hcomma; [|discriminate Hin].
    destruct (b64decode (snd (split_comma s))) as [bytes|e] eqn:Hb; [|discriminate Hin].
    inversion Hin; subst. exists items, s. repeat split; assumption.
  - destruct (existsb _ _); discriminate Hin.
  - destruct (assoc "," l); discriminate Hin.
Qed.

Lemma legacy_input_raised (req : request) (e : exn) :
  legacy_input req = Raised e ->
  (exists v,
      json_body req = Ok v /\ truthy v = true /\ (forall items, v <> JObj items)
      /\ e = no_attribute v "get")
  \/ (exists items url,
         json_body req = Ok (JObj items)
         /\ assoc "canvasDataUrl" items = Some url
         /\ truthy url = true
         /\ py_in "," url = Raise e).
Proof.
  unfold legacy_input. destruct (json_body req) as [v|e0]; [|discriminate].
  destruct (truthy v) eqn:Hv.
  - destruct v as [| b | z | f | s | l | items]; cbn [py_get];
      try (intros H; injection H as <-; left; eexists;
           split; [reflexivity|]; split; [exact Hv|]; split; [discriminate|reflexivity]).
    destruct (assoc "canvasDataUrl" items) as [url|] eqn:Hurl; [|discriminate].
    destruct (truthy url) eqn:Hu; cbn [negb]; [|discriminate].
    destruct (py_in "," url) as [[|]|e1] eqn:Hin; try discriminate.
    + destruct (and_then _ _); discriminate.
    + intros H. injection H as <-. right. exists items, url. auto.
  - cbn. discriminate.
Qed.

Lemma legacy_dpi_raises (items : list (string * json)) (e : exn) :
  legacy_dpi (JObj items) = Raise e ->
  exists negative,
    assoc "dpi" items = Some (JFloat (S754_infinity negative))
    /\ e = mkExn OverflowError "cannot convert float infinity to integer".
Proof.
  unfold legacy_dpi. cbn [py_get and_then].
  destruct (assoc "dpi" items) as [v|]; cbn; [|discriminate].
  destruct (py_int v) as [n|e0] eqn:Hint; [discriminate|].
  destruct (isinstance e0 ValueError || isinstance e0 TypeError)%bool eqn:Hcaught;
    [discriminate|].
  intros H. injection H as <-.
  destruct v as [| b | z | f | s | l | l]; cbn in Hint; try discriminate Hint;
    try (injection Hint as <-; discriminate Hcaught).
  - destruct f as [s|s| |s m x]; cbn in Hint; try discriminate Hint;
      injection Hint as <-; try discriminate Hcaught.
    exists s. split; reflexivity.
  - apply int_of_str_raises in Hint. rewrite Hint in Hcaught. discriminate Hcaught.
Qed.

Lemma open_failed_status (e : exn) : status (open_failed e) = 400.
Proof. unfold open_failed. destruct (isinstance e UnidentifiedImageError); reflexivity. Qed.

Lemma encoded_ok_saved (msg fmt : string) (req : request) (img : image) (dpi quality : Z)
    (tr : list event) (resp : response) :
  encoded msg fmt req img dpi quality tr (Return resp) ->
  status resp = 200 ->
  exists img' a out, In (EvSave img' a (Ok out)) tr.
Proof.
  intros Henc Hst. inversion Henc as [|img1 conv e Hconv|img1 conv out Hconv]; subst.
  - discriminate Hst.
  - exists img1, (export_args fmt dpi quality), out.
    apply in_or_app. right. left. reflexivity.
Qed.

Lemma decoded_status (stream : list byte) (p : nat) (tr : list event) (resp : response) :
  decoded stream p tr (Return resp) -> status resp = 400.
Proof. intros H. inversion H; subst; apply open_failed_status. Qed.

Lemma legacy_input_status (req : request) (resp : response) :
  legacy_input req = Return resp -> status resp = 400.
Proof.
  unfold legacy_input. destruct (json_body req) as [v|e].
  2:{ intros H; inversion H. reflexivity. }
  destruct (py_get _ _ _) as [url|e]; [|discriminate].
  destruct (negb (truthy url)).
  { intros H; inversion H. reflexivity. }
  destruct (py_in _ _) as [[|]|]; try discriminate.
  - destruct (and_then _ _); [discriminate|]. intros H; inversion H. reflexivity.
  - intros H; inversion H. reflexivity.
Qed.

Lemma export_ok_saved (format : string) (req : request) (tr : list event) (resp : response) :
  export_run format req tr (Ok resp) ->
  status resp = 200 ->
  exists img a out, In (EvSave img a (Ok out)) tr.
Proof.
  intros Hrun Hst.
  inversion Hrun as [Hfmt|tr0 r0 Hfmt Hmp Hmr|tr0 r0 Hfmt Hmp Hlr]; subst.
  - discriminate Hst.
  - inversion Hmr as [e Hup|Hup|u tr1 r1 Hup Hdec|u img dec enc r1 Hup Hdec Henc
                     |u img dec enc e Hup Hdec Henc]; subst; try discriminate Hst.
    + rewrite (decoded_status _ _ _ _ Hdec) in Hst. discriminate Hst.
    + destruct (encoded_ok_saved _ _ _ _ _ _ _ _ Henc Hst) as (img' & a & out & Hin).
      exists img', a, out. apply in_or_app. right. exact Hin.
  - inversion Hlr as [r1 Hinp|e Hinp|data bytes tr1 r1 Hinp Hdec
                     |data bytes img dec e Hinp Hdec Hdpi
                     |data bytes img dec enc dpi r1 Hinp Hdec Hdpi Henc
                     |data bytes img dec enc dpi e Hinp Hdec Hdpi Henc]; subst.
    + rewrite (legacy_input_status _ _ Hinp) in Hst. discriminate Hst.
    + rewrite (decoded_status _ _ _ _ Hdec) in Hst. discriminate Hst.
    + destruct (encoded_ok_saved _ _ _ _ _ _ _ _ Henc Hst) as (img' & a & out & Hin).
      exists img', a, out. right. apply in_or_app. right. exact Hin.
Qed.

(** *** The effective resolution and quality *)

Lemma effective_bounds (default lo hi : Z) (supplied : option json) (x : Z) :
  lo <= hi -> Spec.effective default lo hi supplied x -> lo <= x <= hi.
Proof.
  intros Hle H. inversion H; subst; apply clamp_bounds; exact Hle.
Qed.

Lemma multipart_dpi_effective (req : request) :
  is_multipart req = true ->
  Spec.effective_dpi (Spec.supplied "dpi" req) (multipart_dpi req).
Proof.
  intros Hmp. unfold multipart_dpi, Spec.effective_dpi, Spec.supplied, get_or.
  rewrite Hmp, clamp_dpi_spec.
  destruct (assoc "dpi" (form req)) as [s|]; cbn [option_map].
  - exact (int_or_effective 600 50 2400 (JStr s)).
  - exact (Spec.Effective_absent 600 50 2400 None eq_refl).
Qed.

Lemma multipart_quality_effective (req : request) :
  is_multipart req = true ->
  Spec.effective_quality (Spec.supplied "quality" req) (multipart_quality "jpeg" req).
Proof.
  intros Hmp. unfold multipart_quality, Spec.effective_quality, Spec.supplied, get_or.
  rewrite Hmp, clamp_quality_spec. cbn [String.eqb Ascii.eqb Bool.eqb].
  destruct (assoc "quality" (form req)) as [s|]; cbn [option_map].
  - exact (int_or_effective 90 40 95 (JStr s)).
  - exact (Spec.Effective_absent 90 40 95 None eq_refl).
Qed.

Lemma legacy_dpi_effective (req : request) (dpi : Z) :
  is_multipart req = false ->
  path_dpi req dpi ->
  Spec.effective_dpi (Spec.supplied "dpi" req) dpi.
Proof.
  intros Hmp. unfold path_dpi. rewrite Hmp. intros (data & image_data & Hin & Hdpi).
  destruct (legacy_input_object _ _ _ Hin) as (items & Hbody & ->).
  unfold Spec.effective_dpi, Spec.supplied. rewrite Hmp, Hbody.
  unfold legacy_dpi in Hdpi. cbn [py_get and_then] in Hdpi.
  destruct (assoc "dpi" items) as [v|].
  - destruct (py_int v) as [n|e] eqn:Hv.
    + injection Hdpi as <-. rewrite clamp_dpi_spec.
      eapply Spec.Effective_parsed; [reflexivity|]. apply py_int_reads. exact Hv.
    + destruct (isinstance e ValueError || isinstance e TypeError)%bool;
        [|discriminate Hdpi].
      injection Hdpi as <-. rewrite clamp_dpi_spec.
      eapply Spec.Effective_default; [reflexivity|]. exact (py_int_fails _ _ Hv).
  - cbn in Hdpi. injection Hdpi as <-.
    exact (Spec.Effective_absent 600 50 2400 None eq_refl).
Qed.

Lemma path_dpi_effective (req : request) (dpi : Z) :
  path_dpi req dpi -> Spec.effective_dpi (Spec.supplied "dpi" req) dpi.
Proof.
  destruct (is_multipart req) eqn:Hmp.
  - unfold path_dpi. rewrite Hmp. intros ->. apply multipart_dpi_effective. assumption.
  - apply legacy_dpi_effective. assumption.
Qed.

(** *** The image a request carries *)

Lemma split_comma_first (header encoded : string) :
  contains "," header = false ->
  split_comma (header ++ "," ++ encoded) = (header, encoded)
  /\ contains "," (header ++ "," ++ encoded) = true.
Proof.
  induction header as [|c header IH].
  - intros _. split; reflexivity.
  - cbn [contains startswith append split_comma]. rewrite Ascii.eqb_sym.
    destruct (Ascii.eqb c ","); [discriminate|]. cbn [andb orb].
    intros Hno. destruct (IH Hno) as [Hsplit Hhas]. cbn [append] in Hsplit, Hhas.
    rewrite Hsplit, Hhas. split; reflexivity.
Qed.

Lemma carried_legacy_input (req : request) (stream : list byte) :
  is_multipart req = false ->
  carries req stream ->
  exists items, json_body req = Ok (JObj items) /\ legacy_input req = Val (JObj items, stream).
Proof.
  intros Hmp. unfold carries. rewrite Hmp.
  intros (items & header & encoded & Hbody & Hurl & Hno & Hb).
  exists items. split; [exact Hbody|].
  unfold legacy_input. rewrite Hbody.
  assert (Hitems : truthy (JObj items) = true).
  { destruct items; [discriminate Hurl|reflexivity]. }
  rewrite Hitems. cbn [py_get]. rewrite Hurl.
  destruct (split_comma_first header encoded Hno) as [Hsplit Hhas].
  assert (Htext : truthy (JStr (header ++ "," ++ encoded)) = true).
  { destruct header; reflexivity. }
  rewrite Htext. cbn [negb py_in py_split_comma and_then].
  rewrite Hhas, Hsplit. cbn [snd]. rewrite Hb. reflexivity.
Qed.

Lemma decoded_image (stream : list byte) (img : image) (tr : list event)
    (o : outcome image) :
  decodes stream img ->
  decoded stream 0 tr o ->
  tr = [EvOpen stream 0 (Ok img); EvLoad img (Ok tt)] /\ o = Val img.
Proof.
  intros (p1 & p2 & Hopen & Hload) Hdec.
  inversion Hdec as [e q1 Ho|img0 e q1 q2 Ho Hl|img0 q1 q2 Ho Hl]; subst;
    rewrite Hopen in Ho; try discriminate Ho;
    injection Ho as <- <-; rewrite Hload in Hl; try discriminate Hl.
  split; reflexivity.
Qed.

(** A request that carries an image Pillow decodes goes on to the
    statements from the alpha test on, unless it is a legacy request with
    an infinite [dpi]. *)
Lemma decoded_image_run
    (format : string) (req : request) (r : result response) (w : world)
    (stream : list byte) (img : image) :
  mem (normalize_format format) allowed = true ->
  carries req stream ->
  decodes stream img ->
  run_view (export_figure format req) world0 = (r, w) ->
  (is_multipart req = false
   /\ (exists items negative,
          json_body req = Ok (JObj items)
          /\ assoc "dpi" items = Some (JFloat (S754_infinity negative)))
   /\ r = Raise infinite_dpi
   /\ events w = [EvGetJson; EvOpen stream 0 (Ok img); EvLoad img (Ok tt)])
  \/ exists dpi enc o,
       path_dpi req dpi
       /\ encoded (path_msg req) (normalize_format format) req img dpi
            (path_quality (normalize_format format) req) enc o
       /\ match o with
          | Return resp =>
              r = Ok resp
              /\ events w
                 = ((if is_multipart req then [] else [EvGetJson])
                      ++ [EvOpen stream 0 (Ok img); EvLoad img (Ok tt)] ++ enc)%list
          | Raised e =>
              if is_multipart req
              then r = Ok (export_failed "multipart_unhandled" 500)
                   /\ events w
                      = ([EvOpen stream 0 (Ok img); EvLoad img (Ok tt)] ++ enc
                           ++ [EvLogException "Unhandled multipart export error" e])%list
              else r = Raise e
                   /\ events w
                      = (EvGetJson :: [EvOpen stream 0 (Ok img); EvLoad img (Ok tt)]
                           ++ enc)%list
          | Val _ => False
          end.
Proof.
  intros Hfmt Hcar Hdecodes Hrun. apply export_figure_runs in Hrun.
  destruct w as [pw evs]. cbn [events] in *.
  unfold path_dpi, path_msg, path_quality.
  inversion Hrun as [Hfmt'|tr0 r0 _ Hmp Hmr|tr0 r0 _ Hmp Hlr]; subst.
  - rewrite Hfmt in Hfmt'. discriminate Hfmt'.
  - right. rewrite Hmp. unfold carries in Hcar. rewrite Hmp in Hcar.
    destruct Hcar as (u & Hup & ->).
    inversion Hmr as [e Hup'|Hup'|u' tr1 r1 Hup' Hdec|u' img' dec enc r1 Hup' Hdec Henc
                     |u' img' dec enc e Hup' Hdec Henc]; subst;
      rewrite Hup in Hup'; try discriminate Hup'; injection Hup' as <-;
      destruct (decoded_image _ _ _ _ Hdecodes Hdec) as [Htr Ho];
      try discriminate Ho; injection Ho as <-; subst dec.
    + exists (multipart_dpi req), enc, (Return r0). repeat split; auto.
    + exists (multipart_dpi req), enc, (Raised e). repeat split; auto.
  - rewrite Hmp.
    destruct (carried_legacy_input _ _ Hmp Hcar) as (items & Hbody & Hinput).
    inversion Hlr as [r1 Hinp|e Hinp|data bytes tr1 r1 Hinp Hdec
                     |data bytes img' dec e Hinp Hdec Hdpi
                     |data bytes img' dec enc dpi r1 Hinp Hdec Hdpi Henc
                     |data bytes img' dec enc dpi e Hinp Hdec Hdpi Henc]; subst;
      rewrite Hinput in Hinp; try discriminate Hinp; injection Hinp as <- <-;
      destruct (decoded_image _ _ _ _ Hdecodes Hdec) as [Htr Ho];
      try discriminate Ho; injection Ho as <-; subst dec.
    + left. destruct (legacy_dpi_raises _ _ Hdpi) as (negative & Hinf & ->).
      split; [reflexivity|]. split; [exists items, negative; auto|].
      split; reflexivity.
    + right. exists dpi, enc, (Return r1). split; [eauto|]. split; [exact Henc|].
      split; reflexivity.
    + right. exists dpi, enc, (Raised e). split; [eauto|]. split; [exact Henc|].
      split; reflexivity.
Qed.

(** What the statements from the alpha test on leave in the events. *)
Lemma encoded_events (msg fmt : string) (req : request) (img : image) (dpi quality : Z)
    (tr : list event) (o : outcome response) :
  encoded msg fmt req img dpi quality tr o ->
  (exists e,
      needs_rgb fmt img = true
      /\ tr = [EvConvert img "RGB" (Raise e)] /\ o = Raised e)
  \/ exists img' conv res,
       alpha_dropped fmt img img' conv
       /\ tr = (conv ++ [EvSave img' (export_args fmt dpi quality) res]
                  ++ match res with
                     | Ok _ => []
                     | Raise e => [EvLogException msg e]
                     end)%list
       /\ o = Return match res with
                     | Ok out => exported req fmt out
                     | Raise e => export_failed ("save_failed:" ++ exn_msg e) 500
                     end.
Proof.
  intros H. inversion H as [e Hrgb|img' conv e Hconv|img' conv out Hconv]; subst.
  - left. exists e. auto.
  - right. exists img', conv, (Raise e). auto.
  - right. exists img', conv, (Ok out). auto.
Qed.

Lemma opened_decodes (format : string) (req : request) (tr : list event)
    (r : result response) (stream : list byte) (p : nat) (img : image) :
  export_run format req tr r ->
  In (EvOpen stream p (Ok img)) tr ->
  In (EvLoad img (Ok tt)) tr ->
  decodes stream img.
Proof.
  intros Hrun Hopen Hload. unfold decodes.
  invert_runs; in_cases Hopen; try discriminate Hopen; inversion Hopen; subst;
    in_cases Hload; try discriminate Hload; inversion Hload; subst; eauto.
Qed.

Lemma needs_rgb_spec (fmt : string) (img : image) :
  needs_rgb fmt img = (String.eqb (mode img) "RGBA" && Spec.lacks_alpha fmt)%bool.
Proof. unfold needs_rgb. rewrite lacks_alpha_mem. reflexivity. Qed.

(** What a run is like from the decoded image on: the resolution escapes,
    or the conversion raises, or [img.save] is called on the image that
    came out of the alpha test. *)
Lemma decoded_image_steps
    (format : string) (req : request) (r : result response) (w : world)
    (stream : list byte) (img : image) :
  mem (normalize_format format) allowed = true ->
  carries req stream ->
  decodes stream img ->
  run_view (export_figure format req) world0 = (r, w) ->
  (is_multipart req = false
   /\ (exists items negative,
          json_body req = Ok (JObj items)
          /\ assoc "dpi" items = Some (JFloat (S754_infinity negative)))
   /\ r = Raise infinite_dpi
   /\ events w = [EvGetJson; EvOpen stream 0 (Ok img); EvLoad img (Ok tt)])
  \/ (exists e,
         needs_rgb (normalize_format format) img = true
         /\ In (EvConvert img "RGB" (Raise e)) (events w)
         /\ count is_save (events w) = 0%nat
         /\ r = if is_multipart req
                then Ok (export_failed "multipart_unhandled" 500) else Raise e)
  \/ exists img' conv dpi res,
       alpha_dropped (normalize_format format) img img' conv
       /\ path_dpi req dpi
       /\ events w
          = ((if is_multipart req then [] else [EvGetJson])
               ++ [EvOpen stream 0 (Ok img); EvLoad img (Ok tt)] ++ conv
               ++ [EvSave img' (export_args (normalize_format format) dpi
                                  (path_quality (normalize_format format) req)) res]
               ++ match res with
                  | Ok _ => []
                  | Raise e => [EvLogException (path_msg req) e]
                  end)%list
       /\ r = Ok match res with
                 | Ok out => exported req (normalize_format format) out
                 | Raise e => export_failed ("save_failed:" ++ exn_msg e) 500
                 end.
Proof.
  intros Hfmt Hcar Hdec Hrun.
  destruct (decoded_image_run _ _ _ _ _ _ Hfmt Hcar Hdec Hrun)
    as [(Hmp & Hinf & Hr & Hev)|(dpi & enc & o & Hdpi & Henc & Ho)]; [left; auto|].
  right.
  destruct (encoded_events _ _ _ _ _ _ _ _ Henc)
    as [(e & Hrgb & -> & ->)|(img' & conv & res & Hconv & -> & ->)].
  - left. exists e. split; [exact Hrgb|].
    destruct (is_multipart req); destruct Ho as [-> ->];
      (split; [cbn; tauto|]); split; reflexivity.
  - right. destruct Ho as [-> ->]. exists img', conv, dpi, res.
    split; [exact Hconv|]. split; [exact Hdpi|]. split; reflexivity.
Qed.

(** ** Colour modes (C1) *)

(** C1. On both export paths: whenever [img.save] is called it is called
    on the image that [Image.open] and [img.load()] decoded from the
    request's bytes, after these two calls; when that image is RGBA and the
    format is jpeg, tiff or pdf, [img.convert('RGB')] runs in between and
    its result, whose mode is RGB, is what is saved; for every other mode,
    and for png, nothing runs in between and the decoded image itself is
    saved; and the answer is made of what this [img.save] gives.  A request
    that carries an image Pillow decodes does reach these calls: the
    conversion where it is due, and after it, unless it raised, the save;
    the one exception is a legacy request with an infinite [dpi], which
    raises before them.  And an answer of 200 carries the bytes that
    [img.save] gave. *)
Theorem rgba_converted_before_encoding
    (Hconvert : convert_gives_mode L)
    (format : string) (req : request) (r : result response) (w : world) :
  run_view (export_figure format req) world0 = (r, w) ->
  (forall img' a res,
      In (EvSave img' a res) (events w) ->
      exists pre stream img conv post,
        events w = (pre ++ [EvOpen stream 0 (Ok img); EvLoad img (Ok tt)] ++ conv
                        ++ [EvSave img' a res] ++ post)%list
        /\ decodes stream img
        /\ (if (String.eqb (mode img) "RGBA"
                && Spec.lacks_alpha (normalize_format format))%bool
            then conv = [EvConvert img "RGB" (Ok img')]
                 /\ (exists p p', image_convert img "RGB" p = (Ok img', p'))
                 /\ mode img' = "RGB"
            else conv = [] /\ img' = img)
        /\ r = Ok match res with
                  | Ok out => exported req (normalize_format format) out
                  | Raise e => export_failed ("save_failed:" ++ exn_msg e) 500
                  end)
  /\ (forall stream img,
        mem (normalize_format format) allowed = true ->
        carries req stream ->
        decodes stream img ->
        (is_multipart req = false /\ r = Raise infinite_dpi
         /\ count is_processing (events w) = 0%nat)
        \/ if (String.eqb (mode img) "RGBA"
               && Spec.lacks_alpha (normalize_format format))%bool
           then exists converted,
                  In (EvConvert img "RGB" converted) (events w)
                  /\ match converted with
                     | Ok img' => exists a res, In (EvSave img' a res) (events w)
                     | Raise _ => count is_save (events w) = 0%nat
                     end
           else count is_convert (events w) = 0%nat
                /\ exists a res, In (EvSave img a res) (events w))
  /\ (forall resp,
        r = Ok resp -> status resp = 200 ->
        exists img' a out,
          In (EvSave img' a (Ok out)) (events w)
          /\ resp = exported req (normalize_format format) out).
Proof.
  intros Hrun. pose proof (export_figure_runs _ _ _ _ Hrun) as Hex.
  assert (Hsaves : forall img' a res,
             In (EvSave img' a res) (events w) ->
             exists pre stream img conv post,
               events w = (pre ++ [EvOpen stream 0 (Ok img); EvLoad img (Ok tt)] ++ conv
                               ++ [EvSave img' a res] ++ post)%list
               /\ decodes stream img
               /\ (if (String.eqb (mode img) "RGBA"
                       && Spec.lacks_alpha (normalize_format format))%bool
                   then conv = [EvConvert img "RGB" (Ok img')]
                        /\ (exists p p', image_convert img "RGB" p = (Ok img', p'))
                        /\ mode img' = "RGB"
                   else conv = [] /\ img' = img)
               /\ r = Ok match res with
                         | Ok out => exported req (normalize_format format) out
                         | Raise e => export_failed ("save_failed:" ++ exn_msg e) 500
                         end).
  { intros img' a res Hin.
    destruct (export_saves _ _ _ _ _ _ _ Hex Hin)
      as (pre & stream & img & conv & dpi & Htr & _ & Hconv & _ & _ & Hr & _).
    exists pre, stream, img, conv, (fst (ending req (normalize_format format) res)).
    split; [exact Htr|]. split.
    { apply (opened_decodes _ _ _ _ _ 0%nat _ Hex); rewrite Htr;
        apply in_or_app; right; cbn; auto. }
    split.
    - rewrite <- needs_rgb_spec.
      inversion Hconv as [img1 p p' Hrgb Hcall|Hrgb]; subst; rewrite Hrgb.
      + repeat split.
        * exists p, p'. exact Hcall.
        * exact (Hconvert _ _ _ _ _ Hcall).
      + split; reflexivity.
    - rewrite Hr. destruct res; reflexivity. }
  split; [exact Hsaves|]. split.
  - intros stream img Hfmt Hcar Hdec.
    destruct (decoded_image_steps _ _ _ _ _ _ Hfmt Hcar Hdec Hrun)
      as [(Hmp & _ & Hr & Hev)|[(e & Hrgb & Hin & Hnone & _)
                           |(img' & conv & dpi & res & Hconv & _ & Hev & _)]].
    + left. rewrite Hev. auto.
    + right. rewrite <- needs_rgb_spec, Hrgb. exists (Raise e). auto.
    + right. rewrite <- needs_rgb_spec.
      inversion Hconv as [img1 p p' Hrgb Hcall|Hrgb]; subst; rewrite Hrgb.
      * exists (Ok img'). rewrite Hev. split.
        -- apply in_or_app. right. cbn. auto.
        -- eexists _, res. apply in_or_app. right. cbn. auto.
      * rewrite Hev. split.
        -- destruct (is_multipart req), res; reflexivity.
        -- eexists _, res. apply in_or_app. right. cbn. auto.
  - intros resp -> Hst.
    destruct (export_ok_saved _ _ _ _ Hex Hst) as (img' & a & out & Hin).
    exists img', a, out. split; [exact Hin|].
    destruct (Hsaves _ _ _ Hin) as (pre & stream & img & conv & post & _ & _ & _ & Hr).
    injection Hr as Hr. exact Hr.
Qed.

(** ** JPEG quality (C3) *)

(** C3. When the format is jpeg: every call of [img.save] is a JPEG save
    with one quality, on the multipart path the supplied [quality] parsed
    as an integer, 90 when it does not parse or is absent, clamped into
    [[40, 95]], on the legacy path 95 whatever the request holds; and the
    answer is made of what this [img.save] gives.  A request that carries
    an image Pillow decodes does reach [img.save], unless the conversion
    of an RGBA image raises or, on the legacy path, the [dpi] is infinite.
    An answer of 200 carries the bytes that [img.save] gave.  A [quality]
    of 10 gives 40, 999 gives 95, and a text that is not a number gives
    90. *)
Theorem jpeg_quality
    (format : string) (req : request) (r : result response) (w : world) :
  run_view (export_figure format req) world0 = (r, w) ->
  normalize_format format = "jpeg" ->
  (forall img a res,
      In (EvSave img a res) (events w) ->
      sv_format a = "JPEG"
      /\ (exists q,
             sv_quality a = Some q /\ 40 <= q <= 95
             /\ if is_multipart req
                then Spec.effective_quality (Spec.supplied "quality" req) q
                else q = 95)
      /\ r = Ok match res with
                | Ok out => exported req "jpeg" out
                | Raise e => export_failed ("save_failed:" ++ exn_msg e) 500
                end)
  /\ (forall stream img,
        carries req stream ->
        decodes stream img ->
        (is_multipart req = false /\ r = Raise infinite_dpi
         /\ count is_processing (events w) = 0%nat)
        \/ (exists e,
               mode img = "RGBA"
               /\ In (EvConvert img "RGB" (Raise e)) (events w)
               /\ count is_save (events w) = 0%nat)
        \/ exists img' a res, In (EvSave img' a res) (events w))
  /\ (forall resp,
        r = Ok resp -> status resp = 200 ->
        exists img a out,
          In (EvSave img a (Ok out)) (events w) /\ resp = exported req "jpeg" out)
  /\ Spec.effective_quality (Some (JStr "10")) 40
  /\ Spec.effective_quality (Some (JStr "999")) 95
  /\ Spec.effective_quality (Some (JStr "best")) 90
  /\ Spec.effective_quality None 90.
Proof.
  intros Hrun Hfmt. pose proof (export_figure_runs _ _ _ _ Hrun) as Hex.
  assert (Hsaves : forall img a res,
             In (EvSave img a res) (events w) ->
             sv_format a = "JPEG"
             /\ (exists q,
                    sv_quality a = Some q /\ 40 <= q <= 95
                    /\ if is_multipart req
                       then Spec.effective_quality (Spec.supplied "quality" req) q
                       else q = 95)
             /\ r = Ok match res with
                       | Ok out => exported req "jpeg" out
                       | Raise e => export_failed ("save_failed:" ++ exn_msg e) 500
                       end).
  { intros img a res Hin.
    destruct (export_saves _ _ _ _ _ _ _ Hex Hin)
      as (pre & stream & img0 & conv & dpi & _ & _ & _ & -> & _ & Hr & _).
    rewrite Hfmt in *. split; [reflexivity|]. split.
    - exists (path_quality "jpeg" req). split; [reflexivity|].
      unfold path_quality. destruct (is_multipart req) eqn:Hmp.
      + pose proof (multipart_quality_effective _ Hmp) as Heff.
        split; [|exact Heff]. eapply effective_bounds; [|exact Heff]. lia.
      + split; [lia|reflexivity].
    - rewrite Hr. destruct res; reflexivity. }
  split; [exact Hsaves|]. split; [|split].
  - intros stream img Hcar Hdec.
    assert (Hallowed : mem (normalize_format format) allowed = true).
    { rewrite Hfmt. reflexivity. }
    destruct (decoded_image_steps _ _ _ _ _ _ Hallowed Hcar Hdec Hrun)
      as [(Hmp & _ & Hr & Hev)|[(e & Hrgb & Hin & Hnone & _)
                           |(img' & conv & dpi & res & _ & _ & Hev & _)]].
    + left. rewrite Hev. auto.
    + right. left. exists e. split; [|auto].
      unfold needs_rgb in Hrgb. apply andb_prop in Hrgb.
      apply String.eqb_eq. exact (proj1 Hrgb).
    + right. right. eexists img', _, res. rewrite Hev.
      apply in_or_app. right. apply in_or_app. right. apply in_or_app. right.
      left. reflexivity.
  - intros resp -> Hst.
    destruct (export_ok_saved _ _ _ _ Hex Hst) as (img & a & out & Hin).
    exists img, a, out. split; [exact Hin|].
    destruct (Hsaves _ _ _ Hin) as (_ & _ & Hr). injection Hr as Hr. exact Hr.
  - split; [exact (int_or_effective 90 40 95 (JStr "10"))|].
    split; [exact (int_or_effective 90 40 95 (JStr "999"))|].
    split; [exact (int_or_effective 90 40 95 (JStr "best"))|].
    exact (Spec.Effective_absent 90 40 95 None eq_refl).
Qed.

(** ** Resolution (X25) *)

(** X25. On both export paths every call of [img.save] asks for one
    resolution: the supplied [dpi] parsed as an integer, 600 when it does
    not parse or is absent, clamped into [[50, 2400]].  A request that
    carries an image Pillow decodes does reach [img.save], unless the
    conversion of an RGBA image raises or, on the legacy path, the [dpi]
    is infinite.  A [dpi] of 10 gives 50, 9999 gives 2400, and a text that
    is not a number gives 600. *)
Theorem export_effective_dpi
    (format : string) (req : request) (r : result response) (w : world) :
  run_view (export_figure format req) world0 = (r, w) ->
  (forall img a res,
      In (EvSave img a res) (events w) ->
      exists d,
        resolution_of a = Some d
        /\ Spec.effective_dpi (Spec.supplied "dpi" req) d
        /\ 50 <= d <= 2400)
  /\ (forall stream img,
        mem (normalize_format format) allowed = true ->
        carries req stream ->
        decodes stream img ->
        (is_multipart req = false /\ r = Raise infinite_dpi
         /\ Spec.effective_dpi (Spec.supplied "dpi" req) 600
         /\ count is_processing (events w) = 0%nat)
        \/ (exists e,
               In (EvConvert img "RGB" (Raise e)) (events w)
               /\ count is_save (events w) = 0%nat)
        \/ exists img' a res, In (EvSave img' a res) (events w))
  /\ Spec.effective_dpi (Some (JStr "10")) 50
  /\ Spec.effective_dpi (Some (JStr "9999")) 2400
  /\ Spec.effective_dpi (Some (JStr "high")) 600
  /\ Spec.effective_dpi (Some (JInt 10)) 50
  /\ Spec.effective_dpi (Some (JInt 9999)) 2400
  /\ Spec.effective_dpi None 600.
Proof.
  intros Hrun. pose proof (export_figure_runs _ _ _ _ Hrun) as Hex.
  split; [|split].
  - intros img a res Hin.
    destruct (export_saves _ _ _ _ _ _ _ Hex Hin)
      as (pre & stream & img0 & conv & dpi & _ & _ & _ & -> & Hdpi & _).
    exists dpi. rewrite resolution_of_export_args. split; [reflexivity|].
    pose proof (path_dpi_effective _ _ Hdpi) as Heff.
    split; [exact Heff|]. eapply effective_bounds; [|exact Heff]. lia.
  - intros stream img Hfmt Hcar Hdec.
    destruct (decoded_image_steps _ _ _ _ _ _ Hfmt Hcar Hdec Hrun)
      as [(Hmp & (items & negative & Hbody & Hinf) & Hr & Hev)
         |[(e & _ & Hin & Hnone & _)|(img' & conv & dpi & res & _ & _ & Hev & _)]].
    + left. split; [exact Hmp|]. split; [exact Hr|]. split; [|rewrite Hev; reflexivity].
      unfold Spec.supplied. rewrite Hmp, Hbody, Hinf.
      eapply (Spec.Effective_default 600 50 2400); [reflexivity|].
      intros n Hn. inversion Hn as [| |f n0 Hf|]; subst. discriminate Hf.
    + right. left. exists e. auto.
    + right. right. eexists img', _, res. rewrite Hev.
      apply in_or_app. right. apply in_or_app. right. apply in_or_app. right.
      left. reflexivity.
  - split; [exact (int_or_effective 600 50 2400 (JStr "10"))|].
    split; [exact (int_or_effective 600 50 2400 (JStr "9999"))|].
    split; [exact (int_or_effective 600 50 2400 (JStr "high"))|].
    split; [exact (int_or_effective 600 50 2400 (JInt 10))|].
    split; [exact (int_or_effective 600 50 2400 (JInt 9999))|].
    exact (Spec.Effective_absent 600 50 2400 None eq_refl).
Qed.

(** ** Encoder failures (C8) *)

(** C8, as the code has it.  On both export paths, when [img.save] raises
    [e] the handler logs the exception under the path's message and
    answers 500 with the details [save_failed:] followed by the text of
    [e]; nothing happens after the log entry. *)
Theorem save_failure_response
    (format : string) (req : request) (r : result response) (w : world)
    (img : image) (a : save_args) (e : exn) :
  run_view (export_figure format req) world0 = (r, w) ->
  In (EvSave img a (Raise e)) (events w) ->
  r = Ok (export_failed ("save_failed:" ++ exn_msg e) 500)
  /\ exists pre,
       events w = (pre ++ [EvSave img a (Raise e); EvLogException (path_msg req) e])%list.
Proof.
  intros Hrun Hin. apply export_figure_runs in Hrun.
  destruct (export_saves _ _ _ _ _ _ _ Hrun Hin)
    as (pre & stream & img0 & conv & dpi & Htr & _ & _ & _ & _ & Hr & _).
  cbn [ending fst snd] in Htr, Hr.
  split; [exact Hr|].
  exists (pre ++ [EvOpen stream 0 (Ok img0); EvLoad img0 (Ok tt)] ++ conv)%list.
  rewrite Htr. rewrite <- !app_assoc. reflexivity.
Qed.

End ExportClaims.

(** *** The requests of the examples *)

Lemma multipart_carries (L : Libs) (stream : list byte) (fields : list (string * string)) :
  carries (Demo.multipart stream fields) stream.
Proof.
  unfold carries. change (is_multipart (Demo.multipart stream fields)) with true.
  exists (Demo.upload_of stream). split; reflexivity.
Qed.

Lemma canvas_carries (s : Demo.script) (fields : list (string * json)) :
  carries (L := Demo.scripted s) (Demo.json_request (Demo.canvas fields))
    (list_byte_of_string "iVBORw0KGgo=").
Proof.
  unfold carries.
  change (is_multipart (L := Demo.scripted s) (Demo.json_request (Demo.canvas fields)))
    with false.
  exists (("canvasDataUrl", JStr "data:image/png;base64,iVBORw0KGgo=") :: fields),
    "data:image/png;base64", "iVBORw0KGgo=".
  repeat split.
Qed.

Lemma fine_decodes (stream : list byte) :
  decodes (L := Demo.scripted Demo.fine) stream Demo.rgba_image.
Proof. unfold decodes. eexists _, _. split; reflexivity. Qed.

Lemma rgba_converted_before_encoding_witness :
  (exists converted,
      In (EvConvert Demo.rgba_image "RGB" converted)
        (events (snd (run_view
                        (export_figure (L := Demo.scripted Demo.fine) "JPG"
                           (Demo.multipart Demo.tiff_bytes [("dpi", "300")])) world0)))
      /\ match converted with
         | Ok img' =>
             exists a res,
               In (EvSave img' a res)
                 (events (snd (run_view
                                 (export_figure (L := Demo.scripted Demo.fine) "JPG"
                                    (Demo.multipart Demo.tiff_bytes [("dpi", "300")]))
                                 world0)))
         | Raise _ => False
         end)
  /\ (exists converted,
         In (EvConvert Demo.rgba_image "RGB" converted)
           (events (snd (run_view
                           (export_figure (L := Demo.scripted Demo.fine) "pdf"
                              (Demo.json_request (Demo.canvas []))) world0)))
         /\ match converted with
            | Ok img' =>
                exists a res,
                  In (EvSave img' a res)
                    (events (snd (run_view
                                    (export_figure (L := Demo.scripted Demo.fine) "pdf"
                                       (Demo.json_request (Demo.canvas []))) world0)))
            | Raise _ => False
            end)
  /\ (exists img' a out,
         In (EvSave img' a (Ok out))
           (events (snd (run_view
                           (export_figure (L := Demo.scripted Demo.fine) "pdf"
                              (Demo.json_request (Demo.canvas []))) world0)))
         /\ mode img' = "RGB"
         /\ attachment "pdf" "application/pdf" Demo.encoded
            = exported (L := Demo.scripted Demo.fine) (Demo.json_request (Demo.canvas [])) "pdf" out).
Proof.
  pose proof (rgba_converted_before_encoding (L := Demo.scripted Demo.fine)
                (scripted_convert_gives_mode Demo.fine) "JPG"
                (Demo.multipart Demo.tiff_bytes [("dpi", "300")]) _ _ eq_refl)
    as (_ & Hmultipart & _).
  pose proof (rgba_converted_before_encoding (L := Demo.scripted Demo.fine)
                (scripted_convert_gives_mode Demo.fine) "pdf"
                (Demo.json_request (Demo.canvas [])) _ _ eq_refl)
    as (Hsaves & Hlegacy & Hok).
  split; [|split].
  - destruct (Hmultipart Demo.tiff_bytes Demo.rgba_image eq_refl
                (multipart_carries _ _ _) (fine_decodes _))
      as [(Hmp & _)|(converted & Hin & Hnext)]; [discriminate Hmp|].
    exists converted. split; [exact Hin|].
    destruct converted as [img'|e]; [exact Hnext|discriminate Hnext].
  - destruct (Hlegacy (list_byte_of_string "iVBORw0KGgo=") Demo.rgba_image eq_refl
                (canvas_carries _ _) (fine_decodes _))
      as [(_ & Hr & _)|(converted & Hin & Hnext)]; [discriminate Hr|].
    exists converted. split; [exact Hin|].
    destruct converted as [img'|e]; [exact Hnext|discriminate Hnext].
  - destruct (Hok (attachment "pdf" "application/pdf" Demo.encoded) eq_refl eq_refl)
      as (img' & a & out & Hin & Hresp).
    exists img', a, out. split; [exact Hin|]. split; [|exact Hresp].
    destruct (Hsaves _ _ _ Hin) as (pre & stream & img & conv & post & Hev & Hdec & Hmode & _).
    destruct Hdec as (p1 & p2 & Hopen & _). injection Hopen as <- _.
    exact (proj2 (proj2 Hmode)).
Defined.

Lemma jpeg_quality_witness :
  (exists img res q,
      In (EvSave img (mkSave "JPEG" (Some (600, 600)) None None (Some q)) res)
        (events (snd (run_view
                        (export_figure (L := Demo.scripted Demo.fine) "jpg"
                           (Demo.multipart Demo.tiff_bytes [("quality", "10")])) world0)))
      /\ Spec.effective_quality (U := Demo.plain_text) (Some (JStr "10")) q
      /\ q = 40)
  /\ (exists img a res,
         In (EvSave img a res)
           (events (snd (run_view
                           (export_figure (L := Demo.scripted Demo.fine) "jpeg"
                              (Demo.json_request (Demo.canvas [("quality", JInt 50)])))
                           world0)))
         /\ sv_quality a = Some 95)
  /\ (exists img a out,
         In (EvSave img a (Ok out))
           (events (snd (run_view
                           (export_figure (L := Demo.scripted Demo.fine) "jpeg"
                              (Demo.json_request (Demo.canvas [("quality", JInt 50)])))
                           world0)))
         /\ attachment "jpeg" "image/jpeg" Demo.encoded
            = exported (L := Demo.scripted Demo.fine) (Demo.json_request (Demo.canvas [("quality", JInt 50)])) "jpeg" out).
Proof.
  pose proof (jpeg_quality (L := Demo.scripted Demo.fine) "jpg"
                (Demo.multipart Demo.tiff_bytes [("quality", "10")]) _ _ eq_refl eq_refl)
    as (Hsaves & _ & _ & Hten & _).
  pose proof (jpeg_quality (L := Demo.scripted Demo.fine) "jpeg"
                (Demo.json_request (Demo.canvas [("quality", JInt 50)])) _ _ eq_refl eq_refl)
    as (Hsaves' & Hlegacy & Hok & _).
  split; [|split].
  - assert (Hin : In (EvSave Demo.rgb_image
                        (mkSave "JPEG" (Some (600, 600)) None None (Some 40))
                        (Ok Demo.encoded))
                     (events (snd (run_view
                                     (export_figure (L := Demo.scripted Demo.fine) "jpg"
                                        (Demo.multipart Demo.tiff_bytes [("quality", "10")]))
                                     world0)))).
    { vm_compute. tauto. }
    destruct (Hsaves _ _ _ Hin) as (_ & (q & Hq & _ & Heff) & _).
    injection Hq as <-.
    exists Demo.rgb_image, (Ok Demo.encoded), 40. split; [exact Hin|].
    split; [exact Heff|reflexivity].
  - destruct (Hlegacy (list_byte_of_string "iVBORw0KGgo=") Demo.rgba_image
                (canvas_carries _ _) (fine_decodes _))
      as [(_ & Hr & _)|[(e & _ & _ & Hnone)|(img & a & res & Hin)]];
      [discriminate Hr|discriminate Hnone|].
    exists img, a, res. split; [exact Hin|].
    destruct (Hsaves' _ _ _ Hin) as (_ & (q & Hq & _ & Heff) & _).
    rewrite Hq. f_equal. exact Heff.
  - exact (Hok (attachment "jpeg" "image/jpeg" Demo.encoded) eq_refl eq_refl).
Defined.

Lemma export_effective_dpi_witness :
  (exists img a res,
      In (EvSave img a res)
        (events (snd (run_view
                        (export_figure (L := Demo.scripted Demo.fine) "tiff"
                           (Demo.json_request (Demo.canvas [("dpi", JInt 9999)])))
                        world0)))
      /\ resolution_of a = Some 2400)
  /\ (exists img a res,
         In (EvSave img a res)
           (events (snd (run_view
                           (export_figure (L := Demo.scripted Demo.fine) "png"
                              (Demo.multipart Demo.tiff_bytes [("dpi", " 72 ")])) world0)))
         /\ resolution_of a = Some 72).
Proof.
  pose proof (export_effective_dpi (L := Demo.scripted Demo.fine) "tiff"
                (Demo.json_request (Demo.canvas [("dpi", JInt 9999)])) _ _ eq_refl)
    as (Hsaves & Hlegacy & _).
  pose proof (export_effective_dpi (L := Demo.scripted Demo.fine) "png"
                (Demo.multipart Demo.tiff_bytes [("dpi", " 72 ")]) _ _ eq_refl)
    as (Hsaves' & Hmultipart & _).
  split.
  - destruct (Hlegacy (list_byte_of_string "iVBORw0KGgo=") Demo.rgba_image eq_refl
                (canvas_carries _ _) (fine_decodes _))
      as [(_ & Hr & _)|[(e & _ & Hnone)|(img & a & res & Hin)]];
      [discriminate Hr|discriminate Hnone|].
    exists img, a, res. split; [exact Hin|].
    destruct (Hsaves _ _ _ Hin) as (d & Hres & Heff & _).
    rewrite Hres. f_equal.
    exact (effective_unique _ _ _ _ _ _ Heff (int_or_effective 600 50 2400 (JInt 9999))).
  - destruct (Hmultipart Demo.tiff_bytes Demo.rgba_image eq_refl
                (multipart_carries _ _ _) (fine_decodes _))
      as [(Hmp & _)|[(e & _ & Hnone)|(img & a & res & Hin)]];
      [discriminate Hmp|discriminate Hnone|].
    exists img, a, res. split; [exact Hin|].
    destruct (Hsaves' _ _ _ Hin) as (d & Hres & Heff & _).
    rewrite Hres. f_equal.
    exact (effective_unique _ _ _ _ _ _ Heff (int_or_effective 600 50 2400 (JStr " 72 "))).
Defined.

(** ** An infinite resolution on the legacy path (C2) *)

(** C2 fails on the legacy path.  A JSON body whose [dpi] is an infinite
    number ([1e999] in the text) parses as no integer, so that the
    effective resolution is 600; the code catches [ValueError] and
    [TypeError] around [int] but not the [OverflowError] it raises here,
    the exception leaves the handler after the image is decoded, and
    nothing is encoded.  A [dpi] that is NaN, for which [int] raises
    [ValueError], is replaced by 600 as the claim has it. *)
Theorem legacy_infinite_dpi_not_replaced :
  Spec.supplied (L := Demo.scripted Demo.fine) "dpi"
    (Cases.pixel_request (JFloat (S754_infinity false)))
  = Some (JFloat (S754_infinity false))
  /\ Spec.effective_dpi (U := Demo.plain_text) (Some (JFloat (S754_infinity false))) 600
  /\ carries (L := Demo.scripted Demo.fine)
       (Cases.pixel_request (JFloat (S754_infinity false)))
       (list_byte_of_string Cases.pixel_base64)
  /\ decodes (L := Demo.scripted Demo.fine) (list_byte_of_string Cases.pixel_base64)
       Demo.rgba_image
  /\ run_view (export_figure (L := Demo.scripted Demo.fine) "png"
                 (Cases.pixel_request (JFloat (S754_infinity false)))) world0
     = (Raise (mkExn OverflowError "cannot convert float infinity to integer"),
        mkWorld 16 [EvGetJson;
                    EvOpen (list_byte_of_string Cases.pixel_base64) 0 (Ok Demo.rgba_image);
                    EvLoad Demo.rgba_image (Ok tt)])
  /\ run_view (export_figure (L := Demo.scripted Demo.fine) "png"
                 (Cases.pixel_request (JFloat S754_nan))) world0
     = (Ok (attachment "png" "image/png" Demo.encoded),
        mkWorld 16 [EvGetJson;
                    EvOpen (list_byte_of_string Cases.pixel_base64) 0 (Ok Demo.rgba_image);
                    EvLoad Demo.rgba_image (Ok tt);
                    EvSave Demo.rgba_image (mkSave "PNG" (Some (600, 600)) None None None)
                      (Ok Demo.encoded)]).
Proof.
  split; [reflexivity|]. split.
  { eapply (Spec.Effective_default 600 50 2400); [reflexivity|].
    intros n Hn. inversion Hn as [| |f n0 Hf|]; subst. discriminate Hf. }
  split.
  { unfold carries.
    change (is_multipart (L := Demo.scripted Demo.fine)
              (Cases.pixel_request (JFloat (S754_infinity false)))) with false.
    eexists _, "data:image/png;base64", Cases.pixel_base64. repeat split. }
  split; [apply fine_decodes|].
  split; reflexivity.
Qed.


(** The resolutions and the qualities of the specification's examples, on
    runs of the handler. *)
Example dpi_10_gives_50 :
  In (EvSave Demo.rgba_image (mkSave "PNG" (Some (50, 50)) None None None)
        (Ok Demo.encoded))
     (events (snd (run_view
                     (export_figure (L := Demo.scripted Demo.fine) "png"
                        (Demo.multipart Demo.tiff_bytes [("dpi", "10")])) world0))).
Proof. vm_compute. tauto. Qed.

Example dpi_9999_gives_2400 :
  In (EvSave Demo.rgb_image (mkSave "PDF" None (Some 2400) None None) (Ok Demo.encoded))
     (events (snd (run_view
                     (export_figure (L := Demo.scripted Demo.fine) "pdf"
                        (Demo.multipart Demo.tiff_bytes [("dpi", "9999")])) world0))).
Proof. vm_compute. tauto. Qed.

Example dpi_text_gives_600 :
  In (EvSave Demo.rgba_image (mkSave "PNG" (Some (600, 600)) None None None)
        (Ok Demo.encoded))
     (events (snd (run_view
                     (export_figure (L := Demo.scripted Demo.fine) "png"
                        (Demo.json_request (Demo.canvas [("dpi", JStr "high")]))) world0))).
Proof. vm_compute. tauto. Qed.

Example legacy_quality_is_95 :
  In (EvSave Demo.rgb_image (mkSave "JPEG" (Some (600, 600)) None None (Some 95))
        (Ok Demo.encoded))
     (events (snd (run_view
                     (export_figure (L := Demo.scripted Demo.fine) "jpeg"
                        (Demo.json_request (Demo.canvas [("quality", JInt 50)]))) world0))).
Proof. vm_compute. tauto. Qed.

Lemma save_failure_response_witness :
  run_view (export_figure (L := Demo.scripted (Demo.save_fails "disk full")) "png"
              (Demo.multipart Demo.tiff_bytes [])) world0
  = (Ok (export_failed "save_failed:disk full" 500),
     mkWorld 8 [EvOpen Demo.tiff_bytes 0 (Ok Demo.rgb_image);
                EvLoad Demo.rgb_image (Ok tt);
                EvSave Demo.rgb_image (mkSave "PNG" (Some (600, 600)) None None None)
                  (Raise (mkExn OSError "disk full"));
                EvLogException multipart_msg (mkExn OSError "disk full")])
  /\ Ok (export_failed "save_failed:disk full" 500)
     = Ok (export_failed ("save_failed:" ++ exn_msg (mkExn OSError "disk full")) 500).
Proof.
  split; [reflexivity|].
  refine (proj1 (save_failure_response (L := Demo.scripted (Demo.save_fails "disk full")) "png"
                   (Demo.multipart Demo.tiff_bytes []) _ _
                   Demo.rgb_image (mkSave "PNG" (Some (600, 600)) None None None)
                   (mkExn OSError "disk full") eq_refl _)).
  vm_compute. tauto.
Defined.

(** C8, as the specification has it, fails.  The response to a save that
    fails with [disk full] carries that text, and no fixed code is the
    details of every failed save. *)
Lemma save_failure_details_not_fixed :
  fst (run_view (export_figure (L := Demo.scripted (Demo.save_fails "disk full")) "png"
                   (Demo.multipart Demo.tiff_bytes [])) world0)
  = Ok (export_failed "save_failed:disk full" 500)
  /\ ~ exists code : string,
        forall (L : Libs) (format : string) (req : request) (r : result response)
               (w : world) (img : image) (a : save_args) (e : exn),
          run_view (export_figure format req) world0 = (r, w) ->
          In (EvSave img a (Raise e)) (events w) ->
          r = Ok (export_failed code 500).
Proof.
  split; [reflexivity|].
  intros [code H].
  pose proof (H (Demo.scripted (Demo.save_fails "disk full")) "png"
                (Demo.multipart Demo.tiff_bytes []) _ _
                Demo.rgb_image (mkSave "PNG" (Some (600, 600)) None None None)
                (mkExn OSError "disk full") eq_refl) as H1.
  pose proof (H (Demo.scripted (Demo.save_fails "broken pipe")) "png"
                (Demo.multipart Demo.tiff_bytes []) _ _
                Demo.rgb_image (mkSave "PNG" (Some (600, 600)) None None None)
                (mkExn OSError "broken pipe") eq_refl) as H2.
  cbn in H1, H2.
  specialize (H1 ltac:(tauto)). specialize (H2 ltac:(tauto)).
  unfold export_failed, jsonify in H1, H2.
  congruence.
Qed.

(** ** The check of the format (C6) *)

Lemma allowed_after_replace (s : string) :
  mem (replace "jpg" "jpeg" s) allowed = true -> In s Spec.accepted_names.
Proof.
  intros H.
  assert (Hlen : (String.length s <= 4)%nat).
  { pose proof (replace_from_jpg_length s 0) as Hl. fold (replace "jpg" "jpeg" s) in Hl.
    unfold mem, allowed in H. cbn [existsb] in H.
    repeat (apply orb_true_iff in H; destruct H as [H|H]);
      try discriminate; apply String.eqb_eq in H; rewrite H in Hl; simpl in Hl; lia. }
  destruct s as [|a [|b [|c [|d [|e s]]]]]; try (simpl in Hlen; lia).
  all: cbn [replace replace_from startswith String.length Nat.sub append] in H.
  all: repeat match type of H with
       | context [Ascii.eqb ?x ?y] =>
           destruct (Ascii.eqb_spec x y); subst;
           cbn [replace_from startswith String.length Nat.sub append andb] in H
       end.
  all: try discriminate H.
  all: apply existsb_exists in H; destruct H as [y [Hy He]];
    apply String.eqb_eq in He; subst y; cbn [In allowed] in Hy.
  all: repeat (destruct Hy as [Hy|Hy];
               [try discriminate Hy; try (injection Hy as <-); subst; try (cbn; tauto)|]).
  all: try contradiction.
Qed.

Lemma accepted_iff {L : Libs} (format : string) :
  mem (normalize_format format) allowed = true <-> In (lower format) Spec.accepted_names.
Proof.
  unfold normalize_format. split.
  - apply allowed_after_replace.
  - intros H. cbn [In Spec.accepted_names] in H.
    repeat (destruct H as [H|H]; [rewrite <- H; reflexivity|]). contradiction.
Qed.

(** C6. The format of the URL is lower-cased and [jpg] in it replaced by
    [jpeg]; the result is one of png, jpeg, tiff, pdf exactly when the
    lower-cased name is one of these or jpg.  For any other name the
    handler returns 400 with the details [unsupported format: ...] at once:
    for every request and every state of the stream, with no library
    called, nothing read and nothing logged.  For an accepted name it goes
    on to one of the two paths. *)
Theorem unsupported_format_rejected (L : Libs) (format : string) :
  (mem (normalize_format format) allowed = true <-> In (lower format) Spec.accepted_names)
  /\ (~ In (lower format) Spec.accepted_names ->
      forall req w,
        export_figure format req w
        = (Return (export_failed ("unsupported format: " ++ normalize_format format) 400), w))
  /\ (In (lower format) Spec.accepted_names ->
      forall req w,
        export_figure format req w
        = if is_multipart req
          then export_multipart (normalize_format format) req w
          else export_legacy (normalize_format format) req w).
Proof.
  pose proof (accepted_iff format) as Hiff.
  split; [exact Hiff|]. split.
  - intros Hno req w. unfold export_figure.
    destruct (mem (normalize_format format) allowed) eqn:Hmem.
    + exfalso. apply Hno, Hiff. reflexivity.
    + reflexivity.
  - intros Hyes req w. unfold export_figure.
    apply Hiff in Hyes. rewrite Hyes. cbn [negb]. fold (is_multipart req).
    destruct (is_multipart req); reflexivity.
Qed.

Lemma unsupported_format_rejected_witness :
  export_figure (L := Demo.scripted Demo.fine) "GIF"
    (Demo.json_request (Demo.canvas [])) world0
  = (Return (export_failed "unsupported format: gif" 400), world0).
Proof.
  refine (proj1 (proj2 (unsupported_format_rejected (Demo.scripted Demo.fine) "GIF")) _
            (Demo.json_request (Demo.canvas [])) world0).
  cbn. intros H. repeat (destruct H as [H|H]; [discriminate H|]). exact H.
Defined.

(** ** The runs of [convert_tiff_to_png] *)

Section TiffRuns.

Context {L : Libs}.

Lemma png_block (A : Type) (img : image) (w : world) :
  exists tr res p,
    (img <- force_rgb img ;;
     out <- save_image img png_args ;;
     return_ (A := A) (ok_base64 "png" out)) w
    = (match res with
       | Ok out => Return (ok_base64 "png" out)
       | Raise e => Raised e
       end, mkWorld p (events w ++ tr))
    /\ png_saved img tr res.
Proof.
  destruct w as [p0 evs]. unfold force_rgb.
  destruct (mem (mode img) rgb_modes) eqn:Hmode; cbn [negb]; run.
  - destruct (image_save img png_args p0) as [res p1] eqn:Hsave.
    exists [EvSave img png_args res], res, p1. split; [|apply Png_direct; assumption].
    destruct res; reflexivity.
  - destruct (image_convert img "RGB" p0) as [[img'|e] p1] eqn:Hconv; run.
    + destruct (image_save img' png_args p1) as [res p2] eqn:Hsave.
      exists [EvConvert img "RGB" (Ok img'); EvSave img' png_args res], res, p2.
      split; [|eapply Png_converted; eassumption].
      rewrite <- app_assoc. destruct res; reflexivity.
    + exists [EvConvert img "RGB" (Raise e)], (Raise e), p1.
      split; [reflexivity|]. apply Png_convert_raises. assumption.
Qed.

Lemma frame_block (img : image) (w : world) :
  try_
    (n <- call (image_n_frames img) ;;
     if 1 <? n then call (image_seek img 0) else ret img)
    (except_Exception (fun _ => ret img)) w
  = (Val (fst (select_frame img (pos w))),
     mkWorld (snd (select_frame img (pos w))) (events w)).
Proof.
  destruct w as [p0 evs]. unfold select_frame. run.
  destruct (image_n_frames img p0) as [[n|e] p1]; run; [|reflexivity].
  destruct (1 <? n); run; [|reflexivity].
  destruct (image_seek img 0 p1) as [[img'|e] p2]; reflexivity.
Qed.

Lemma pillow_block (u : upload) (evs : list event) :
  exists tr res p,
    decode_with_pillow u (mkWorld 0 evs)
    = (match res with
       | Ok out => Return (ok_base64 "png" out)
       | Raise e => Val tt
       end,
       mkWorld p (evs ++ tr ++ match res with
                               | Ok _ => []
                               | Raise e => fallthrough_log e
                               end))
    /\ pillow_attempt (stream_data u) tr res.
Proof.
  unfold decode_with_pillow.
  match goal with
  | |- context [try_ ?m ?c ?w] =>
      destruct (m w) as [ob wb] eqn:Hbody;
      setoid_rewrite (try_eq m c _ _ _ Hbody)
  end.
  assert (Hopen : open_image (stream_data u) (mkWorld 0 evs)
                  = (match fst (image_open (stream_data u) 0%nat) with
                     | Ok img => Val img
                     | Raise e => Raised e
                     end,
                     mkWorld (snd (image_open (stream_data u) 0%nat))
                       (evs ++ [EvOpen (stream_data u) 0 (fst (image_open (stream_data u) 0%nat))]))).
  { run. destruct (image_open (stream_data u) 0%nat); reflexivity. }
  rewrite (bind_eq _ _ _ _ _ Hopen) in Hbody. clear Hopen.
  destruct (image_open (stream_data u) 0%nat) as [[img|e] p1] eqn:Hopen; cbn [fst snd] in Hbody.
  - rewrite (bind_eq _ _ _ _ _ (frame_block _ _)) in Hbody. cbn [pos events] in Hbody.
    destruct (png_block unit (fst (select_frame img p1))
                (mkWorld (snd (select_frame img p1)) (evs ++ [EvOpen (stream_data u) 0 (Ok img)])))
      as (tr & res & p & Hrun & Hpng).
    rewrite Hrun in Hbody. inversion Hbody; subst ob wb. clear Hbody.
    exists (EvOpen (stream_data u) 0 (Ok img) :: tr), res, p.
    split; [|eapply Pil_opened; eassumption].
    cbn [events]. destruct res as [out|e].
    + rewrite app_nil_r, <- app_assoc. reflexivity.
    + unfold fallthrough_log. run.
      destruct (isinstance e UnidentifiedImageError); run.
      * rewrite app_nil_r, <- app_assoc. reflexivity.
      * rewrite <- !app_assoc. reflexivity.
  - inversion Hbody; subst ob wb. clear Hbody.
    exists [EvOpen (stream_data u) 0 (Raise e)], (Raise e), p1.
    split; [|apply Pil_open_raises].
    unfold fallthrough_log. run.
    destruct (isinstance e UnidentifiedImageError); run.
    + reflexivity.
    + rewrite <- !app_assoc. reflexivity.
Qed.

Lemma tifffile_block (u : upload) (w : world) :
  exists tr res p,
    decode_with_tifffile u w
    = (Return match res with
              | Ok out => ok_base64 "png" out
              | Raise e => jsonify [("error", JStr "tiff_decode_failed")] 500
              end,
       mkWorld p (events w ++ tr ++ match res with
                                    | Ok _ => []
                                    | Raise e => [EvLogException tifffile_failed_msg e]
                                    end))
    /\ tifffile_attempt (stream_data u) tr res.
Proof.
  destruct w as [p0 evs]. unfold decode_with_tifffile.
  match goal with
  | |- context [try_ ?m ?c ?w] =>
      destruct (m w) as [ob wb] eqn:Hbody;
      setoid_rewrite (try_eq m c _ _ _ Hbody)
  end.
  set (stream := stream_data u) in *.
  pose proof (eq_refl (array_image stream)) as Himg. unfold array_image at 2 in Himg.
  assert (Hread : (stream_seek 0 ;; tiff_read stream) (mkWorld p0 evs)
                  = (match tiff_asarray stream with
                     | Ok arr => Val arr
                     | Raise e => Raised e
                     end,
                     mkWorld 0 (evs ++ [EvStreamSeek 0; EvTiffRead stream (tiff_asarray stream)]))).
  { run. cbn [skipn]. rewrite <- app_assoc.
    destruct (tiff_asarray stream); reflexivity. }
  assert (Hsplit : forall (k : ndarray -> M response) w0,
            (stream_seek 0 ;; arr <- tiff_read stream ;; k arr) w0
            = (arr <- (stream_seek 0 ;; tiff_read stream) ;; k arr) w0).
  { intros k w0. run. reflexivity. }
  rewrite Hsplit in Hbody. clear Hsplit.
  rewrite (bind_eq _ _ _ _ _ Hread) in Hbody. clear Hread.
  assert (Hlift : forall (A : Type) (x : result A) (w0 : world),
            lift x w0 = (match x with Ok a => Val a | Raise e => Raised e end, w0)).
  { intros A x w0. destruct x; reflexivity. }
  unfold and_then in Himg.
  destruct (tiff_asarray stream) as [arr|e] eqn:Harr.
  2:{ inversion Hbody; subst ob wb. clear Hbody.
      exists [EvStreamSeek 0; EvTiffRead stream (Raise e)], (Raise e), 0%nat.
      split; [run; rewrite <- !app_assoc; reflexivity|].
      rewrite <- Harr. apply Tf_array_raises. assumption. }
  rewrite (bind_eq _ _ _ _ _ (Hlift _ _ _)) in Hbody.
  destruct (to_uint8 arr) as [arr8|e] eqn:Hu8.
  2:{ inversion Hbody; subst ob wb. clear Hbody.
      exists [EvStreamSeek 0; EvTiffRead stream (Ok arr)], (Raise e), 0%nat.
      split; [run; rewrite <- !app_assoc; reflexivity|].
      rewrite <- Harr. apply Tf_array_raises. assumption. }
  rewrite (bind_eq _ _ _ _ _ (Hlift _ _ _)) in Hbody.
  destruct (layout arr8) as [laid|e] eqn:Hlay.
  2:{ inversion Hbody; subst ob wb. clear Hbody.
      exists [EvStreamSeek 0; EvTiffRead stream (Ok arr)], (Raise e), 0%nat.
      split; [run; rewrite <- !app_assoc; reflexivity|].
      rewrite <- Harr. apply Tf_array_raises. assumption. }
  rewrite (bind_eq _ _ _ _ _ (Hlift _ _ _)) in Hbody.
  destruct (image_fromarray (fst laid) (snd laid)) as [img|e] eqn:Hfrom.
  2:{ inversion Hbody; subst ob wb. clear Hbody.
      exists [EvStreamSeek 0; EvTiffRead stream (Ok arr)], (Raise e), 0%nat.
      split; [run; rewrite <- !app_assoc; reflexivity|].
      rewrite <- Harr. apply Tf_array_raises. assumption. }
  destruct (png_block response img
              (mkWorld 0 (evs ++ [EvStreamSeek 0; EvTiffRead stream (Ok arr)])))
    as (tr & res & p & Hrun & Hpng).
  rewrite Hrun in Hbody. inversion Hbody; subst ob wb. clear Hbody.
  exists ([EvStreamSeek 0; EvTiffRead stream (Ok arr)] ++ tr)%list, res, p.
  split.
  - cbn [events]. destruct res as [out|e]; run.
    + rewrite app_nil_r, <- !app_assoc. reflexivity.
    + rewrite <- !app_assoc. reflexivity.
  - rewrite <- Harr. eapply Tf_array; eassumption.
Qed.

Lemma convert_tiff_runs (req : request) (w : world) (r : result response) :
  run_view (convert_tiff_to_png req) world0 = (r, w) ->
  exists resp, r = Ok resp /\ tiff_run req (events w) resp.
Proof.
  unfold run_view, convert_tiff_to_png.
  match goal with
  | |- context [try_ ?m ?c ?w] =>
      destruct (m w) as [ob wb] eqn:Hbody;
      rewrite (try_eq m c _ _ _ Hbody)
  end.
  assert (Hlift : forall (A : Type) (x : result A) (w0 : world),
            lift x w0 = (match x with Ok a => Val a | Raise e => Raised e end, w0)).
  { intros A x w0. destruct x; reflexivity. }
  rewrite (bind_eq _ _ _ _ _ (Hlift _ _ _)) in Hbody.
  destruct (get_upload req) as [[u|]|e] eqn:Hup.
  - destruct (pillow_block u []) as (t1 & res1 & p1 & Hrun1 & Hpil).
    fold world0 in Hrun1. rewrite (bind_eq _ _ _ _ _ Hrun1) in Hbody.
    cbn [app] in Hbody.
    destruct res1 as [out|e1].
    + inversion Hbody; subst ob wb. intros Hr; inversion Hr; subst r w.
      eexists; split; [reflexivity|]. cbn [events]. rewrite app_nil_r.
      eapply Tr_pillow; eassumption.
    + assert (Himp : forall w0,
                try_ import_libs
                  (except_Exception
                     (fun e =>
                        log_exception
                          "tifffile or numpy not available for TIFF conversion fallback" e ;;
                        return_ (jsonify [("error", JStr "tiff_decode_failed");
                                             ("details", JStr "server_missing_tifffile")] 500))) w0
                = (match import_tifffile with
                   | Ok a => Val a
                   | Raise e =>
                       Return (jsonify [("error", JStr "tiff_decode_failed");
                                           ("details", JStr "server_missing_tifffile")] 500)
                   end,
                   mkWorld (pos w0)
                     (events w0 ++ EvImport import_tifffile
                        :: match import_tifffile with
                           | Ok _ => []
                           | Raise e => [EvLogException missing_tifffile_msg e]
                           end))).
      { intros w0. run. destruct import_tifffile; run; [reflexivity|].
        rewrite <- app_assoc. reflexivity. }
      rewrite (bind_eq _ _ _ _ _ (Himp _)) in Hbody. clear Himp.
      cbn [pos events] in Hbody.
      destruct import_tifffile as [[]|e] eqn:Himport.
      * destruct (tifffile_block u (mkWorld p1 ((t1 ++ fallthrough_log e1) ++ [EvImport (Ok tt)])))
          as (t2 & res2 & p2 & Hrun2 & Htf).
        rewrite Hrun2 in Hbody. inversion Hbody; subst ob wb.
        intros Hr; inversion Hr; subst r w.
        eexists; split; [reflexivity|]. cbn [events].
        destruct res2 as [out|e].
        -- rewrite app_nil_r, <- !app_assoc.
           eapply Tr_tifffile; eassumption.
        -- rewrite <- !app_assoc.
           eapply Tr_tifffile_raises; eassumption.
      * inversion Hbody; subst ob wb. intros Hr; inversion Hr; subst r w.
        eexists; split; [reflexivity|]. cbn [events]. rewrite <- !app_assoc.
        eapply Tr_no_tifffile; eassumption.
  - inversion Hbody; subst ob wb. intros Hr; inversion Hr; subst r w.
    eexists; split; [reflexivity|]. apply Tr_missing. assumption.
  - inversion Hbody; subst ob wb. run. intros Hr; inversion Hr; subst r w.
    eexists; split; [reflexivity|]. apply Tr_files_raise. assumption.
Qed.

(** *** What the two attempts leave in the events *)

Lemma png_saved_events (img : image) (tr : list event) (res : result (list byte)) :
  png_saved img tr res -> Forall (fun ev => pillow_event ev /\ tifffile_event ev) tr.
Proof.
  intros H. inversion H; subst; repeat constructor.
Qed.

Lemma pillow_attempt_events (stream : list byte) (tr : list event) (res : result (list byte)) :
  pillow_attempt stream tr res -> Forall pillow_event tr.
Proof.
  intros H. inversion H as [e|img p tr0 res0 Hopen Hpng]; subst.
  - repeat constructor.
  - constructor; [exact I|].
    eapply Forall_impl; [|exact (png_saved_events _ _ _ Hpng)]. intros ev [Hp _]. exact Hp.
Qed.

Lemma tifffile_attempt_events (stream : list byte) (tr : list event) (res : result (list byte)) :
  tifffile_attempt stream tr res -> Forall tifffile_event tr.
Proof.
  intros H. inversion H as [e Himg|img tr0 res0 Himg Hpng]; subst.
  - repeat constructor.
  - apply Forall_app. split; [repeat constructor|].
    eapply Forall_impl; [|exact (png_saved_events _ _ _ Hpng)]. intros ev [_ Ht]. exact Ht.
Qed.

Lemma fallthrough_log_events (e : exn) (ev : event) :
  In ev (fallthrough_log e) -> exists msg, ev = EvLogInfo msg.
Proof.
  unfold fallthrough_log. destruct (isinstance e UnidentifiedImageError); cbn.
  - intros [].
  - intros [<-|[]]. eauto.
Qed.

(** An event that is not one of Pillow's calls is not in the first attempt. *)
Lemma pillow_attempt_excludes (stream : list byte) (tr : list event)
    (res : result (list byte)) (ev : event) :
  pillow_attempt stream tr res -> ~ pillow_event ev -> ~ In ev tr.
Proof.
  intros H Hev Hin. apply pillow_attempt_events in H.
  rewrite Forall_forall in H. exact (Hev (H ev Hin)).
Qed.

Lemma tifffile_attempt_excludes (stream : list byte) (tr : list event)
    (res : result (list byte)) (ev : event) :
  tifffile_attempt stream tr res -> ~ tifffile_event ev -> ~ In ev tr.
Proof.
  intros H Hev Hin. apply tifffile_attempt_events in H.
  rewrite Forall_forall in H. exact (Hev (H ev Hin)).
Qed.

Lemma fallthrough_log_excludes (e : exn) (ev : event) :
  (forall msg, ev <> EvLogInfo msg) -> ~ In ev (fallthrough_log e).
Proof.
  intros Hev Hin. destruct (fallthrough_log_events _ _ Hin) as [msg ->].
  exact (Hev msg eq_refl).
Qed.

(** ** The two tiers (C4) *)


(** ** The rewind before the second attempt (C10) *)

(** tifffile reads from the position of the stream on: without the rewind
    it would miss what Pillow has read. *)
Lemma tiff_read_from_position (stream : list byte) (p : nat) (evs : list event) :
  snd (tiff_read stream (mkWorld p evs))
  = mkWorld p (evs ++ [EvTiffRead (skipn p stream) (tiff_asarray (skipn p stream))]).
Proof. run. destruct (tiff_asarray (skipn p stream)); reflexivity. Qed.

Lemma stream_seek_rewinds (p : nat) (evs : list event) :
  stream_seek 0 (mkWorld p evs) = (Val tt, mkWorld 0 (evs ++ [EvStreamSeek 0])).
Proof. reflexivity. Qed.

(** C10. With an upload, whatever tifffile is given to read is the whole
    upload: the read comes right after [upload.stream.seek(0)], wherever
    the first attempt left the stream; and once tifffile is imported the
    read takes place. *)
Theorem secondary_reads_whole_stream
    (req : request) (u : upload) (r : result response) (w : world) :
  get_upload req = Ok (Some u) ->
  run_view (convert_tiff_to_png req) world0 = (r, w) ->
  (forall visible res,
      In (EvTiffRead visible res) (events w) ->
      visible = stream_data u
      /\ res = tiff_asarray (stream_data u)
      /\ exists pre post,
           events w = (pre ++ [EvStreamSeek 0; EvTiffRead visible res] ++ post)%list)
  /\ (In (EvImport (Ok tt)) (events w) ->
      In (EvTiffRead (stream_data u) (tiff_asarray (stream_data u))) (events w)).
Proof.
  intros Hup Hrun. destruct (convert_tiff_runs _ _ _ Hrun) as (resp & -> & Htr).
  clear Hrun. destruct w as [pw evs]. cbn [events] in *.
  assert (Hread : forall visible res, ~ pillow_event (EvTiffRead visible res))
    by (intros ? ? []).
  assert (Hlog : forall visible res msg, EvTiffRead visible res <> EvLogInfo msg)
    by (intros; discriminate).
  assert (Htail : forall stream t2 res2 visible res,
             tifffile_attempt stream t2 res2 ->
             In (EvTiffRead visible res) t2 ->
             visible = stream /\ res = tiff_asarray stream
             /\ exists post, t2 = ([EvStreamSeek 0; EvTiffRead visible res] ++ post)%list).
  { intros stream t2 res2 visible res Htf Hin.
    inversion Htf as [e Himg|img tr res0 Himg Hpng]; subst.
    - destruct Hin as [Hin|[Hin|[]]]; [discriminate Hin|].
      inversion Hin; subst. repeat split. exists []. reflexivity.
    - destruct Hin as [Hin|[Hin|Hin]]; [discriminate Hin| |].
      + inversion Hin; subst. repeat split. exists tr. reflexivity.
      + exfalso. apply png_saved_events in Hpng. rewrite Forall_forall in Hpng.
        destruct (Hpng _ Hin) as [[] _]. }
  inversion Htr as [e Hup'|Hup'|u' t1 out Hup' Hpil|u' t1 e1 e Hup' Hpil Himp
                   |u' t1 t2 e1 e Hup' Hpil Himp Htf|u' t1 t2 e1 out Hup' Hpil Himp Htf];
    rewrite Hup in Hup'; try discriminate Hup'; injection Hup' as <-; subst.
  - split.
    + intros visible res Hin. exfalso.
      exact (pillow_attempt_excludes _ _ _ _ Hpil (Hread _ _) Hin).
    + intros Hin. exfalso.
      refine (pillow_attempt_excludes _ _ _ _ Hpil _ Hin). intros [].
  - split.
    + intros visible res Hin. exfalso.
      apply in_app_or in Hin. destruct Hin as [Hin|Hin].
      { exact (pillow_attempt_excludes _ _ _ _ Hpil (Hread _ _) Hin). }
      apply in_app_or in Hin. destruct Hin as [Hin|Hin].
      { exact (fallthrough_log_excludes _ _ (Hlog _ _) Hin). }
      destruct Hin as [Hin|[Hin|[]]]; discriminate Hin.
    + intros Hin. exfalso.
      apply in_app_or in Hin. destruct Hin as [Hin|Hin].
      { refine (pillow_attempt_excludes _ _ _ _ Hpil _ Hin). intros []. }
      apply in_app_or in Hin. destruct Hin as [Hin|Hin].
      { refine (fallthrough_log_excludes _ _ _ Hin). intros; discriminate. }
      destruct Hin as [Hin|[Hin|[]]]; discriminate Hin.
  - split.
    + intros visible res Hin.
      apply in_app_or in Hin. destruct Hin as [Hin|Hin].
      { exfalso. exact (pillow_attempt_excludes _ _ _ _ Hpil (Hread _ _) Hin). }
      apply in_app_or in Hin. destruct Hin as [Hin|Hin].
      { exfalso. exact (fallthrough_log_excludes _ _ (Hlog _ _) Hin). }
      destruct Hin as [Hin|Hin]; [discriminate Hin|]. cbn [app] in Hin.
      apply in_app_or in Hin. destruct Hin as [Hin|Hin].
      * destruct (Htail _ _ _ _ _ Htf Hin) as (Hv & Hr & post & ->).
        repeat split; [assumption..|].
        exists (t1 ++ fallthrough_log e1 ++ [EvImport (Ok tt)])%list,
               (post ++ [EvLogException tifffile_failed_msg e])%list.
        rewrite <- !app_assoc. reflexivity.
      * destruct Hin as [Hin|[]]. discriminate Hin.
    + intros _. apply in_or_app. right. apply in_or_app. right. right.
      cbn [app]. apply in_or_app. left.
      inversion Htf; subst; right; left; reflexivity.
  - split.
    + intros visible res Hin.
      apply in_app_or in Hin. destruct Hin as [Hin|Hin].
      { exfalso. exact (pillow_attempt_excludes _ _ _ _ Hpil (Hread _ _) Hin). }
      apply in_app_or in Hin. destruct Hin as [Hin|Hin].
      { exfalso. exact (fallthrough_log_excludes _ _ (Hlog _ _) Hin). }
      destruct Hin as [Hin|Hin]; [discriminate Hin|]. cbn [app] in Hin.
      destruct (Htail _ _ _ _ _ Htf Hin) as (Hv & Hr & post & ->).
      repeat split; [assumption..|].
      exists (t1 ++ fallthrough_log e1 ++ [EvImport (Ok tt)])%list, post.
      rewrite <- !app_assoc. reflexivity.
    + intros _. apply in_or_app. right. apply in_or_app. right. right.
      cbn [app]. inversion Htf; subst; right; left; reflexivity.
Qed.

(** ** The missing dependency (C7) *)

(** C7, as the code has it.  When the import of numpy and tifffile raises,
    the handler logs the exception and answers 500 with the error
    [tiff_decode_failed] and the details [server_missing_tifffile]; the log
    entry is the last event, the stream is not rewound and tifffile reads
    nothing. *)
Theorem missing_tifffile_fails_at_once
    (req : request) (r : result response) (w : world) (e : exn) :
  run_view (convert_tiff_to_png req) world0 = (r, w) ->
  In (EvImport (Raise e)) (events w) ->
  r = Ok (jsonify [("error", JStr "tiff_decode_failed");
                   ("details", JStr "server_missing_tifffile")] 500)
  /\ (exists pre,
        events w = (pre ++ [EvImport (Raise e); EvLogException missing_tifffile_msg e])%list)
  /\ (forall visible res, ~ In (EvTiffRead visible res) (events w))
  /\ (forall offset, ~ In (EvStreamSeek offset) (events w)).
Proof.
  intros Hrun Hin. destruct (convert_tiff_runs _ _ _ Hrun) as (resp & -> & Htr).
  clear Hrun. destruct w as [pw evs]. cbn [events] in *.
  assert (Himport : forall x, ~ pillow_event (EvImport x)) by (intros ? []).
  assert (Himport' : forall x, ~ tifffile_event (EvImport x)) by (intros ? []).
  inversion Htr as [e0 Hup'|Hup'|u' t1 out Hup' Hpil|u' t1 e1 e0 Hup' Hpil Himp
                   |u' t1 t2 e1 e0 Hup' Hpil Himp Htf|u' t1 t2 e1 out Hup' Hpil Himp Htf];
    subst.
  - destruct Hin as [Hin|[]]. discriminate Hin.
  - destruct Hin.
  - exfalso. exact (pillow_attempt_excludes _ _ _ _ Hpil (Himport _) Hin).
  - apply in_app_or in Hin. destruct Hin as [Hin|Hin].
    { exfalso. exact (pillow_attempt_excludes _ _ _ _ Hpil (Himport _) Hin). }
    apply in_app_or in Hin. destruct Hin as [Hin|Hin].
    { exfalso. refine (fallthrough_log_excludes _ _ _ Hin). intros; discriminate. }
    destruct Hin as [Hin|[Hin|[]]]; [|discriminate Hin].
    injection Hin as <-.
    split; [reflexivity|]. split.
    { exists (t1 ++ fallthrough_log e1)%list. rewrite <- app_assoc. reflexivity. }
    split.
    + intros visible res Hr.
      apply in_app_or in Hr. destruct Hr as [Hr|Hr].
      { refine (pillow_attempt_excludes _ _ _ _ Hpil _ Hr). intros []. }
      apply in_app_or in Hr. destruct Hr as [Hr|Hr].
      { refine (fallthrough_log_excludes _ _ _ Hr). intros; discriminate. }
      destruct Hr as [Hr|[Hr|[]]]; discriminate Hr.
    + intros offset Hr.
      apply in_app_or in Hr. destruct Hr as [Hr|Hr].
      { refine (pillow_attempt_excludes _ _ _ _ Hpil _ Hr). intros []. }
      apply in_app_or in Hr. destruct Hr as [Hr|Hr].
      { refine (fallthrough_log_excludes _ _ _ Hr). intros; discriminate. }
      destruct Hr as [Hr|[Hr|[]]]; discriminate Hr.
  - exfalso.
    apply in_app_or in Hin. destruct Hin as [Hin|Hin].
    { exact (pillow_attempt_excludes _ _ _ _ Hpil (Himport _) Hin). }
    apply in_app_or in Hin. destruct Hin as [Hin|Hin].
    { refine (fallthrough_log_excludes _ _ _ Hin). intros; discriminate. }
    destruct Hin as [Hin|Hin]; [discriminate Hin|]. cbn [app] in Hin.
    apply in_app_or in Hin. destruct Hin as [Hin|Hin].
    { exact (tifffile_attempt_excludes _ _ _ _ Htf (Himport' _) Hin). }
    destruct Hin as [Hin|[]]. discriminate Hin.
  - exfalso.
    apply in_app_or in Hin. destruct Hin as [Hin|Hin].
    { exact (pillow_attempt_excludes _ _ _ _ Hpil (Himport _) Hin). }
    apply in_app_or in Hin. destruct Hin as [Hin|Hin].
    { refine (fallthrough_log_excludes _ _ _ Hin). intros; discriminate. }
    destruct Hin as [Hin|Hin]; [discriminate Hin|]. cbn [app] in Hin.
    exact (tifffile_attempt_excludes _ _ _ _ Htf (Himport' _) Hin).
Qed.

(** ** No exception leaves the multipart path or the conversion *)

Lemma export_multipart_returns (format : string) (req : request) (w : world) :
  is_multipart req = true ->
  exists resp, fst (run_view (export_figure format req) w) = Ok resp.
Proof.
  intros Hmp. unfold export_figure. fold (is_multipart req). rewrite Hmp.
  destruct (negb (mem (normalize_format format) allowed)).
  - eexists. reflexivity.
  - unfold run_view, export_multipart.
    match goal with
    | |- context [try_ ?m ?c ?w] =>
        destruct (m w) as [ob wb] eqn:Hbody; rewrite (try_eq m c _ _ _ Hbody)
    end.
    destruct ob; eexists; reflexivity.
Qed.

Lemma convert_tiff_returns (req : request) (w : world) :
  exists resp, fst (run_view (convert_tiff_to_png req) w) = Ok resp.
Proof.
  unfold run_view, convert_tiff_to_png.
  match goal with
  | |- context [try_ ?m ?c ?w] =>
      destruct (m w) as [ob wb] eqn:Hbody; rewrite (try_eq m c _ _ _ Hbody)
  end.
  destruct ob; eexists; reflexivity.
Qed.

(** What is not caught by a more specific clause ends in the last one: a
    failure of the parsing of the upload, for one. *)
Lemma unhandled_answers (req : request) (e : exn) :
  files req = Raise e ->
  (is_multipart req = true ->
   forall format,
     mem (normalize_format format) allowed = true ->
     fst (run_view (export_figure format req) world0)
     = Ok (export_failed "multipart_unhandled" 500))
  /\ fst (run_view (convert_tiff_to_png req) world0)
     = Ok (jsonify [("error", JStr "unhandled")] 500).
Proof.
  intros Hfiles. split.
  - intros Hmp format Hfmt. unfold export_figure. fold (is_multipart req).
    rewrite Hmp, Hfmt. cbn [negb].
    unfold run_view, export_multipart, get_upload. rewrite Hfiles. reflexivity.
  - unfold run_view, convert_tiff_to_png, get_upload. rewrite Hfiles. reflexivity.
Qed.

End TiffRuns.


Lemma secondary_reads_whole_stream_witness :
  snd (image_open (Libs := Demo.scripted Demo.exotic_tiff) Demo.tiff_bytes 0%nat) = 4%nat
  /\ Demo.tiff_bytes = stream_data (Demo.upload_of Demo.tiff_bytes)
  /\ Ok Demo.gray16 = tiff_asarray (Libs := Demo.scripted Demo.exotic_tiff) Demo.tiff_bytes
  /\ exists pre post,
       events (snd (run_view
                      (convert_tiff_to_png (L := Demo.scripted Demo.exotic_tiff)
                         (Demo.multipart Demo.tiff_bytes [])) world0))
       = (pre ++ [EvStreamSeek 0; EvTiffRead Demo.tiff_bytes (Ok Demo.gray16)] ++ post)%list.
Proof.
  split; [reflexivity|].
  refine (proj1 (secondary_reads_whole_stream (L := Demo.scripted Demo.exotic_tiff)
                   (Demo.multipart Demo.tiff_bytes []) (Demo.upload_of Demo.tiff_bytes)
                   _ _ eq_refl eq_refl) Demo.tiff_bytes (Ok Demo.gray16) _).
  vm_compute. tauto.
Defined.

Lemma missing_tifffile_fails_at_once_witness :
  fst (run_view (convert_tiff_to_png (L := Demo.scripted Demo.no_tifffile)
                   (Demo.multipart Demo.tiff_bytes [])) world0)
  = Ok (jsonify [("error", JStr "tiff_decode_failed");
                 ("details", JStr "server_missing_tifffile")] 500)
  /\ forall visible res,
       ~ In (EvTiffRead visible res)
           (events (snd (run_view
                           (convert_tiff_to_png (L := Demo.scripted Demo.no_tifffile)
                              (Demo.multipart Demo.tiff_bytes [])) world0))).
Proof.
  destruct (missing_tifffile_fails_at_once (L := Demo.scripted Demo.no_tifffile)
              (Demo.multipart Demo.tiff_bytes []) _ _
              (mkExn ImportError "No module named 'tifffile'") eq_refl)
    as (Hr & _ & Hread & _).
  - vm_compute. tauto.
  - split; [exact Hr|exact Hread].
Defined.

(** C7, as the specification has it, fails: with tifffile missing the
    response carries [tiff_decode_failed] and [server_missing_tifffile],
    and [server_missing_dependency] is in none of its fields. *)
Lemma missing_dependency_tag_differs :
  fst (run_view (convert_tiff_to_png (L := Demo.scripted Demo.no_tifffile)
                   (Demo.multipart Demo.tiff_bytes [])) world0)
  = Ok (jsonify [("error", JStr "tiff_decode_failed");
                 ("details", JStr "server_missing_tifffile")] 500)
  /\ ~ (forall (L : Libs) (req : request) (r : result response) (w : world) (e : exn),
          run_view (convert_tiff_to_png req) world0 = (r, w) ->
          In (EvImport (Raise e)) (events w) ->
          exists fields,
            r = Ok (jsonify fields 500)
            /\ In (JStr "server_missing_dependency") (map snd fields)).
Proof.
  split; [reflexivity|].
  intros H.
  destruct (H (Demo.scripted Demo.no_tifffile) (Demo.multipart Demo.tiff_bytes []) _ _
              (mkExn ImportError "No module named 'tifffile'") eq_refl)
    as (fields & Hr & Hin).
  - vm_compute. tauto.
  - cbn in Hr. unfold jsonify in Hr. injection Hr as <-.
    cbn in Hin. destruct Hin as [Hin|[Hin|[]]]; discriminate Hin.
Qed.

(** ** Exceptions on the legacy path (C9) *)

(** C9 fails on the legacy path, which has no last [except] clause: a JSON
    body that is a list, a [canvasDataUrl] that is a number and a [dpi]
    that is infinite each raise an exception that leaves [export_figure],
    so that the handler builds no response. *)
Theorem legacy_exception_leaves_handler :
  run_view (export_figure (L := Demo.scripted Demo.fine) "png"
              (Demo.json_request (JArr [JInt 1]))) world0
  = (Raise (mkExn AttributeError "'list' object has no attribute 'get'"),
     mkWorld 0 [EvGetJson])
  /\ fst (run_view (export_figure (L := Demo.scripted Demo.fine) "png"
                      (Demo.json_request (JObj [("canvasDataUrl", JInt 5)]))) world0)
     = Raise (mkExn TypeError "argument of type 'int' is not iterable")
  /\ fst (run_view (export_figure (L := Demo.scripted Demo.fine) "png"
                      (Demo.json_request
                         (Demo.canvas [("dpi", JFloat (S754_infinity false))]))) world0)
     = Raise (mkExn OverflowError "cannot convert float infinity to integer").
Proof. repeat split. Qed.

(** ** The 8-bit normalization (C5) *)

Lemma astype_float32_floats (a : ndarray) :
  map float_of (data (astype_float32 a)) = map (Spec.sample32 a) (data a)
  /\ shape (astype_float32 a) = shape a.
Proof.
  unfold astype_float32, Spec.sample32.
  destruct (dtype_eqb (dtype_of a) float32); cbn [data shape].
  - split; reflexivity.
  - split; [|reflexivity]. rewrite map_map. reflexivity.
Qed.

Lemma amin_floats (a : ndarray) :
  amin a = match map float_of (data a) with
           | [] => Raise (empty_reduction "minimum")
           | x :: l => Ok (round_to prec64 emax64 (fold_left fmin l x))
           end.
Proof. unfold amin. destruct (data a); reflexivity. Qed.

Lemma amax_floats (a : ndarray) :
  amax a = match map float_of (data a) with
           | [] => Raise (empty_reduction "maximum")
           | x :: l => Ok (round_to prec64 emax64 (fold_left fmax l x))
           end.
Proof. unfold amax. destruct (data a); reflexivity. Qed.

Lemma rescale_floats (a : ndarray) (mn factor : Py.float64) :
  astype_uint8 (clip (mul_scalar (sub_scalar a mn) factor))
  = mkArray uint8 (shape a)
      (map (fun f => SInt (uint8_of_float (Spec.rescaled mn factor f)))
         (map float_of (data a))).
Proof.
  unfold astype_uint8, clip, mul_scalar, sub_scalar, Spec.rescaled. cbn [data shape dtype_of].
  rewrite !map_map. reflexivity.
Qed.

Lemma uint8_of_float_range (f : spec_float) : 0 <= uint8_of_float f <= 255.
Proof.
  unfold uint8_of_float. destruct f as [s|s| |s m e]; try lia.
  match goal with |- _ <= ?x mod 256 <= _ => pose proof (Z.mod_pos_bound x 256) end. lia.
Qed.

Lemma SFltb_irrefl (f : spec_float) : SFltb f f = false.
Proof.
  unfold SFltb, SFcompare. destruct f as [s|s| |s m e]; try reflexivity.
  - destruct s; reflexivity.
  - destruct s; rewrite Z.compare_refl, Pos.compare_cont_refl; reflexivity.
Qed.

(** C5, as the code has it.  [to_uint8] is the normalization of the
    specification with the step to the integer done by dropping the
    fraction: an array that is 8-bit unsigned already is returned as it
    is; another array gives an 8-bit array of the same shape with samples
    in [[0, 255]]; and where the maximum is not greater than the minimum,
    in particular where they are equal, that array is all zero and no
    division takes place. *)
Theorem to_uint8_normalizes (a : ndarray) :
  to_uint8 a = Spec.normalize uint8_of_float a
  /\ (dtype_of a = uint8 -> to_uint8 a = Ok a)
  /\ (forall b,
        dtype_of a <> uint8 -> to_uint8 a = Ok b ->
        dtype_of b = uint8 /\ shape b = shape a
        /\ forall x, In x (data b) -> exists z, x = SInt z /\ 0 <= z <= 255)
  /\ (forall mn mx,
        dtype_of a <> uint8 ->
        amin (astype_float32 a) = Ok mn -> amax (astype_float32 a) = Ok mx ->
        float_gt mx mn = false ->
        to_uint8 a = Ok (zeros_like_uint8 a))
  /\ (forall m,
        dtype_of a <> uint8 ->
        amin (astype_float32 a) = Ok m -> amax (astype_float32 a) = Ok m ->
        to_uint8 a = Ok (zeros_like_uint8 a)).
Proof.
  assert (Hrefine : to_uint8 a = Spec.normalize uint8_of_float a).
  { unfold to_uint8, Spec.normalize.
    destruct (dtype_eqb (dtype_of a) uint8); [reflexivity|].
    destruct (astype_float32_floats a) as [Hdata Hshape].
    rewrite amin_floats, amax_floats, Hdata.
    destruct (map (Spec.sample32 a) (data a)) as [|x l] eqn:Hsamples; [reflexivity|].
    cbn [and_then].
    destruct (float_gt _ _); cbn [negb].
    - destruct (float_div _ _) as [factor|e]; [|reflexivity]. cbn [and_then].
      rewrite rescale_floats, Hdata, Hshape, <- Hsamples, map_map. reflexivity.
    - unfold zeros_like_uint8. rewrite Hshape. reflexivity. }
  assert (Hflat : forall mn mx,
             dtype_of a <> uint8 ->
             amin (astype_float32 a) = Ok mn -> amax (astype_float32 a) = Ok mx ->
             float_gt mx mn = false ->
             to_uint8 a = Ok (zeros_like_uint8 a)).
  { intros mn mx Hdt Hmn Hmx Hgt. unfold to_uint8.
    destruct (dtype_eqb (dtype_of a) uint8) eqn:Heq.
    { exfalso. apply Hdt. destruct (dtype_of a); try discriminate Heq. reflexivity. }
    rewrite Hmn, Hmx. cbn [and_then]. rewrite Hgt. cbn [negb].
    unfold zeros_like_uint8. rewrite (proj2 (astype_float32_floats a)). reflexivity. }
  split; [exact Hrefine|]. split; [|split; [|split; [exact Hflat|]]].
  - intros Hdt. unfold to_uint8. rewrite Hdt. reflexivity.
  - intros b Hdt Hb. rewrite Hrefine in Hb. unfold Spec.normalize in Hb.
    destruct (dtype_eqb (dtype_of a) uint8) eqn:Heq.
    { exfalso. apply Hdt. destruct (dtype_of a); try discriminate Heq. reflexivity. }
    destruct (map (Spec.sample32 a) (data a)) as [|x l]; [discriminate Hb|].
    cbv zeta in Hb.
    destruct (float_gt _ _).
    + destruct (float_div _ _) as [factor|e]; [|discriminate Hb].
      cbn [and_then] in Hb. injection Hb as <-. cbn [dtype_of shape data].
      repeat split. intros y Hy. apply in_map_iff in Hy. destruct Hy as (s & <- & _).
      eexists. split; [reflexivity|]. apply uint8_of_float_range.
    + injection Hb as <-. cbn [dtype_of shape data].
      repeat split. intros y Hy. apply repeat_spec in Hy. subst y.
      exists 0. split; [reflexivity|lia].
  - intros m Hdt Hmn Hmx. apply (Hflat m m Hdt Hmn Hmx).
    unfold float_gt. apply SFltb_irrefl.
Qed.

Lemma to_uint8_normalizes_witness :
  to_uint8 (mkArray uint16 [2; 2]%nat [SInt 700; SInt 700; SInt 700; SInt 700])
  = Ok (mkArray uint8 [2; 2]%nat [SInt 0; SInt 0; SInt 0; SInt 0])
  /\ to_uint8 (mkArray uint8 [2]%nat [SInt 3; SInt 250])
     = Ok (mkArray uint8 [2]%nat [SInt 3; SInt 250]).
Proof.
  pose proof (to_uint8_normalizes
                (mkArray uint16 [2; 2]%nat [SInt 700; SInt 700; SInt 700; SInt 700]))
    as (_ & _ & _ & _ & Hflat).
  pose proof (to_uint8_normalizes (mkArray uint8 [2]%nat [SInt 3; SInt 250]))
    as (_ & Hsame & _).
  split.
  - refine (Hflat (float64_of_Z 700) _ eq_refl eq_refl). discriminate.
  - exact (Hsame eq_refl).
Defined.

(** C5, as the specification has it, fails.  In a 16-bit image of one row
    the samples 0, 1 and 256 are rescaled to 0, 255/256 and 255; the code
    gives 0, 0 and 255, where rounding gives 0, 1 and 255. *)
Lemma to_uint8_truncates :
  to_uint8 (mkArray uint16 [1; 3]%nat [SInt 0; SInt 1; SInt 256])
  = Ok (mkArray uint8 [1; 3]%nat [SInt 0; SInt 0; SInt 255])
  /\ Spec.normalize Spec.nearest_uint8 (mkArray uint16 [1; 3]%nat [SInt 0; SInt 1; SInt 256])
     = Ok (mkArray uint8 [1; 3]%nat [SInt 0; SInt 1; SInt 255])
  /\ Spec.rescaled (float64_of_Z 0) (SFdiv prec64 emax64 (float64_of_Z 255) (float64_of_Z 256))
       (float32_of_Z 1)
     = SFdiv prec32 emax32 (float32_of_Z 255) (float32_of_Z 256)
  /\ to_uint8 (mkArray uint16 [1; 3]%nat [SInt 0; SInt 1; SInt 256])
     <> Spec.normalize Spec.nearest_uint8
          (mkArray uint16 [1; 3]%nat [SInt 0; SInt 1; SInt 256]).
Proof.
  split; [vm_compute; reflexivity|]. split; [vm_compute; reflexivity|].
  split; [vm_compute; reflexivity|].
  vm_compute. discriminate.
Qed.

(** * More of the handlers *)

Import Trace RunTactics.

Section ExportExtras.

Context {L : Libs}.

Lemma exported_status (req : request) (fmt : string) (out : list byte) :
  status (exported req fmt out) = 200.
Proof.
  unfold exported. destruct (String.eqb _ _); reflexivity.
Qed.

Lemma export_run_saved_iff (format : string) (req : request) (tr : list event)
    (resp : response) :
  export_run format req tr (Ok resp) ->
  (status resp = 200 <-> exists img a out, In (EvSave img a (Ok out)) tr)
  /\ (status resp = 200 \/ status resp = 400 \/ status resp = 500).
Proof.
  intros Hrun. invert_runs;
    try match goal with
      | H : legacy_input _ = Return _ |- _ => rewrite (legacy_input_status _ _ H)
      end;
    rewrite ?exported_status, ?open_failed_status;
    cbn [status export_failed jsonify].
  all: (split; [split|]).
  all: try (intros Hst; discriminate Hst).
  all: try (intros (img0 & a0 & out0 & Hin); exfalso; in_cases Hin; discriminate Hin).
  all: try (intros _; do 3 eexists; cbn; eauto 10; fail).
  all: try (intros; reflexivity).
  all: auto.
Qed.

Lemma mime_of_allowed (fmt : string) :
  mem fmt allowed = true ->
  exists mime, assoc fmt mime_map = Some mime /\ get_or mime_map fmt "" = mime.
Proof.
  intros Hfmt. apply existsb_exists in Hfmt. destruct Hfmt as [y [Hy He]].
  apply String.eqb_eq in He. subst y. cbn [In allowed] in Hy.
  repeat (destruct Hy as [Hy|Hy]; [subst fmt; eexists; split; reflexivity|]).
  contradiction.
Qed.

(** ** The answer of a successful export *)

(** X1. When [img.save] gives the encoded bytes, they are the last thing
    that happens and the handler answers 200: with [mode=json] in the query
    a JSON object of [ok], the format and the base64 text of the bytes;
    otherwise the bytes as the download [figure.<format>], with the MIME
    type of the format and [Cache-Control: no-transform]. *)
Theorem export_success_response
    (format : string) (req : request) (r : result response) (w : world)
    (img : image) (a : save_args) (out : list byte) :
  run_view (export_figure format req) world0 = (r, w) ->
  In (EvSave img a (Ok out)) (events w) ->
  exists mime pre,
    assoc (normalize_format format) mime_map = Some mime
    /\ events w = (pre ++ [EvSave img a (Ok out)])%list
    /\ r = Ok (if String.eqb (get_or (args req) "mode" "") "json"
               then jsonify [("ok", JBool true);
                             ("format", JStr (normalize_format format));
                             ("base64", JStr (b64encode out))] 200
               else mkResponse 200
                      (File out mime ("figure." ++ normalize_format format))
                      [("Cache-Control", "no-transform")]).
Proof.
  intros Hrun Hin. apply export_figure_runs in Hrun.
  destruct (export_saves _ _ _ _ _ _ _ Hrun Hin)
    as (pre & stream & img0 & conv & dpi & Htr & _ & _ & _ & _ & Hr & Hfmt).
  destruct (mime_of_allowed _ Hfmt) as (mime & Hmime & Hget).
  exists mime, (pre ++ [EvOpen stream 0 (Ok img0); EvLoad img0 (Ok tt)] ++ conv)%list.
  split; [exact Hmime|]. split.
  - rewrite Htr. cbn [ending fst]. rewrite app_nil_r, <- !app_assoc. reflexivity.
  - rewrite Hr. cbn [ending snd]. unfold exported. rewrite Hget. reflexivity.
Qed.

(** ** The arguments of the encoder *)

(** X2. Every call of [img.save] in an export has the arguments of the
    requested format and of no other: TIFF with the resolution twice and
    LZW compression, PDF with the resolution alone, JPEG with the
    resolution twice and a quality, PNG with the resolution twice; the
    resolution is between 50 and 2400 and the quality between 40 and 95. *)
Theorem export_save_arguments
    (format : string) (req : request) (r : result response) (w : world)
    (img : image) (a : save_args) (res : result (list byte)) :
  run_view (export_figure format req) world0 = (r, w) ->
  In (EvSave img a res) (events w) ->
  exists dpi quality,
    50 <= dpi <= 2400 /\ 40 <= quality <= 95
    /\ ((normalize_format format = "tiff"
         /\ a = mkSave "TIFF" (Some (dpi, dpi)) None (Some "tiff_lzw") None)
        \/ (normalize_format format = "pdf"
            /\ a = mkSave "PDF" None (Some dpi) None None)
        \/ (normalize_format format = "jpeg"
            /\ a = mkSave "JPEG" (Some (dpi, dpi)) None None (Some quality))
        \/ (normalize_format format = "png"
            /\ a = mkSave "PNG" (Some (dpi, dpi)) None None None)).
Proof.
  intros Hrun Hin. apply export_figure_runs in Hrun.
  destruct (export_saves _ _ _ _ _ _ _ Hrun Hin)
    as (pre & stream & img0 & conv & dpi & _ & _ & _ & -> & Hdpi & _ & Hfmt).
  exists dpi, (path_quality (normalize_format format) req).
  split.
  { eapply effective_bounds; [|exact (path_dpi_effective _ _ Hdpi)]. lia. }
  split.
  { unfold path_quality, multipart_quality.
    destruct (is_multipart req); [|lia].
    destruct (String.eqb _ _); [|lia].
    rewrite clamp_quality_spec. apply clamp_bounds. lia. }
  apply existsb_exists in Hfmt. destruct Hfmt as [y [Hy He]].
  apply String.eqb_eq in He. subst y. cbn [In allowed] in Hy.
  destruct Hy as [Hy|[Hy|[Hy|[Hy|[]]]]]; rewrite <- Hy; cbn; auto 6.
Qed.

(** ** Images that do not decode *)

(** X3. When [Image.open] or [img.load()] raises, nothing more happens and
    the handler answers 400: [unidentified_image] for
    [UnidentifiedImageError], [image_open:] and the text of the exception
    for every other one. *)
Theorem decode_failure_response
    (format : string) (req : request) (r : result response) (w : world)
    (ev : event) (e : exn) :
  run_view (export_figure format req) world0 = (r, w) ->
  In ev (events w) ->
  (exists stream p, ev = EvOpen stream p (Raise e)) \/ (exists img, ev = EvLoad img (Raise e)) ->
  r = Ok (export_failed
            (if isinstance e UnidentifiedImageError then "unidentified_image"
             else "image_open:" ++ exn_msg e) 400)
  /\ (exists pre, events w = (pre ++ [ev])%list)
  /\ count is_processing (events w) = 0%nat.
Proof.
  intros Hrun Hin Hev. apply export_figure_runs in Hrun.
  destruct w as [pw evs]. cbn [events] in *.
  assert (Hfail : forall e0, Ok (open_failed e0)
                  = Ok (export_failed
                          (if isinstance e0 UnidentifiedImageError then "unidentified_image"
                           else "image_open:" ++ exn_msg e0) 400)).
  { intros e0. unfold open_failed. destruct (isinstance e0 _); reflexivity. }
  invert_runs; in_cases Hin; subst ev;
    destruct Hev as [(s0 & p0 & Hev)|(i0 & Hev)]; try discriminate Hev;
    inversion Hev; subst.
  all: rewrite ?Hfail.
  all: split; [reflexivity|]; split; [|reflexivity].
  all: try (exists []; reflexivity).
  all: try (eexists [_]; reflexivity).
  all: try (eexists [_; _]; reflexivity).
Qed.

(** ** What an answer says about the run *)

(** X4. An export answers 200, 400 or 500, and it answers 200 exactly when
    [img.save] gave the encoded bytes. *)
Theorem export_ok_iff_saved
    (format : string) (req : request) (resp : response) (w : world) :
  run_view (export_figure format req) world0 = (Ok resp, w) ->
  (status resp = 200 <-> exists img a out, In (EvSave img a (Ok out)) (events w))
  /\ (status resp = 200 \/ status resp = 400 \/ status resp = 500).
Proof.
  intros Hrun. apply export_figure_runs in Hrun.
  exact (export_run_saved_iff _ _ _ _ Hrun).
Qed.

(** X5. An export that answers 400 has converted and encoded nothing, and
    has logged no exception: what is wrong with the request is found
    before the image is worked on. *)
Theorem client_errors_before_processing
    (format : string) (req : request) (resp : response) (w : world) :
  run_view (export_figure format req) world0 = (Ok resp, w) ->
  status resp = 400 ->
  count is_processing (events w) = 0%nat
  /\ count is_exception_log (events w) = 0%nat.
Proof.
  intros Hrun Hst. apply export_figure_runs in Hrun.
  destruct w as [pw evs]. cbn [events] in *.
  invert_runs; try discriminate Hst;
    try (rewrite exported_status in Hst; discriminate Hst);
    split; reflexivity.
Qed.

(** X6. An export answers 500 exactly when it has logged an exception, and
    then the log entry is the last event. *)
Theorem server_errors_are_logged
    (format : string) (req : request) (resp : response) (w : world) :
  run_view (export_figure format req) world0 = (Ok resp, w) ->
  (status resp = 500 <-> count is_exception_log (events w) = 1%nat)
  /\ (count is_exception_log (events w) <= 1)%nat
  /\ (forall msg e, In (EvLogException msg e) (events w) ->
      exists pre, events w = (pre ++ [EvLogException msg e])%list).
Proof.
  intros Hrun. apply export_figure_runs in Hrun.
  destruct w as [pw evs]. cbn [events] in *.
  invert_runs;
    try match goal with
      | H : legacy_input _ = Return _ |- _ => rewrite (legacy_input_status _ _ H)
      end;
    rewrite ?exported_status, ?open_failed_status;
    cbn [status export_failed jsonify count filter is_exception_log app List.length].
  all: split; [split; intros Hs; first [discriminate Hs|reflexivity]|].
  all: split; [lia|].
  all: intros msg0 e0 Hin; in_cases Hin; try discriminate Hin; inversion Hin; subst.
  all: try (exists []; reflexivity).
  all: try (eexists [_]; reflexivity).
  all: try (eexists [_; _]; reflexivity).
  all: try (eexists [_; _; _]; reflexivity).
  all: try (eexists [_; _; _; _]; reflexivity).
  all: try (eexists [_; _; _; _; _]; reflexivity).
Qed.

(** X7. An export calls [img.save] at most once and [img.convert] at most
    once, it never imports tifffile, never rewinds the stream and never
    reads with tifffile. *)
Theorem export_encodes_once
    (format : string) (req : request) (r : result response) (w : world) :
  run_view (export_figure format req) world0 = (r, w) ->
  (count is_save (events w) <= 1)%nat
  /\ (count is_convert (events w) <= 1)%nat
  /\ count is_tifffile_use (events w) = 0%nat.
Proof.
  intros Hrun. apply export_figure_runs in Hrun.
  destruct w as [pw evs]. cbn [events] in *.
  invert_runs; cbn; repeat split; lia.
Qed.

(** ** What each path leaves unread *)

(** X8. On the multipart path the JSON body is never looked at, and on
    the legacy path neither the uploads nor the form fields are: the
    handler does the same whatever they hold. *)
Theorem paths_ignore_other_input (format : string) (req : request) :
  (is_multipart req = true ->
   forall body w,
     export_figure format (with_json req body) w = export_figure format req w)
  /\ (is_multipart req = false ->
      forall fs fields w,
        export_figure format (with_upload req fs fields) w = export_figure format req w).
Proof.
  destruct req as [ct fs0 fm ar jb]. unfold is_multipart, with_json, with_upload.
  cbn [content_type files form args json_body].
  split; intros Hmp; intros; unfold export_figure, is_multipart;
    cbn [content_type]; rewrite Hmp;
    destruct (negb (mem (normalize_format format) allowed)); reflexivity.
Qed.

(** ** Requests without an upload *)

(** X9. When the field [image] is absent from the uploads, or is there
    with an empty file name, the multipart export and the conversion
    answer 400 with [missing_file] and call no library. *)
Theorem missing_upload_rejected
    (req : request) (fs : list (string * upload)) :
  files req = Ok fs ->
  assoc "image" fs = None
  \/ (exists u, assoc "image" fs = Some u /\ filename u = "") ->
  (forall format,
      is_multipart req = true ->
      mem (normalize_format format) allowed = true ->
      run_view (export_figure format req) world0
      = (Ok (export_failed "missing_file" 400), world0))
  /\ run_view (convert_tiff_to_png req) world0
     = (Ok (jsonify [("error", JStr "missing_file")] 400), world0).
Proof.
  intros Hfiles Himage.
  assert (Hup : get_upload req = Ok None).
  { unfold get_upload. rewrite Hfiles. cbn [and_then].
    destruct Himage as [->|(u & -> & ->)]; reflexivity. }
  split.
  - intros format Hmp Hfmt. unfold export_figure. fold (is_multipart req).
    rewrite Hmp, Hfmt. cbn [negb]. unfold run_view, export_multipart.
    rewrite Hup. reflexivity.
  - unfold run_view, convert_tiff_to_png. rewrite Hup. reflexivity.
Qed.

(** ** The data URL of the legacy path *)

(** X10. On the legacy path, whatever [Image.open] is given is the base64
    decoding of the text after the first comma of [canvasDataUrl], a
    string of the JSON body; the stream is new, at position 0. *)
Theorem legacy_decodes_after_first_comma
    (format : string) (req : request) (r : result response) (w : world)
    (stream : list byte) (p : nat) (opened : result image) :
  is_multipart req = false ->
  run_view (export_figure format req) world0 = (r, w) ->
  In (EvOpen stream p opened) (events w) ->
  exists items header encoded,
    json_body req = Ok (JObj items)
    /\ assoc "canvasDataUrl" items = Some (JStr (header ++ "," ++ encoded))
    /\ contains "," header = false
    /\ b64decode encoded = Ok stream
    /\ p = 0%nat.
Proof.
  intros Hmp Hrun Hin. apply export_figure_runs in Hrun.
  destruct w as [pw evs]. cbn [events] in *.
  assert (Hgoal : forall data image_data,
             legacy_input req = Val (data, image_data) ->
             stream = image_data -> p = 0%nat ->
             exists items header encoded,
               json_body req = Ok (JObj items)
               /\ assoc "canvasDataUrl" items = Some (JStr (header ++ "," ++ encoded))
               /\ contains "," header = false
               /\ b64decode encoded = Ok stream
               /\ p = 0%nat).
  { intros data image_data Hinp -> ->.
    destruct (legacy_input_url _ _ _ Hinp) as (items & s & Hbody & Hurl & Hcomma & Hb).
    destruct (split_comma_spec s Hcomma) as [Hs Hno].
    exists items, (fst (split_comma s)), (snd (split_comma s)).
    rewrite <- Hs. repeat split; assumption. }
  inversion Hrun as [Hfmt|tr0 r0 Hfmt Hmp' Hmr|tr0 r0 Hfmt Hmp' Hlr]; subst.
  - destruct Hin.
  - rewrite Hmp in Hmp'. discriminate Hmp'.
  - clear Hrun. invert_runs; in_cases Hin; try discriminate Hin;
      inversion Hin; subst; eapply Hgoal; eauto.
Qed.

Lemma legacy_input_returns
    (format : string) (req : request) (r : result response) (w : world) (resp : response) :
  is_multipart req = false ->
  legacy_input req = Return resp ->
  mem (normalize_format format) allowed = true ->
  run_view (export_figure format req) world0 = (r, w) ->
  r = Ok resp /\ events w = [EvGetJson].
Proof.
  intros Hmp Hinp Hfmt Hrun. apply export_figure_runs in Hrun.
  destruct w as [pw evs]. cbn [events] in *.
  inversion Hrun as [Hfmt'|tr0 r0 Hfmt' Hmp' Hmr|tr0 r0 Hfmt' Hmp' Hlr]; subst.
  - rewrite Hfmt in Hfmt'. discriminate Hfmt'.
  - rewrite Hmp in Hmp'. discriminate Hmp'.
  - inversion Hlr; subst;
      match goal with
      | H : legacy_input req = _ |- _ => rewrite Hinp in H; inversion H; subst
      end.
    split; reflexivity.
Qed.

(** X11. On the legacy path, a body that is falsy (so that [{}] takes its
    place), or an object whose [canvasDataUrl] is absent, falsy, or without
    a comma in it, is answered with 400 and
    [missing_or_invalid_canvasDataUrl]; nothing is decoded or opened. *)
Theorem legacy_invalid_data_url_rejected
    (format : string) (req : request) (v : json) (r : result response) (w : world) :
  is_multipart req = false ->
  mem (normalize_format format) allowed = true ->
  json_body req = Ok v ->
  truthy v = false
  \/ (exists items,
         v = JObj items
         /\ (assoc "canvasDataUrl" items = None
             \/ exists url,
                 assoc "canvasDataUrl" items = Some url
                 /\ (truthy url = false \/ py_in "," url = Ok false))) ->
  run_view (export_figure format req) world0 = (r, w) ->
  r = Ok (export_failed "missing_or_invalid_canvasDataUrl" 400)
  /\ events w = [EvGetJson].
Proof.
  intros Hmp Hfmt Hbody Hbad Hrun.
  refine (legacy_input_returns format req r w _ Hmp _ Hfmt Hrun).
  unfold legacy_input. rewrite Hbody.
  destruct Hbad as [Hfalsy|(items & -> & Hurl)].
  - rewrite Hfalsy. reflexivity.
  - destruct (truthy (JObj items)) eqn:Hitems.
    2:{ reflexivity. }
    cbn [py_get].
    destruct Hurl as [->|(url & -> & [Hfalsy|Hcomma])].
    + reflexivity.
    + rewrite Hfalsy. reflexivity.
    + destruct (truthy url); cbn [negb]; [|reflexivity]. rewrite Hcomma. reflexivity.
Qed.

(** X12. On the legacy path a body that cannot be read as JSON is
    answered with 400 and [bad_json:] followed by the exception's text, and
    a [canvasDataUrl] with a comma whose split or base64 decoding raises
    with 400 and [base64_decode:] followed by the exception's text; nothing
    is opened. *)
Theorem legacy_unreadable_input_rejected
    (format : string) (req : request) (e : exn) (details : string)
    (r : result response) (w : world) :
  is_multipart req = false ->
  mem (normalize_format format) allowed = true ->
  (json_body req = Raise e /\ details = "bad_json:" ++ exn_msg e)
  \/ (exists items url,
         json_body req = Ok (JObj items)
         /\ assoc "canvasDataUrl" items = Some url
         /\ truthy url = true
         /\ py_in "," url = Ok true
         /\ and_then (py_split_comma url) (fun parts => b64decode (snd parts)) = Raise e
         /\ details = "base64_decode:" ++ exn_msg e) ->
  run_view (export_figure format req) world0 = (r, w) ->
  r = Ok (export_failed details 400) /\ events w = [EvGetJson].
Proof.
  intros Hmp Hfmt Hbad Hrun.
  refine (legacy_input_returns format req r w _ Hmp _ Hfmt Hrun).
  unfold legacy_input.
  destruct Hbad as [[-> ->]|(items & url & -> & Hurl & Htruthy & Hcomma & Hsplit & ->)].
  - reflexivity.
  - destruct (truthy (JObj items)) eqn:Hitems.
    2:{ destruct items; [discriminate Hurl|discriminate Hitems]. }
    cbn [py_get]. rewrite Hurl, Htruthy. cbn [negb]. rewrite Hcomma, Hsplit. reflexivity.
Qed.

End ExportExtras.

(** ** [convert_tiff_to_png] *)

Section TiffExtras.

Context {L : Libs}.

Lemma rgb_modes_mem (m : string) :
  mem m rgb_modes = true -> m = "RGB" \/ m = "RGBA".
Proof.
  intros H. apply existsb_exists in H. destruct H as [y [Hy He]].
  apply String.eqb_eq in He. subst y. cbn [In rgb_modes] in Hy.
  destruct Hy as [<-|[<-|[]]]; auto.
Qed.

(** X13. A conversion never lets an exception out, and its answer is one
    of three.  Either a PNG was encoded: the save is the last event, the
    only one that gave bytes, nothing was logged as an exception, and the
    answer is 200 with the base64 text of these bytes.  Or there is no
    upload: nothing happened and the answer is 400 [missing_file].  Or the
    answer is 500: no save gave bytes, and the one exception that was
    logged is the last event. *)
Theorem convert_tiff_answer (req : request) (r : result response) (w : world) :
  run_view (convert_tiff_to_png req) world0 = (r, w) ->
  exists resp,
    r = Ok resp
    /\ ((exists pre img out,
            events w = (pre ++ [EvSave img png_args (Ok out)])%list
            /\ count is_saved pre = 0%nat
            /\ count is_exception_log pre = 0%nat
            /\ resp = jsonify [("ok", JBool true); ("format", JStr "png");
                               ("base64", JStr (b64encode out))] 200)
        \/ (events w = []
            /\ get_upload req = Ok None
            /\ resp = jsonify [("error", JStr "missing_file")] 400)
        \/ (exists pre msg e,
               events w = (pre ++ [EvLogException msg e])%list
               /\ count is_saved pre = 0%nat
               /\ count is_exception_log pre = 0%nat
               /\ status resp = 500)).
Proof.
  intros Hrun. apply convert_tiff_runs in Hrun. destruct Hrun as (resp & -> & Hrun).
  exists resp. split; [reflexivity|].
  destruct w as [pw evs]. cbn [events] in *.
  invert_runs; unfold fallthrough_log;
    repeat match goal with
      | |- context [isinstance ?e ?c] => destruct (isinstance e c)
      end;
    cbn [app].
  all: first
         [ right; left; repeat split; (reflexivity || assumption)
         | left; ends_with ltac:(do 2 eexists; repeat split; reflexivity)
         | right; right; ends_with ltac:(do 2 eexists; repeat split; reflexivity) ].
Qed.

(** X14. Whatever a conversion hands to the PNG encoder is an image in
    mode RGB or RGBA, and the encoder is asked for PNG with no other
    argument, given that [convert] returns an image of the mode asked
    for. *)
Theorem tiff_png_from_rgb
    (req : request) (r : result response) (w : world)
    (img : image) (a : save_args) (res : result (list byte)) :
  convert_gives_mode L ->
  run_view (convert_tiff_to_png req) world0 = (r, w) ->
  In (EvSave img a res) (events w) ->
  a = png_args /\ (mode img = "RGB" \/ mode img = "RGBA").
Proof.
  intros Hconv Hrun Hin. apply convert_tiff_runs in Hrun.
  destruct Hrun as (resp & -> & Hrun).
  destruct w as [pw evs]. cbn [events] in *.
  invert_runs; in_cases Hin;
    try (apply fallthrough_log_events in Hin; destruct Hin as [msg Hin]);
    try discriminate Hin; inversion Hin; subst.
  all: split; [reflexivity|].
  all: try (apply rgb_modes_mem; assumption).
  all: left; eapply Hconv; eassumption.
Qed.

(** X15. What the first attempt works on after [Image.open] is frame 0 of
    an image of more than one frame, as [img.seek(0)] gives it, and the
    opened image itself when there is one frame only or when the count of
    the frames or the seek raises; the next event is the first step of
    its PNG encoding. *)
Theorem first_frame_is_converted
    (req : request) (r : result response) (w : world)
    (stream : list byte) (p0 : nat) (img : image) :
  run_view (convert_tiff_to_png req) world0 = (r, w) ->
  In (EvOpen stream p0 (Ok img)) (events w) ->
  exists p frame next rest,
    image_open stream 0%nat = (Ok img, p)
    /\ events w = EvOpen stream 0 (Ok img) :: next :: rest
    /\ png_starts frame next
    /\ (forall n p1 f p2,
           image_n_frames img p = (Ok n, p1) -> 1 < n ->
           image_seek img 0 p1 = (Ok f, p2) -> frame = f)
    /\ (forall n p1 e p2,
           image_n_frames img p = (Ok n, p1) -> 1 < n ->
           image_seek img 0 p1 = (Raise e, p2) -> frame = img)
    /\ (forall n p1, image_n_frames img p = (Ok n, p1) -> n <= 1 -> frame = img)
    /\ (forall e p1, image_n_frames img p = (Raise e, p1) -> frame = img).
Proof.
  intros Hrun Hin. apply convert_tiff_runs in Hrun.
  destruct Hrun as (resp & -> & Hrun).
  destruct w as [pw evs]. cbn [events] in *.
  assert (Hframe : forall p frame,
             frame = fst (select_frame img p) ->
             (forall n p1 f p2,
                 image_n_frames img p = (Ok n, p1) -> 1 < n ->
                 image_seek img 0 p1 = (Ok f, p2) -> frame = f)
             /\ (forall n p1 e p2,
                    image_n_frames img p = (Ok n, p1) -> 1 < n ->
                    image_seek img 0 p1 = (Raise e, p2) -> frame = img)
             /\ (forall n p1, image_n_frames img p = (Ok n, p1) -> n <= 1 -> frame = img)
             /\ (forall e p1, image_n_frames img p = (Raise e, p1) -> frame = img)).
  { intros p frame ->. unfold select_frame. repeat split.
    - intros n p1 f p2 Hn Hlt Hseek. rewrite Hn.
      apply Z.ltb_lt in Hlt. rewrite Hlt, Hseek. reflexivity.
    - intros n p1 e p2 Hn Hlt Hseek. rewrite Hn.
      apply Z.ltb_lt in Hlt. rewrite Hlt, Hseek. reflexivity.
    - intros n p1 Hn Hle. rewrite Hn.
      apply Z.ltb_ge in Hle. rewrite Hle. reflexivity.
    - intros e p1 Hn. rewrite Hn. reflexivity. }
  invert_runs; in_cases Hin;
    try (apply fallthrough_log_events in Hin; destruct Hin as [msg Hin]);
    try discriminate Hin; inversion Hin; subst.
  all: match goal with
       | H : image_open _ _ = (Ok _, ?p) |- _ =>
           exists p, (fst (select_frame img p))
       end.
  all: do 2 eexists.
  all: split; [eassumption|].
  all: split; [cbn [app]; reflexivity|].
  all: split; [cbn [png_starts]; repeat split; assumption|].
  all: apply Hframe; reflexivity.
Qed.

(** X16. What tifffile reads goes through [to_uint8], the choice of the
    layout and [Image.fromarray], in this order.  If one of them raises,
    the exception is logged at once and the answer is 500 with
    [tiff_decode_failed]; otherwise the next event is the first step of
    the PNG encoding of the image that [Image.fromarray] gave. *)
Theorem tifffile_pipeline
    (req : request) (r : result response) (w : world)
    (stream : list byte) (arr : ndarray) :
  run_view (convert_tiff_to_png req) world0 = (r, w) ->
  In (EvTiffRead stream (Ok arr)) (events w) ->
  exists pre,
    match and_then (to_uint8 arr)
            (fun a8 => and_then (layout a8)
               (fun laid => image_fromarray (fst laid) (snd laid))) with
    | Raise e =>
        events w = (pre ++ [EvTiffRead stream (Ok arr);
                            EvLogException tifffile_failed_msg e])%list
        /\ r = Ok (jsonify [("error", JStr "tiff_decode_failed")] 500)
    | Ok img =>
        exists next rest,
          events w = (pre ++ EvTiffRead stream (Ok arr) :: next :: rest)%list
          /\ png_starts img next
    end.
Proof.
  intros Hrun Hin. apply convert_tiff_runs in Hrun.
  destruct Hrun as (resp & -> & Hrun).
  destruct w as [pw evs]. cbn [events] in *.
  invert_runs; in_cases Hin;
    try (apply fallthrough_log_events in Hin; destruct Hin as [msg Hin]);
    try discriminate Hin; inversion Hin; subst;
    match goal with
    | H : array_image _ = _, H' : tiff_asarray _ = Ok _ |- _ =>
        unfold array_image in H; rewrite H' in H; cbn [and_then] in H; rewrite H
    end.
  all: unfold fallthrough_log;
    repeat match goal with
      | |- context [isinstance ?e ?c] => destruct (isinstance e c)
      end;
    cbn [app].
  all: ends_with ltac:(first
         [ split; reflexivity
         | do 2 eexists; split; [reflexivity|];
           cbn [png_starts]; repeat split; assumption ]).
Qed.

End TiffExtras.

(** ** The arrays of the second attempt *)

Section ArrayExtras.

Local Open Scope nat_scope.

Lemma three_or_four_spec (n : nat) : three_or_four n = true <-> n = 3 \/ n = 4.
Proof.
  unfold three_or_four. rewrite Bool.orb_true_iff, !Nat.eqb_eq. reflexivity.
Qed.

Lemma rgb_or_rgba_spec (n : nat) :
  three_or_four n = true ->
  (rgb_or_rgba n = "RGB" /\ n = 3) \/ (rgb_or_rgba n = "RGBA" /\ n = 4).
Proof.
  intros H. apply three_or_four_spec in H. destruct H as [->| ->]; cbn; auto.
Qed.

Lemma first_of_last_axis_dtype (a b : ndarray) :
  first_of_last_axis a = Ok b -> dtype_of b = dtype_of a.
Proof.
  unfold first_of_last_axis. destruct (rev (shape a)) as [|[|c] rest]; try discriminate.
  intros H. injection H as <-. reflexivity.
Qed.

(** X17. The mode that goes to [Image.fromarray] fits the array that goes
    with it: [RGB] comes with three axes and 3 samples on the last one,
    [RGBA] with three axes and 4 samples on the last one, every other
    array is sent as [L], and a 2-D array is sent as it is; the element
    type is never changed. *)
Theorem layout_mode_fits_shape (arr a : ndarray) (m : string) :
  layout arr = Ok (a, m) ->
  dtype_of a = dtype_of arr
  /\ (ndim arr = 2 -> a = arr /\ m = "L")
  /\ (m = "L"
      \/ (m = "RGB" /\ ndim a = 3 /\ shape_at a 2 = 3)
      \/ (m = "RGBA" /\ ndim a = 3 /\ shape_at a 2 = 4)).
Proof.
  unfold layout. destruct (Nat.eqb (ndim arr) 2) eqn:H2.
  { intros H. injection H as <- <-. auto. }
  apply Nat.eqb_neq in H2.
  destruct (Nat.eqb (ndim arr) 3) eqn:H3; cbn [andb].
  - apply Nat.eqb_eq in H3.
    destruct (three_or_four (shape_at arr 2)) eqn:Hlast.
    { intros H. injection H as <- <-. split; [reflexivity|]. split; [intros Hn; exfalso; first [exact (H2 Hn)|discriminate Hn]|].
      right. destruct (rgb_or_rgba_spec _ Hlast) as [[-> ->]|[-> ->]]; auto. }
    destruct (three_or_four (shape_at arr 0)) eqn:Hfirst.
    { intros H. injection H as <- <-.
      unfold ndim in H3. unfold shape_at in Hfirst |- *.
      unfold moveaxis_first_last, ndim.
      destruct (shape arr) as [|c [|h [|w [|x rest]]]]; try discriminate H3.
      cbn [nth app dtype_of shape List.length] in *.
      split; [reflexivity|]. split; [intros Hn; exfalso; first [exact (H2 Hn)|discriminate Hn]|].
      right. destruct (rgb_or_rgba_spec _ Hfirst) as [[-> ->]|[-> ->]]; auto. }
    cbn [negb].
    destruct (Nat.eqb (ndim (squeeze arr)) 2).
    + cbn [negb and_then]. intros H. injection H as <- <-.
      (split; [reflexivity|split; [intros Hn; exfalso; exact (H2 Hn)|left; reflexivity]]).
    + cbn [negb]. destruct (first_of_last_axis (squeeze arr)) as [b|e] eqn:Hb;
        cbn [and_then]; [|discriminate].
      intros H. injection H as <- <-.
      rewrite (first_of_last_axis_dtype _ _ Hb).
      (split; [reflexivity|split; [intros Hn; exfalso; exact (H2 Hn)|left; reflexivity]]).
  - destruct (Nat.eqb (ndim (squeeze arr)) 2).
    + cbn [negb and_then]. intros H. injection H as <- <-.
      (split; [reflexivity|split; [intros Hn; exfalso; exact (H2 Hn)|left; reflexivity]]).
    + cbn [negb]. destruct (first_of_last_axis (squeeze arr)) as [b|e] eqn:Hb;
        cbn [and_then]; [|discriminate].
      intros H. injection H as <- <-.
      rewrite (first_of_last_axis_dtype _ _ Hb).
      (split; [reflexivity|split; [intros Hn; exfalso; exact (H2 Hn)|left; reflexivity]]).
Qed.

Lemma nth_flat_map_blocks {A : Type} (g : nat -> list A) (c : nat) (d : A) :
  (forall j, List.length (g j) = c) ->
  forall n s j k, j < n -> k < c ->
    nth (j * c + k) (flat_map g (seq s n)) d = nth k (g (s + j)) d.
Proof.
  intros Hlen. induction n as [|n IH]; intros s j k Hj Hk; [lia|].
  cbn [seq flat_map]. destruct j as [|j].
  - cbn [Nat.mul Nat.add]. rewrite app_nth1 by (rewrite Hlen; exact Hk).
    rewrite Nat.add_0_r. reflexivity.
  - rewrite app_nth2 by (rewrite Hlen; lia).
    rewrite Hlen. replace (S j * c + k - c) with (j * c + k) by lia.
    rewrite IH by lia. f_equal. f_equal. lia.
Qed.

(** X18. An array of three axes [(c, h, w)] whose last axis has 3 or 4
    samples is taken as interleaved, as it is, with the mode of [w]
    channels, whatever [c] is.  Otherwise, with [c] 3 or 4, it is taken as
    planar: it becomes an array [(h, w, c)] of the mode of [c] channels in
    which channel [k] of the pixel at row [i] and column [j] is the sample
    that plane [k] had at row [i] and column [j]. *)
Theorem planar_array_interleaved (arr : ndarray) (c h w : nat) :
  shape arr = [c; h; w] ->
  (three_or_four w = true -> layout arr = Ok (arr, rgb_or_rgba w))
  /\ (three_or_four w = false -> three_or_four c = true ->
      exists a,
        layout arr = Ok (a, rgb_or_rgba c)
        /\ dtype_of a = dtype_of arr
        /\ shape a = [h; w; c]
        /\ forall i j k, i < h -> j < w -> k < c ->
             sample a ((i * w + j) * c + k) = sample arr ((k * h + i) * w + j)).
Proof.
  intros Hshape. unfold layout, ndim, shape_at. rewrite Hshape.
  cbn [List.length Nat.eqb nth andb]. split.
  - intros ->. reflexivity.
  - intros -> Hc. rewrite Hc.
    unfold moveaxis_first_last. rewrite Hshape. cbn [app shape nth].
    eexists. split; [reflexivity|]. cbn [dtype_of shape].
    split; [reflexivity|]. split; [reflexivity|].
    intros i j k Hi Hj Hk. unfold sample at 1. cbn [data].
    rewrite (nth_flat_map_blocks _ c).
    + cbn [Nat.add].
      rewrite (nth_indep _ (SInt 0) (sample arr (0 * size_of [h; w] + (i * w + j))))
        by (rewrite length_map, length_seq; exact Hk).
      rewrite (map_nth (fun k0 => sample arr (k0 * size_of [h; w] + (i * w + j)))).
      rewrite seq_nth by exact Hk. cbn [size_of fold_right Nat.add].
      f_equal. nia.
    + intros j0. rewrite length_map, length_seq. reflexivity.
    + cbn [size_of fold_right]. nia.
    + exact Hk.
Qed.

Lemma filter_nil_all {A : Type} (p : A -> bool) (l : list A) :
  filter p l = [] -> Forall (fun x => p x = false) l.
Proof.
  induction l as [|x l IH]; cbn [filter]; [constructor|].
  destruct (p x) eqn:Hp; [discriminate|]. intros H. constructor; auto.
Qed.

Lemma first_of_last_axis_raises (a : ndarray) (e : exn) :
  first_of_last_axis a = Raise e ->
  exn_cls e = IndexError /\ (shape a = [] \/ In 0 (shape a)).
Proof.
  unfold first_of_last_axis. destruct (rev (shape a)) as [|[|c] rest] eqn:Hrev;
    try discriminate; intros H; injection H as <-; (split; [reflexivity|]).
  - left. apply (f_equal (@rev nat)) in Hrev. rewrite rev_involutive in Hrev. exact Hrev.
  - right. apply in_rev. rewrite Hrev. left. reflexivity.
Qed.

(** X19. The choice of the layout fails with [IndexError] only, and only
    for an array that is not 2-D and has either no axis longer than one (a
    single sample) or an axis of length 0 (no sample); and it does fail
    for every array of a single sample that is not 2-D. *)
Theorem layout_fails_on_degenerate (arr : ndarray) :
  (forall e,
      layout arr = Raise e ->
      exn_cls e = IndexError /\ ndim arr <> 2
      /\ (Forall (fun d => d = 1) (shape arr) \/ In 0 (shape arr)))
  /\ (Forall (fun d => d = 1) (shape arr) -> ndim arr <> 2 ->
      exists e, layout arr = Raise e).
Proof.
  assert (Hsq : forall e, first_of_last_axis (squeeze arr) = Raise e ->
                exn_cls e = IndexError
                /\ (Forall (fun d => d = 1) (shape arr) \/ In 0 (shape arr))).
  { intros e He. destruct (first_of_last_axis_raises _ _ He) as [Hcls Hsh].
    split; [exact Hcls|]. unfold squeeze in Hsh. cbn [shape] in Hsh.
    destruct Hsh as [Hnil|Hzero].
    - left. apply filter_nil_all in Hnil.
      eapply Forall_impl; [|exact Hnil]. cbn beta. intros d Hd.
      apply Bool.negb_false_iff in Hd. apply Nat.eqb_eq in Hd. exact Hd.
    - right. apply filter_In in Hzero. tauto. }
  split.
  - intros e. unfold layout. destruct (Nat.eqb (ndim arr) 2) eqn:H2; [discriminate|].
    apply Nat.eqb_neq in H2.
    destruct (Nat.eqb (ndim arr) 3 && three_or_four (shape_at arr 2))%bool; [discriminate|].
    destruct (Nat.eqb (ndim arr) 3 && three_or_four (shape_at arr 0))%bool; [discriminate|].
    destruct (negb (Nat.eqb (ndim (squeeze arr)) 2)); [|discriminate].
    destruct (first_of_last_axis (squeeze arr)) as [b|e0] eqn:Hb; [discriminate|].
    cbn [and_then]. intros H. injection H as <-.
    destruct (Hsq _ eq_refl) as [Hcls Hsh]. auto.
  - intros Hones H2. unfold layout.
    apply Nat.eqb_neq in H2. rewrite H2.
    assert (Hat : forall i, three_or_four (shape_at arr i) = false).
    { intros i. unfold shape_at.
      destruct (nth_in_or_default i (shape arr) 0) as [Hin| ->]; [|reflexivity].
      rewrite Forall_forall in Hones. rewrite (Hones _ Hin). reflexivity. }
    rewrite !Hat, !Bool.andb_false_r.
    assert (Hnil : shape (squeeze arr) = []).
    { unfold squeeze. cbn [shape]. clear - Hones.
      induction Hones as [|d l Hd _ IH]; [reflexivity|].
      subst d. cbn. exact IH. }
    unfold ndim at 1. rewrite Hnil. cbn [List.length Nat.eqb negb].
    unfold first_of_last_axis. rewrite Hnil. cbn [rev and_then]. eexists. reflexivity.
Qed.

Lemma fold_fmin_nan (l : list spec_float) (x : spec_float) :
  is_nan x = true \/ In S754_nan l -> is_nan (fold_left fmin l x) = true.
Proof.
  revert x. induction l as [|y l IH]; intros x [Hx|Hin]; cbn [fold_left].
  - exact Hx.
  - destruct Hin.
  - apply IH. left. unfold fmin. rewrite Hx. exact Hx.
  - destruct Hin as [->|Hin].
    + apply IH. left. unfold fmin. destruct (is_nan x) eqn:Hx; [exact Hx|reflexivity].
    + apply IH. right. exact Hin.
Qed.

Lemma fold_fmax_nan (l : list spec_float) (x : spec_float) :
  is_nan x = true \/ In S754_nan l -> is_nan (fold_left fmax l x) = true.
Proof.
  revert x. induction l as [|y l IH]; intros x [Hx|Hin]; cbn [fold_left].
  - exact Hx.
  - destruct Hin.
  - apply IH. left. unfold fmax. rewrite Hx. exact Hx.
  - destruct Hin as [->|Hin].
    + apply IH. left. unfold fmax. destruct (is_nan x) eqn:Hx; [exact Hx|reflexivity].
    + apply IH. right. exact Hin.
Qed.

Lemma float_of_astype_nan (a : ndarray) :
  In (SFloat S754_nan) (data a) ->
  In S754_nan (map float_of (data (astype_float32 a))).
Proof.
  intros Hin. unfold astype_float32.
  destruct (dtype_eqb (dtype_of a) float32); cbn [data].
  - apply in_map_iff. exists (SFloat S754_nan). split; [reflexivity|exact Hin].
  - rewrite map_map. apply in_map_iff. exists (SFloat S754_nan).
    split; [reflexivity|exact Hin].
Qed.

(** X20. One NaN among the samples of an array that is not 8-bit makes
    the whole result zero: minimum and maximum are NaN then, the maximum
    is not greater than the minimum, and the array of zeros of the same
    shape is returned. *)
Theorem nan_sample_blanks_image (a : ndarray) :
  dtype_of a <> uint8 ->
  In (SFloat S754_nan) (data a) ->
  to_uint8 a = Ok (zeros_like_uint8 a)
  /\ forall x, In x (data (zeros_like_uint8 a)) -> x = SInt 0.
Proof.
  intros Hdt Hin. split.
  2:{ intros x Hx. unfold zeros_like_uint8 in Hx. cbn [data] in Hx.
      apply repeat_spec in Hx. exact Hx. }
  unfold to_uint8.
  destruct (dtype_eqb (dtype_of a) uint8) eqn:Heq.
  { exfalso. apply Hdt. destruct (dtype_of a); try discriminate Heq. reflexivity. }
  pose proof (float_of_astype_nan a Hin) as Hnan.
  rewrite amin_floats, amax_floats.
  destruct (map float_of (data (astype_float32 a))) as [|x l]; [destruct Hnan|].
  cbn [and_then].
  assert (Hmax : is_nan (fold_left fmax l x) = true).
  { apply fold_fmax_nan. destruct Hnan as [Hx|Hl]; [left; rewrite Hx; reflexivity|right; exact Hl]. }
  destruct (fold_left fmax l x); try discriminate Hmax.
  cbn [round_to]. unfold float_gt, SFltb, SFcompare.
  assert (Hshape : zeros_like_uint8 (astype_float32 a) = zeros_like_uint8 a).
  { unfold zeros_like_uint8. rewrite (proj2 (astype_float32_floats a)). reflexivity. }
  destruct (round_to prec64 emax64 (fold_left fmin l x)); cbn [negb]; rewrite Hshape;
    reflexivity.
Qed.

End ArrayExtras.

(** ** [submit_feedback] *)

(** X21. [submit_feedback] never lets an exception out.  For a body that
    is a JSON object it logs the rating once and answers 200 with
    [success]; for every other outcome of [get_json], an exception or a
    value that is not an object, it logs nothing and answers 500 with the
    text of the exception under [details]. *)
Theorem feedback_answer
    (py_str : json -> string) (body : result json) (r : result response) (w : world) :
  run_view (Feedback.submit_feedback py_str body) world0 = (r, w) ->
  (exists items,
      body = Ok (JObj items)
      /\ r = Ok (jsonify [("success", JBool true)] 200)
      /\ events w
         = [EvLogInfo ("Feedback received rating="
                       ++ py_str match assoc "rating" items with
                                 | Some x => x
                                 | None => JNull
                                 end)])
  \/ (exists e,
         (body = Raise e
          \/ exists v, body = Ok v /\ (forall items, v <> JObj items)
                       /\ e = no_attribute v "get")
         /\ r = Ok (jsonify [("error", JStr "Failed to submit feedback");
                             ("details", JStr (exn_msg e))] 500)
         /\ events w = []).
Proof.
  unfold run_view, Feedback.submit_feedback.
  destruct body as [v|e].
  - destruct v as [| b | z | f | s | l | items];
      try (cbn; intros H; injection H as <- <-; right; eexists; split;
           [right; eexists; split; [reflexivity|]; split; [discriminate|reflexivity]
           |split; reflexivity]).
    cbn. intros H. injection H as <- <-. left. exists items. repeat split.
  - cbn. intros H. injection H as <- <-. right. exists e.
    split; [left; reflexivity|]. split; reflexivity.
Qed.

(** ** The form fields that are read *)

(** X22. Of the form fields an export reads [dpi], and [quality] when the
    format is JPEG, and no other: two sets of fields that agree on these
    give the same run. *)
Theorem form_fields_read
    (L : Libs) (format : string) (req : request) (fields : list (string * string)) :
  assoc "dpi" fields = assoc "dpi" (form req) ->
  (normalize_format format = "jpeg" ->
   assoc "quality" fields = assoc "quality" (form req)) ->
  forall w, export_figure format (with_form req fields) w = export_figure format req w.
Proof.
  intros Hdpi Hq w. destruct req as [ct fs fm ar jb].
  unfold with_form, export_figure. cbn [content_type files form args json_body] in *.
  destruct (negb (mem (normalize_format format) allowed)); [reflexivity|].
  destruct (startswith _ _); [|reflexivity].
  unfold export_multipart, get_or. cbn [form].
  rewrite Hdpi.
  destruct (String.eqb (normalize_format format) "jpeg") eqn:Hj.
  - apply String.eqb_eq in Hj. rewrite (Hq Hj). reflexivity.
  - reflexivity.
Qed.

(** ** The two paths of an export *)

Section PathExtras.

Context {L : Libs}.

(** X23. The JSON body is read on the legacy path of a supported format
    and nowhere else, and there it is read once, before anything else
    happens. *)
Theorem json_read_only_on_legacy_path
    (format : string) (req : request) (r : result response) (w : world) :
  run_view (export_figure format req) world0 = (r, w) ->
  (In EvGetJson (events w)
   <-> is_multipart req = false /\ mem (normalize_format format) allowed = true)
  /\ (In EvGetJson (events w) ->
      exists rest, events w = EvGetJson :: rest /\ ~ In EvGetJson rest).
Proof.
  intros Hrun. apply export_figure_runs in Hrun.
  destruct w as [pw evs]. cbn [events] in *.
  invert_runs.
  all: split; [split; [intros Hin|intros [Hmp Hfmt]]|intros Hin].
  all: try (exfalso; in_cases Hin; discriminate Hin).
  all: try congruence.
  all: try (split; assumption).
  all: try (left; reflexivity).
  all: eexists; (split; [reflexivity|]); intros Hin'; in_cases Hin'; discriminate Hin'.
Qed.

(** X24. An exception leaves [export_figure] on the legacy path only, and
    in four cases only: the JSON body is truthy and not an object
    ([AttributeError]); [canvasDataUrl] is truthy and cannot be searched
    for a comma ([TypeError]); [dpi] is an infinite number
    ([OverflowError]); or [img.convert] raised, which is then the last
    event.  Nothing is logged in any of them. *)
Theorem export_raises_only_on_legacy
    (format : string) (req : request) (e : exn) (w : world) :
  run_view (export_figure format req) world0 = (Raise e, w) ->
  is_multipart req = false
  /\ count is_exception_log (events w) = 0%nat
  /\ ((exists v,
          json_body req = Ok v /\ truthy v = true /\ (forall items, v <> JObj items)
          /\ e = no_attribute v "get")
      \/ (exists items url,
             json_body req = Ok (JObj items)
             /\ assoc "canvasDataUrl" items = Some url
             /\ truthy url = true
             /\ py_in "," url = Raise e)
      \/ (exists items negative,
             json_body req = Ok (JObj items)
             /\ assoc "dpi" items = Some (JFloat (S754_infinity negative))
             /\ e = mkExn OverflowError "cannot convert float infinity to integer")
      \/ (exists pre img, events w = (pre ++ [EvConvert img "RGB" (Raise e)])%list)).
Proof.
  intros Hrun. apply export_figure_runs in Hrun.
  destruct w as [pw evs]. cbn [events] in *.
  inversion Hrun as [Hfmt|tr0 r0 Hfmt Hmp Hmr|tr0 r0 Hfmt Hmp Hlr]; subst.
  split; [exact Hmp|]. clear Hrun.
  inversion Hlr as [r1 Hinp|e1 Hinp|data bytes tr r1 Hinp Hdec
                   |data bytes img dec e1 Hinp Hdec Hdpi
                   |data bytes img dec enc dpi r1 Hinp Hdec Hdpi Henc
                   |data bytes img dec enc dpi e1 Hinp Hdec Hdpi Henc]; subst; clear Hlr.
  - split; [reflexivity|].
    destruct (legacy_input_raised _ _ Hinp) as [Hbody|Hurl]; auto.
  - split; [invert_runs; reflexivity|].
    destruct (legacy_input_object _ _ _ Hinp) as (items & Hbody & ->).
    destruct (legacy_dpi_raises _ _ Hdpi) as (negative & Hinf & ->).
    right. right. left. exists items, negative. auto.
  - split; [invert_runs; reflexivity|].
    right. right. right. invert_runs.
    eexists [_; _; _], _. reflexivity.
Qed.

End PathExtras.

(** ** The extras on concrete runs *)

Lemma export_success_response_witness :
  exists mime pre,
    assoc "png" mime_map = Some mime
    /\ events (snd (run_view (export_figure (L := Demo.scripted Demo.fine) "png"
                                Cases.upload_only) world0))
       = (pre ++ [EvSave Demo.rgba_image (mkSave "PNG" (Some (600, 600)) None None None)
                    (Ok Demo.encoded)])%list
    /\ fst (run_view (export_figure (L := Demo.scripted Demo.fine) "png"
                        Cases.upload_only) world0)
       = Ok (mkResponse 200 (File Demo.encoded mime "figure.png")
               [("Cache-Control", "no-transform")]).
Proof.
  destruct (export_success_response (L := Demo.scripted Demo.fine) "png" Cases.upload_only
              _ _ Demo.rgba_image (mkSave "PNG" (Some (600, 600)) None None None)
              Demo.encoded eq_refl)
    as (mime & pre & Hmime & Hev & Hr).
  - vm_compute. tauto.
  - exists mime, pre. split; [exact Hmime|]. split; [exact Hev|exact Hr].
Defined.

Lemma export_save_arguments_witness :
  exists dpi quality,
    50 <= dpi <= 2400 /\ 40 <= quality <= 95
    /\ mkSave "JPEG" (Some (600, 600)) None None (Some 40)
       = mkSave "JPEG" (Some (dpi, dpi)) None None (Some quality).
Proof.
  destruct (export_save_arguments (L := Demo.scripted Demo.fine) "jpg"
              (Demo.multipart Demo.tiff_bytes [("quality", "10")]) _ _
              Demo.rgb_image (mkSave "JPEG" (Some (600, 600)) None None (Some 40))
              (Ok Demo.encoded) eq_refl)
    as (dpi & quality & Hdpi & Hq & Hargs).
  - vm_compute. tauto.
  - exists dpi, quality. split; [exact Hdpi|]. split; [exact Hq|].
    destruct Hargs as [[Hf _]|[[Hf _]|[[_ Ha]|[Hf _]]]];
      try (vm_compute in Hf; discriminate Hf).
    exact Ha.
Defined.

Lemma decode_failure_response_witness :
  run_view (export_figure (L := Demo.scripted Demo.no_tifffile) "png" Cases.upload_only) world0
  = (Ok (export_failed "unidentified_image" 400),
     mkWorld 4 [EvOpen Demo.tiff_bytes 0 Demo.not_identified])
  /\ fst (run_view (export_figure (L := Demo.scripted Demo.no_tifffile) "png"
                      Cases.upload_only) world0)
     = Ok (export_failed "unidentified_image" 400).
Proof.
  split; [reflexivity|].
  refine (proj1 (decode_failure_response (L := Demo.scripted Demo.no_tifffile) "png"
                   Cases.upload_only _ _ (EvOpen Demo.tiff_bytes 0 Demo.not_identified)
                   (mkExn UnidentifiedImageError "cannot identify image file")
                   eq_refl _ _)).
  - vm_compute. tauto.
  - left. exists Demo.tiff_bytes, 0%nat. reflexivity.
Defined.

Lemma export_ok_iff_saved_witness :
  status (attachment "png" "image/png" Demo.encoded) = 200
  /\ exists img a out,
       In (EvSave img a (Ok out))
         (events (snd (run_view (export_figure (L := Demo.scripted Demo.fine) "png"
                                   Cases.upload_only) world0))).
Proof.
  split; [reflexivity|].
  refine (proj1 (proj1 (export_ok_iff_saved (L := Demo.scripted Demo.fine) "png"
                          Cases.upload_only (attachment "png" "image/png" Demo.encoded)
                          _ eq_refl)) eq_refl).
Defined.

Lemma client_errors_before_processing_witness :
  count is_processing
    (events (snd (run_view (export_figure (L := Demo.scripted Demo.no_tifffile) "png"
                              Cases.upload_only) world0))) = 0%nat
  /\ count is_exception_log
       (events (snd (run_view (export_figure (L := Demo.scripted Demo.no_tifffile) "png"
                                 Cases.upload_only) world0))) = 0%nat.
Proof.
  exact (client_errors_before_processing (L := Demo.scripted Demo.no_tifffile) "png"
           Cases.upload_only (export_failed "unidentified_image" 400) _ eq_refl eq_refl).
Defined.

Lemma server_errors_are_logged_witness :
  status (export_failed "save_failed:disk full" 500) = 500
  /\ count is_exception_log
       (events (snd (run_view (export_figure (L := Demo.scripted (Demo.save_fails "disk full"))
                                 "png" Cases.upload_only) world0))) = 1%nat.
Proof.
  split; [reflexivity|].
  refine (proj1 (proj1 (server_errors_are_logged
                          (L := Demo.scripted (Demo.save_fails "disk full")) "png"
                          Cases.upload_only (export_failed "save_failed:disk full" 500)
                          _ eq_refl)) eq_refl).
Defined.

Lemma export_encodes_once_witness :
  (count is_save
     (events (snd (run_view (export_figure (L := Demo.scripted Demo.fine) "pdf"
                               Cases.upload_only) world0))) <= 1)%nat
  /\ (count is_convert
        (events (snd (run_view (export_figure (L := Demo.scripted Demo.fine) "pdf"
                                  Cases.upload_only) world0))) <= 1)%nat
  /\ count is_tifffile_use
       (events (snd (run_view (export_figure (L := Demo.scripted Demo.fine) "pdf"
                                 Cases.upload_only) world0))) = 0%nat.
Proof.
  exact (export_encodes_once (L := Demo.scripted Demo.fine) "pdf" Cases.upload_only
           _ _ eq_refl).
Defined.

Lemma paths_ignore_other_input_witness :
  export_figure (L := Demo.scripted Demo.fine) "png"
    (with_json Cases.upload_only (Ok (Demo.canvas []))) world0
  = export_figure (L := Demo.scripted Demo.fine) "png" Cases.upload_only world0
  /\ export_figure (L := Demo.scripted Demo.fine) "png"
       (with_upload Cases.no_comma (Ok [("image", Demo.upload_of Demo.tiff_bytes)])
          [("dpi", "72")]) world0
     = export_figure (L := Demo.scripted Demo.fine) "png" Cases.no_comma world0.
Proof.
  split.
  - exact (proj1 (paths_ignore_other_input (L := Demo.scripted Demo.fine) "png"
                    Cases.upload_only) eq_refl _ _).
  - exact (proj2 (paths_ignore_other_input (L := Demo.scripted Demo.fine) "png"
                    Cases.no_comma) eq_refl _ _ _).
Defined.

Lemma missing_upload_rejected_witness :
  run_view (export_figure (L := Demo.scripted Demo.fine) "png" Cases.no_upload) world0
  = (Ok (export_failed "missing_file" 400), world0)
  /\ run_view (convert_tiff_to_png (L := Demo.scripted Demo.fine) Cases.no_upload) world0
     = (Ok (jsonify [("error", JStr "missing_file")] 400), world0).
Proof.
  destruct (missing_upload_rejected (L := Demo.scripted Demo.fine) Cases.no_upload []
              eq_refl (or_introl eq_refl)) as [Hexport Htiff].
  split; [exact (Hexport "png" eq_refl eq_refl)|exact Htiff].
Defined.

Lemma legacy_decodes_after_first_comma_witness :
  exists items header encoded,
    Ok (Demo.canvas []) = Ok (JObj items)
    /\ assoc "canvasDataUrl" items = Some (JStr (header ++ "," ++ encoded))
    /\ contains "," header = false
    /\ b64decode (Libs := Demo.scripted Demo.fine) encoded
       = Ok (list_byte_of_string "iVBORw0KGgo=").
Proof.
  destruct (legacy_decodes_after_first_comma (L := Demo.scripted Demo.fine) "png"
              (Demo.json_request (Demo.canvas [])) _ _
              (list_byte_of_string "iVBORw0KGgo=") 0%nat (Ok Demo.rgba_image)
              eq_refl eq_refl)
    as (items & header & encoded & Hbody & Hurl & Hno & Hb & _).
  - vm_compute. tauto.
  - exists items, header, encoded. repeat split; assumption.
Defined.

Lemma legacy_invalid_data_url_rejected_witness :
  fst (run_view (export_figure (L := Demo.scripted Demo.fine) "png" Cases.no_comma) world0)
  = Ok (export_failed "missing_or_invalid_canvasDataUrl" 400)
  /\ events (snd (run_view (export_figure (L := Demo.scripted Demo.fine) "png"
                              Cases.no_comma) world0))
     = [EvGetJson].
Proof.
  refine (legacy_invalid_data_url_rejected (L := Demo.scripted Demo.fine) "png"
            Cases.no_comma _ _ _ eq_refl eq_refl eq_refl _ eq_refl).
  right. eexists. split; [reflexivity|]. right. eexists. split; [reflexivity|].
  right. reflexivity.
Defined.

Lemma legacy_unreadable_input_rejected_witness :
  fst (run_view (export_figure (L := Demo.scripted Demo.fine) "png" Cases.url_is_list)
         world0)
  = Ok (export_failed "base64_decode:'list' object has no attribute 'split'" 400)
  /\ events (snd (run_view (export_figure (L := Demo.scripted Demo.fine) "png"
                              Cases.url_is_list) world0))
     = [EvGetJson].
Proof.
  refine (legacy_unreadable_input_rejected (L := Demo.scripted Demo.fine) "png"
            Cases.url_is_list (no_attribute (JArr [JStr ","]) "split") _ _ _
            eq_refl eq_refl _ eq_refl).
  right. do 2 eexists. repeat split; reflexivity.
Defined.

Lemma convert_tiff_answer_witness :
  exists pre img,
    events (snd (run_view (convert_tiff_to_png (L := Demo.scripted Demo.exotic_tiff)
                             Cases.upload_only) world0))
    = (pre ++ [EvSave img png_args (Ok Demo.encoded)])%list
    /\ count is_saved pre = 0%nat
    /\ count is_exception_log pre = 0%nat
    /\ fst (run_view (convert_tiff_to_png (L := Demo.scripted Demo.exotic_tiff)
                        Cases.upload_only) world0)
       = Ok (jsonify [("ok", JBool true); ("format", JStr "png");
                      ("base64", JStr (b64encode (Libs := Demo.scripted Demo.exotic_tiff)
                                         Demo.encoded))] 200).
Proof.
  destruct (convert_tiff_answer (L := Demo.scripted Demo.exotic_tiff) Cases.upload_only
              _ _ eq_refl) as (resp & Hr & Hcases).
  destruct Hcases as [(pre & img & out & Hev & Hsaved & Hlog & Hresp)
                     |[(Hev & _)|(pre & msg & e & Hev & _)]].
  - assert (Hlast : last (pre ++ [EvSave img png_args (Ok out)]) EvGetJson
                    = EvSave (mkImage "RGB" 1 1 []) png_args (Ok Demo.encoded)).
    { rewrite <- Hev. vm_compute. reflexivity. }
    rewrite last_last in Hlast. injection Hlast as -> ->.
    exists pre, (mkImage "RGB" 1 1 []).
    split; [exact Hev|]. split; [exact Hsaved|]. split; [exact Hlog|].
    rewrite Hresp in Hr. exact Hr.
  - discriminate Hev.
  - assert (Hlast : last (pre ++ [EvLogException msg e]) EvGetJson
                    = EvSave (mkImage "RGB" 1 1 []) png_args (Ok Demo.encoded)).
    { rewrite <- Hev. vm_compute. reflexivity. }
    rewrite last_last in Hlast. discriminate Hlast.
Defined.

Lemma tiff_png_from_rgb_witness :
  In (EvSave (mkImage "RGB" 1 1 []) png_args (Ok Demo.encoded))
    (events (snd (run_view (convert_tiff_to_png (L := Demo.scripted Demo.exotic_tiff)
                              Cases.upload_only) world0)))
  /\ (mode (mkImage "RGB" 1 1 []) = "RGB" \/ mode (mkImage "RGB" 1 1 []) = "RGBA").
Proof.
  assert (Hin : In (EvSave (mkImage "RGB" 1 1 []) png_args (Ok Demo.encoded))
                  (events (snd (run_view
                                  (convert_tiff_to_png (L := Demo.scripted Demo.exotic_tiff)
                                     Cases.upload_only) world0)))).
  { vm_compute. tauto. }
  split; [exact Hin|].
  exact (proj2 (tiff_png_from_rgb (L := Demo.scripted Demo.exotic_tiff) Cases.upload_only
                  _ _ (mkImage "RGB" 1 1 []) png_args (Ok Demo.encoded)
                  (scripted_convert_gives_mode Demo.exotic_tiff) eq_refl Hin)).
Defined.

Lemma first_frame_is_converted_witness :
  exists p frame next rest,
    image_open (Libs := Demo.scripted Demo.fine) Demo.tiff_bytes 0%nat
    = (Ok Demo.rgba_image, p)
    /\ events (snd (run_view (convert_tiff_to_png (L := Demo.scripted Demo.fine)
                                Cases.upload_only) world0))
       = EvOpen Demo.tiff_bytes 0 (Ok Demo.rgba_image) :: next :: rest
    /\ png_starts frame next
    /\ frame = Demo.rgba_image.
Proof.
  destruct (first_frame_is_converted (L := Demo.scripted Demo.fine) Cases.upload_only
              _ _ Demo.tiff_bytes 0%nat Demo.rgba_image eq_refl)
    as (p & frame & next & rest & Hopen & Hev & Hstart & _ & _ & Hone & _).
  - vm_compute. tauto.
  - exists p, frame, next, rest. split; [exact Hopen|]. split; [exact Hev|].
    split; [exact Hstart|]. apply (Hone 1 p); [reflexivity|lia].
Defined.

Lemma tifffile_pipeline_witness :
  exists pre next rest,
    events (snd (run_view (convert_tiff_to_png (L := Demo.scripted Demo.exotic_tiff)
                             Cases.upload_only) world0))
    = (pre ++ EvTiffRead Demo.tiff_bytes (Ok Demo.gray16) :: next :: rest)%list
    /\ png_starts (mkImage "L" 1 1 []) next.
Proof.
  destruct (tifffile_pipeline (L := Demo.scripted Demo.exotic_tiff) Cases.upload_only
              _ _ Demo.tiff_bytes Demo.gray16 eq_refl) as (pre & Hpipe).
  - vm_compute. tauto.
  - exists pre. exact Hpipe.
Defined.

Lemma layout_mode_fits_shape_witness :
  layout Cases.planes = Ok (Cases.pixels_of_planes, "RGB")
  /\ ndim Cases.pixels_of_planes = 3%nat
  /\ shape_at Cases.pixels_of_planes 2 = 3%nat.
Proof.
  split; [reflexivity|].
  destruct (layout_mode_fits_shape Cases.planes Cases.pixels_of_planes "RGB" eq_refl)
    as (_ & _ & [Hm|[(_ & Hn & Hs)|(Hm & _)]]); try discriminate Hm.
  split; [exact Hn|exact Hs].
Defined.

Lemma planar_array_interleaved_witness :
  exists a,
    layout Cases.planes = Ok (a, "RGB")
    /\ shape a = [1; 2; 3]%nat
    /\ sample a 4 = sample Cases.planes 3.
Proof.
  destruct (proj2 (planar_array_interleaved Cases.planes 3 1 2 eq_refl) eq_refl eq_refl)
    as (a & Hlayout & _ & Hshape & Hsample).
  exists a. split; [exact Hlayout|]. split; [exact Hshape|].
  apply (Hsample 0 1 1)%nat; lia.
Defined.

Lemma layout_fails_on_degenerate_witness :
  exists e, layout Cases.one_sample = Raise e.
Proof.
  refine (proj2 (layout_fails_on_degenerate Cases.one_sample) _ _).
  - repeat constructor.
  - discriminate.
Defined.

Lemma nan_sample_blanks_image_witness :
  to_uint8 Cases.with_nan = Ok (mkArray uint8 [1; 2]%nat [SInt 0; SInt 0]).
Proof.
  refine (proj1 (nan_sample_blanks_image Cases.with_nan _ _)).
  - discriminate.
  - left. reflexivity.
Defined.

Lemma feedback_answer_witness :
  exists items,
    Ok (JObj [("rating", JInt 5)]) = Ok (JObj items)
    /\ fst (run_view (Feedback.submit_feedback Cases.rating_text
                        (Ok (JObj [("rating", JInt 5)]))) world0)
       = Ok (jsonify [("success", JBool true)] 200)
    /\ events (snd (run_view
                      (Feedback.submit_feedback Cases.rating_text
                         (Ok (JObj [("rating", JInt 5)]))) world0))
       = [EvLogInfo ("Feedback received rating="
                     ++ Cases.rating_text match assoc "rating" items with
                                          | Some x => x
                                          | None => JNull
                                          end)].
Proof.
  destruct (feedback_answer Cases.rating_text (Ok (JObj [("rating", JInt 5)])) _ _ eq_refl)
    as [(items & Hbody & Hr & Hev)|(e & _ & Hr & _)].
  - exists items. split; [exact Hbody|]. split; [exact Hr|exact Hev].
  - discriminate Hr.
Defined.

Lemma form_fields_read_witness :
  export_figure (L := Demo.scripted Demo.fine) "png"
    (with_form (Demo.multipart Demo.tiff_bytes [("dpi", "300")])
       [("quality", "best"); ("dpi", "300")]) world0
  = export_figure (L := Demo.scripted Demo.fine) "png"
      (Demo.multipart Demo.tiff_bytes [("dpi", "300")]) world0.
Proof.
  refine (form_fields_read (Demo.scripted Demo.fine) "png"
            (Demo.multipart Demo.tiff_bytes [("dpi", "300")])
            [("quality", "best"); ("dpi", "300")] eq_refl _ world0).
  intros H. vm_compute in H. discriminate H.
Defined.

Lemma json_read_only_on_legacy_path_witness :
  In EvGetJson
    (events (snd (run_view (export_figure (L := Demo.scripted Demo.fine) "png"
                              Cases.no_comma) world0)))
  /\ ~ In EvGetJson
       (events (snd (run_view (export_figure (L := Demo.scripted Demo.fine) "png"
                                 Cases.upload_only) world0))).
Proof.
  split.
  - refine (proj2 (proj1 (json_read_only_on_legacy_path (L := Demo.scripted Demo.fine) "png"
                            Cases.no_comma _ _ eq_refl)) _).
    split; reflexivity.
  - intros Hin.
    destruct (proj1 (proj1 (json_read_only_on_legacy_path (L := Demo.scripted Demo.fine)
                              "png" Cases.upload_only _ _ eq_refl)) Hin) as [Hmp _].
    discriminate Hmp.
Defined.

Lemma export_raises_only_on_legacy_witness :
  run_view (export_figure (L := Demo.scripted Demo.fine) "png"
              (Demo.json_request (JArr [JInt 1]))) world0
  = (Raise (no_attribute (JArr [JInt 1]) "get"), mkWorld 0 [EvGetJson])
  /\ count is_exception_log [EvGetJson] = 0%nat.
Proof.
  split; [reflexivity|].
  exact (proj1 (proj2 (export_raises_only_on_legacy (L := Demo.scripted Demo.fine) "png"
                         (Demo.json_request (JArr [JInt 1]))
                         (no_attribute (JArr [JInt 1]) "get") (mkWorld 0 [EvGetJson])
                         eq_refl))).
Defined.
